(** * plhwtools: power sequencing and EEPROM transfer

    A shallow embedding of the power-sequence and EEPROM parts of
    [plhwtools.c] (version 1.3) and the properties the design document states
    about them.

    The program talks to the hardware through library calls ([libplhw],
    [read(2)], [write(2)], ...) whose code is not part of the program.  The
    embedding threads a [world] through every function: it records the calls
    made, the lines logged, and holds what the environment will answer.  The
    answer to the n-th library call is [env w n]; nothing is assumed about it,
    so a theorem quantified over [w] speaks about every behaviour of the
    hardware. *)

From Stdlib Require Import ZArith List String Ascii Bool Lia PeanoNat.
From Stdlib Require Import Strings.Byte.
Import ListNotations.

Local Open Scope string_scope.
Local Open Scope list_scope.
Local Open Scope Z_scope.

(** ** Machine integers *)

(** [int] is taken as 32 bits wide, two's complement. *)
Definition INT_BITS : Z := 32.

Definition to_int (z : Z) : Z :=
  let m := z mod 2 ^ INT_BITS in
  if m <? 2 ^ (INT_BITS - 1) then m else m - 2 ^ INT_BITS.

(** Pointers are addresses; only the comparison with [NULL] matters. *)
Definition ptr : Type := Z.
Definition NULL : ptr := 0.

Definition SIGINT : Z := 2.

(** ** Device identifiers (enumerators of libplhw.h used by the program) *)

Inductive cpld_switch : Type :=
| CPLD_HVEN
| CPLD_COM_SW_EN
| CPLD_COM_SW_CLOSE
| CPLD_COM_PSU
| CPLD_BPCOM_CLAMP.

Inductive dac5820_channel_id : Type :=
| DAC5820_CH_A
| DAC5820_CH_B.

Inductive dac5820_power_id : Type :=
| DAC5820_POW_ON
| DAC5820_POW_OFF_FLOAT
| DAC5820_POW_OFF_1K
| DAC5820_POW_OFF_100K.

Definition DAC_CH : dac5820_channel_id := DAC5820_CH_A.
Definition DAC_ON : dac5820_power_id := DAC5820_POW_ON.
Definition DAC_OFF : dac5820_power_id := DAC5820_POW_OFF_100K.

(** ** Library calls and log lines *)

(** One constructor per library function the embedded code calls, with the
    arguments it is called with (buffers are given by their content). *)
Inductive call : Type :=
| Cpld_init
| Max17135_init
| Dac5820_init
| Cpld_set_switch (cpld : ptr) (sw : cpld_switch) (on : Z)
| Max17135_wait_for_pok (p : ptr)
| Dac5820_output (dac : ptr) (ch : dac5820_channel_id) (value : Z)
| Dac5820_set_power (dac : ptr) (ch : dac5820_channel_id)
                    (pow : dac5820_power_id)
| Eeprom_get_size (eeprom : ptr)
| Eeprom_set_block_size (eeprom : ptr) (n : Z)
| Eeprom_set_page_size (eeprom : ptr) (n : Z)
| Eeprom_seek (eeprom : ptr) (pos : Z)
| Eeprom_read (eeprom : ptr) (n : Z)
| Eeprom_write (eeprom : ptr) (data : list byte)
| Fd_read (n : Z)
| Fd_write (data : list byte).

(** What goes to [stderr].  [Line s] is [LOG(s)] (the tag and line-number
    prefix are left out); the other constructors are the formatted messages,
    kept with their arguments instead of being printed to text.
    [Undefined] is not an output: it marks that execution reached an operation
    C leaves undefined. *)
Inductive log_line : Type :=
| Line (s : string)
| Text (s : string)
| Seq_not_found (seq_name : string)        (* "Sequence not found: %s" *)
| Power (on : bool)                        (* "Power %s" *)
| Progress (msg : string) (percent prog : Z)
                                           (* "\r%s EEPROM... %i%% (%zu)" *)
| Error_at (i : Z)                         (* "error found at address 0x%04X" *)
| Dump_start (addr : Z)                    (* "dump start at 0x%04X" *)
| Hex (bytes : list (option byte))         (* one line of dump_hex_data *)
| Undefined (what : string).

(** ** The world *)

(** [struct ctx], restricted to the handles the embedded code uses. *)
Record ctx : Type := mk_ctx {
  cpld : ptr;
  max17135 : ptr;
  dac : ptr
}.

Record world : Type := mk_world {
  the_ctx : ctx;                 (* the one [struct ctx] of main *)
  g_abort : bool;                (* static int g_abort *)
  calls : list call;             (* library calls made, oldest first *)
  env : nat -> Z;                (* answer of the n-th library call *)
  sigint_at : option nat;        (* SIGINT arrives once that many calls
                                    have completed *)
  log : list log_line;           (* stderr, oldest first *)
  fd_in : list byte;             (* bytes still to come from the file *)
  fd_out : list byte;            (* bytes the file has received *)
  ee_in : list byte;             (* bytes the EEPROM delivers on reading *)
  mallocs : list (option (list byte));
                                 (* outcomes of the next malloc calls: None
                                    is NULL, Some junk a block holding junk *)
  rand_in : list Z               (* values of the next rand() calls *)
}.

Definition set_ctx (c : ctx) (w : world) : world :=
  mk_world c (g_abort w) (calls w) (env w) (sigint_at w) (log w)
           (fd_in w) (fd_out w) (ee_in w) (mallocs w) (rand_in w).
Definition set_abort (b : bool) (w : world) : world :=
  mk_world (the_ctx w) b (calls w) (env w) (sigint_at w) (log w)
           (fd_in w) (fd_out w) (ee_in w) (mallocs w) (rand_in w).
Definition add_call (c : call) (w : world) : world :=
  mk_world (the_ctx w) (g_abort w) (calls w ++ [c]) (env w) (sigint_at w)
           (log w) (fd_in w) (fd_out w) (ee_in w) (mallocs w) (rand_in w).
Definition add_log (l : log_line) (w : world) : world :=
  mk_world (the_ctx w) (g_abort w) (calls w) (env w) (sigint_at w)
           (log w ++ [l]) (fd_in w) (fd_out w) (ee_in w) (mallocs w)
           (rand_in w).
Definition set_fd_in (l : list byte) (w : world) : world :=
  mk_world (the_ctx w) (g_abort w) (calls w) (env w) (sigint_at w) (log w)
           l (fd_out w) (ee_in w) (mallocs w) (rand_in w).
Definition set_fd_out (l : list byte) (w : world) : world :=
  mk_world (the_ctx w) (g_abort w) (calls w) (env w) (sigint_at w) (log w)
           (fd_in w) l (ee_in w) (mallocs w) (rand_in w).
Definition set_ee_in (l : list byte) (w : world) : world :=
  mk_world (the_ctx w) (g_abort w) (calls w) (env w) (sigint_at w) (log w)
           (fd_in w) (fd_out w) l (mallocs w) (rand_in w).
Definition set_mallocs (l : list (option (list byte))) (w : world) : world :=
  mk_world (the_ctx w) (g_abort w) (calls w) (env w) (sigint_at w) (log w)
           (fd_in w) (fd_out w) (ee_in w) l (rand_in w).
Definition set_rand_in (l : list Z) (w : world) : world :=
  mk_world (the_ctx w) (g_abort w) (calls w) (env w) (sigint_at w) (log w)
           (fd_in w) (fd_out w) (ee_in w) (mallocs w) l.

(** ** The monad of the program: a function of the world *)

Definition M (A : Type) : Type := world -> A * world.

Definition ret {A : Type} (a : A) : M A := fun w => (a, w).

Definition bind {A B : Type} (m : M A) (f : A -> M B) : M B :=
  fun w => let p := m w in f (fst p) (snd p).

Notation "x <- m ;; k" := (bind m (fun x => k))
  (at level 61, m at next level, right associativity).
Notation "m ;; k" := (bind m (fun _ => k))
  (at level 61, right associativity).

Definition LOG (s : string) : M unit := fun w => (tt, add_log (Line s) w).
Definition LOG_PRINT (s : string) : M unit :=
  fun w => (tt, add_log (Text s) w).
Definition emit (l : log_line) : M unit := fun w => (tt, add_log l w).

(** static void sigint_abort(int signum) *)
Definition sigint_abort (signum : Z) : M unit :=
  if signum =? SIGINT then
    LOG "abort!" ;;
    (fun w => (tt, set_abort true w))
  else ret tt.

(** The signal handler runs when the scheduled number of calls is reached. *)
Definition deliver (w : world) : world :=
  match sigint_at w with
  | Some n =>
      if Nat.eqb n (List.length (calls w)) then snd (sigint_abort SIGINT w) else w
  | None => w
  end.

(** A library call: recorded, answered by the environment. *)
Definition lib (c : call) : M Z :=
  fun w => (env w (List.length (calls w)), deliver (add_call c w)).

(** ** Device handles (lazily opened, kept in [struct ctx]) *)

Definition get_ctx : M ctx := fun w => (the_ctx w, w).
Definition put_ctx (c : ctx) : M unit := fun w => (tt, set_ctx c w).

(** static struct cpld *require_cpld(struct ctx *ctx) *)
Definition require_cpld : M ptr :=
  c <- get_ctx ;;
  (if cpld c =? NULL then
     p <- lib Cpld_init ;;
     c <- get_ctx ;;
     put_ctx (mk_ctx p (max17135 c) (dac c))
   else ret tt) ;;
  c <- get_ctx ;;
  ret (cpld c).

(** static struct max17135 *require_max17135(struct ctx *ctx) *)
Definition require_max17135 : M ptr :=
  c <- get_ctx ;;
  (if max17135 c =? NULL then
     p <- lib Max17135_init ;;
     c <- get_ctx ;;
     put_ctx (mk_ctx (cpld c) p (dac c))
   else ret tt) ;;
  c <- get_ctx ;;
  ret (max17135 c).

(** static struct dac5820 *require_dac(struct ctx *ctx) *)
Definition require_dac : M ptr :=
  c <- get_ctx ;;
  (if dac c =? NULL then
     p <- lib Dac5820_init ;;
     c <- get_ctx ;;
     put_ctx (mk_ctx (cpld c) (max17135 c) p)
   else ret tt) ;;
  c <- get_ctx ;;
  ret (dac c).

(** The libplhw functions of the power sequences. *)
Definition cpld_set_switch (cpld : ptr) (sw : cpld_switch) (on : Z) : M Z :=
  lib (Cpld_set_switch cpld sw on).
Definition max17135_wait_for_pok (p : ptr) : M Z :=
  lib (Max17135_wait_for_pok p).
Definition dac5820_output (dac : ptr) (ch : dac5820_channel_id) (value : Z)
  : M Z :=
  lib (Dac5820_output dac ch value).
Definition dac5820_set_power (dac : ptr) (ch : dac5820_channel_id)
                             (pow : dac5820_power_id) : M Z :=
  lib (Dac5820_set_power dac ch pow).

(** ** Power sequences *)

(** The macro [STEP(cmd, msg)]; [k] is the code after the macro, which the
    [return res] of the failure branch skips. *)
Definition STEP (cmd : M Z) (msg : string) (k : M Z) : M Z :=
  res <- cmd ;;
  if res <? 0 then
    LOG (String.append msg " failed (ERROR)") ;;
    ret res
  else
    LOG (String.append msg " ok") ;;
    k.

(** [s ;;; k]: the statement [s], then the rest [k] of the function. *)
Notation "s ;;; k" := (s k)
  (at level 62, right associativity, only parsing).

(** static int power_on_seq0(struct ctx *ctx, char vcom) *)
Definition power_on_seq0 (vcom : Z) : M Z :=
  cpld <- require_cpld ;;
  max17135 <- require_max17135 ;;
  dac <- require_dac ;;
  if (cpld =? NULL) || (max17135 =? NULL) then ret (-1) else
  STEP (cpld_set_switch cpld CPLD_BPCOM_CLAMP 1) "BPCOM clamp" ;;;
  STEP (cpld_set_switch cpld CPLD_HVEN 1) "HV enable" ;;;
  STEP (max17135_wait_for_pok max17135) "wait for POK" ;;;
  STEP (cpld_set_switch cpld CPLD_COM_SW_CLOSE 0) "COM open" ;;;
  STEP (cpld_set_switch cpld CPLD_COM_SW_EN 1) "COM enable" ;;;
  STEP (cpld_set_switch cpld CPLD_COM_PSU 1) "COM PSU on" ;;;
  STEP (dac5820_output dac DAC5820_CH_A vcom) "VCOM DAC value" ;;;
  STEP (dac5820_set_power dac DAC_CH DAC_ON) "DAC power on" ;;;
  STEP (cpld_set_switch cpld CPLD_COM_SW_CLOSE 1) "COM close" ;;;
  ret 0.

(** static int power_off_seq0(struct ctx *ctx) *)
Definition power_off_seq0 : M Z :=
  cpld <- require_cpld ;;
  dac <- require_dac ;;
  if cpld =? NULL then ret (-1) else
  STEP (cpld_set_switch cpld CPLD_COM_SW_CLOSE 0) "COM open" ;;;
  STEP (cpld_set_switch cpld CPLD_COM_SW_EN 0) "COM disable" ;;;
  STEP (dac5820_set_power dac DAC_CH DAC_OFF) "DAC power off" ;;;
  STEP (cpld_set_switch cpld CPLD_COM_PSU 0) "COM PSU off" ;;;
  STEP (cpld_set_switch cpld CPLD_HVEN 0) "HV disable" ;;;
  ret 0.

(** ** Power sequence configuration *)

(** Modelled from the spec: [MAX17135_NB_TIMINGS] is defined in libplhw.h,
    which is not among the sources; the design document gives the timing
    profile 8 slots.  (The two initialisers in the program have 8 values.) *)
Definition MAX17135_NB_TIMINGS : nat := 8.

(** [struct power_seq].  [name], [on] and [off] are pointers: [None] is
    NULL.  [timing] is [char timing[MAX17135_NB_TIMINGS]]. *)
Record power_seq : Type := mk_power_seq {
  name : option string;
  on : option (Z -> M Z);
  off : option (M Z);
  timing : list Z
}.

(** An array initialiser: the values given, then zeros up to the size. *)
Definition array_init (size : nat) (init : list Z) : list Z :=
  firstn size (init ++ repeat 0 size).

Definition seqs : list power_seq :=
  [ mk_power_seq (Some "seq0") (Some power_on_seq0) (Some power_off_seq0)
                 (array_init MAX17135_NB_TIMINGS [8; 2; 11; 3; 0; 0; 0; 0]);
    mk_power_seq None None None (array_init MAX17135_NB_TIMINGS []) ].

(** The loop [for (seq = seqs; seq->name != NULL; ++seq) if (!strcmp(...))
    break;] over a table: the entry [seq] points at when the loop ends.
    [None]: the table has no terminating entry and the loop leaves the
    array. *)
Fixpoint seq_scan (seq_name : string) (tbl : list power_seq)
  : option power_seq :=
  match tbl with
  | [] => None
  | seq :: rest =>
      match name seq with
      | None => Some seq
      | Some n => if String.eqb seq_name n then Some seq
                  else seq_scan seq_name rest
      end
  end.

(** [get_power_seq] over a given table; [argc] is the length of [argv]. *)
Definition get_power_seq_in (tbl : list power_seq) (argv : list string)
  : M (option power_seq) :=
  seq <- match argv with
         | [] => ret (hd_error tbl)
         | seq_name :: _ =>
             let seq := seq_scan seq_name tbl in
             match seq with
             | Some s =>
                 match name s with
                 | None => emit (Seq_not_found seq_name)
                 | Some _ => ret tt
                 end
             | None => emit (Undefined "read past the end of seqs")
             end ;;
             ret seq
         end ;;
  match seq with
  | Some s => match name s with
              | None => ret None
              | Some _ => ret (Some s)
              end
  | None => ret None
  end.

(** static const struct power_seq *get_power_seq(int argc, char **argv) *)
Definition get_power_seq (argv : list string) : M (option power_seq) :=
  get_power_seq_in seqs argv.

(** static int get_on_off_opt(const char *on_off) *)
Definition get_on_off_opt (on_off : string) : Z :=
  if String.eqb on_off "on" then 1
  else if String.eqb on_off "off" then 0
  else -1.

(** [char] holds 8 bits; the value is kept as the byte it is stored as. *)
Definition to_char (z : Z) : Z := z mod 256.

Section Run_power.

(** [atoi] of the C library, as a function of the text. *)
Variable atoi : string -> Z.

(** static int run_power(struct ctx *ctx, int argc, char **argv) *)
Definition run_power (argv : list string) : M Z :=
  match argv with
  | [] => LOG "invalid arguments" ;; ret (-1)
  | arg0 :: rest =>
      let on_ := get_on_off_opt arg0 in
      if on_ <? 0 then
        LOG "invalid arguments (possible values are `on' or `off')" ;;
        ret (-1)
      else
        seq <- get_power_seq rest ;;
        match seq with
        | None => ret (-1)
        | Some seq =>
            stat <-
              (if negb (on_ =? 0) then
                 vcom <-
                   match rest with
                   | _ :: arg2 :: _ =>
                       let vcom_raw := atoi arg2 in
                       if (vcom_raw <? 0) || (vcom_raw >? 255) then
                         LOG "invalid vcom value (valid range: 0-255)" ;;
                         ret (to_char 128)
                       else ret (to_char vcom_raw)
                   | _ => ret (to_char 128)
                   end ;;
                 match on seq with
                 | Some f => f vcom
                 | None => emit (Undefined "call through NULL") ;; ret (-1)
                 end
               else
                 match off seq with
                 | Some f => f
                 | None => emit (Undefined "call through NULL") ;; ret (-1)
                 end) ;;
            (if stat =? 0 then emit (Power (negb (on_ =? 0))) else ret tt) ;;
            ret stat
        end
  end.

End Run_power.

(** A decimal reading of [atoi] used to run examples: optional blanks, an
    optional sign, then digits. *)
Definition is_digit (c : ascii) : bool :=
  let n := Z.of_nat (nat_of_ascii c) in (48 <=? n) && (n <=? 57).

Fixpoint atoi_digits (s : string) (acc : Z) : Z :=
  match s with
  | String c rest =>
      if is_digit c
      then atoi_digits rest (acc * 10 + (Z.of_nat (nat_of_ascii c) - 48))
      else acc
  | EmptyString => acc
  end.

Fixpoint atoi_dec (s : string) : Z :=
  match s with
  | String " " rest => atoi_dec rest
  | String "-" rest => - atoi_digits rest 0
  | String "+" rest => atoi_digits rest 0
  | _ => atoi_digits s 0
  end.

(** A world in which nothing has happened yet and every call answers [e]. *)
Definition boot (e : nat -> Z) : world :=
  mk_world (mk_ctx NULL NULL NULL) false [] e None [] [] [] [] [] [].

(** ** Step chains as lists

    Both sequences are chains of [STEP]s over library calls.  [run_steps] runs
    such a chain given as a list; the sequences are shown equal to it, and the
    chain is then studied by induction on the list. *)

Fixpoint run_steps (steps : list (call * string)) : M Z :=
  match steps with
  | [] => ret 0
  | (c, msg) :: rest => STEP (lib c) msg (run_steps rest)
  end.

(** The nine device operations of power-on, in program order. *)
Definition power_on_calls (cpld max17135 dac : ptr) (vcom : Z) : list call :=
  [ Cpld_set_switch cpld CPLD_BPCOM_CLAMP 1;       (* engage BPCOM clamp *)
    Cpld_set_switch cpld CPLD_HVEN 1;              (* high-voltage rail on *)
    Max17135_wait_for_pok max17135;                (* wait for power-OK *)
    Cpld_set_switch cpld CPLD_COM_SW_CLOSE 0;      (* open the VCOM switch *)
    Cpld_set_switch cpld CPLD_COM_SW_EN 1;         (* VCOM switch driver on *)
    Cpld_set_switch cpld CPLD_COM_PSU 1;           (* VCOM power supply on *)
    Dac5820_output dac DAC5820_CH_A vcom;          (* vcom to the DAC output *)
    Dac5820_set_power dac DAC5820_CH_A DAC5820_POW_ON;  (* DAC channel on *)
    Cpld_set_switch cpld CPLD_COM_SW_CLOSE 1 ].    (* close the VCOM switch *)

Definition power_on_labels : list string :=
  [ "BPCOM clamp"; "HV enable"; "wait for POK"; "COM open"; "COM enable";
    "COM PSU on"; "VCOM DAC value"; "DAC power on"; "COM close" ].

(** The five device operations of power-off, in program order. *)
Definition power_off_calls (cpld dac : ptr) : list call :=
  [ Cpld_set_switch cpld CPLD_COM_SW_CLOSE 0;      (* open the VCOM switch *)
    Cpld_set_switch cpld CPLD_COM_SW_EN 0;         (* VCOM switch driver off *)
    Dac5820_set_power dac DAC5820_CH_A DAC5820_POW_OFF_100K;
                                                   (* DAC off, 100K pulldown *)
    Cpld_set_switch cpld CPLD_COM_PSU 0;           (* VCOM power supply off *)
    Cpld_set_switch cpld CPLD_HVEN 0 ].            (* high-voltage rail off *)

Definition power_off_labels : list string :=
  [ "COM open"; "COM disable"; "DAC power off"; "COM PSU off"; "HV disable" ].

(** The handles a sequence obtains before its first step. *)
Definition acquire_on : M (ptr * ptr * ptr) :=
  cpld <- require_cpld ;;
  max17135 <- require_max17135 ;;
  dac <- require_dac ;;
  ret (cpld, max17135, dac).

Definition acquire_off : M (ptr * ptr) :=
  cpld <- require_cpld ;;
  dac <- require_dac ;;
  ret (cpld, dac).

(** The lines a chain logs. *)
Definition ok_line (msg : string) : log_line :=
  Line (String.append msg " ok").
Definition failed_line (msg : string) : log_line :=
  Line (String.append msg " failed (ERROR)").

(** The log without the lines of the signal handler, which may come in
    between the lines of the running command. *)
Definition is_abort_line (l : log_line) : bool :=
  match l with
  | Line s => String.eqb s "abort!"
  | _ => false
  end.

Definition own_lines (l : list log_line) : list log_line :=
  filter (fun x => negb (is_abort_line x)) l.

(** The answers of the [k] calls that follow the calls already made in [w]
    are all non-negative. *)
Definition answers_ok (w : world) (k : nat) : Prop :=
  forall j : nat, (j < k)%nat -> 0 <= env w (List.length (calls w) + j).

(** The [i]-th call from [w] on is the first one answered by a failure. *)
Definition first_failure (w : world) (i : nat) : Prop :=
  answers_ok w i /\ env w (List.length (calls w) + i) < 0.

(** The world after the call of a step and the line it logs. *)
Definition step_done (c : call) (l : log_line) (w : world) : world :=
  add_log l (snd (lib c w)).

(** ** Vocabulary for the statements about the power procedures *)

(** The calls that open the handles still missing from [struct ctx]. *)
Definition init_calls_on (c : ctx) : list call :=
  (if cpld c =? NULL then [Cpld_init] else [])
  ++ (if max17135 c =? NULL then [Max17135_init] else [])
  ++ (if dac c =? NULL then [Dac5820_init] else []).

Definition init_calls_off (c : ctx) : list call :=
  (if cpld c =? NULL then [Cpld_init] else [])
  ++ (if dac c =? NULL then [Dac5820_init] else []).

(** The two procedures of a sequence, to state what they share once. *)
Inductive procedure : Type :=
| Power_on (vcom : Z)
| Power_off.

Definition run_procedure (p : procedure) : M Z :=
  match p with
  | Power_on vcom => power_on_seq0 vcom
  | Power_off => power_off_seq0
  end.

(** The world when the procedure has obtained its handles and is about to
    run its first step. *)
Definition handles_acquired (p : procedure) (w : world) : world :=
  match p with
  | Power_on _ => snd (acquire_on w)
  | Power_off => snd (acquire_off w)
  end.

(** The handles the procedure checks are there. *)
Definition handles_ready (p : procedure) (w : world) : Prop :=
  let c := the_ctx (handles_acquired p w) in
  match p with
  | Power_on _ => cpld c <> NULL /\ max17135 c <> NULL
  | Power_off => cpld c <> NULL
  end.

Definition procedure_calls (p : procedure) (w : world) : list call :=
  let c := the_ctx (handles_acquired p w) in
  match p with
  | Power_on vcom => power_on_calls (cpld c) (max17135 c) (dac c) vcom
  | Power_off => power_off_calls (cpld c) (dac c)
  end.

Definition procedure_labels (p : procedure) : list string :=
  match p with
  | Power_on _ => power_on_labels
  | Power_off => power_off_labels
  end.

(** Calls that power-off must not make. *)
Definition is_clamp_or_pok (c : call) : bool :=
  match c with
  | Cpld_set_switch _ CPLD_BPCOM_CLAMP _ => true
  | Max17135_wait_for_pok _ => true
  | _ => false
  end.

Definition is_dac_call (c : call) : bool :=
  match c with
  | Dac5820_output _ _ _ => true
  | Dac5820_set_power _ _ _ => true
  | _ => false
  end.

(** The entry of the table a name selects: the first one called so. *)
Definition named (seq_name : string) (s : power_seq) : bool :=
  match name s with
  | Some n => String.eqb seq_name n
  | None => false
  end.

(** A table as the program declares them: named entries, then the entry
    with a NULL name. *)
Definition terminated (tbl : list power_seq) : Prop :=
  exists (entries : list power_seq) (last : power_seq),
    tbl = entries ++ [last] /\
    name last = None /\
    Forall (fun s => name s <> None) entries.

(** Worlds used to run the procedures on examples. *)

(** POK never comes: the sixth call (three handles, two steps, then the
    wait) fails with -7. *)
Definition world_pok_fails : world :=
  boot (fun n => if Nat.eqb n 5 then -7 else 1).

(** Handles already open, every call succeeds. *)
Definition world_ready : world :=
  mk_world (mk_ctx 11 12 13) false [] (fun _ => 0) None [] [] [] [] [] [].

(** ** EEPROM: memory, files and the device *)

(** [struct eeprom_opt] *)
Record eeprom_opt : Type := mk_eeprom_opt {
  i2c_addr : Z;
  data_size : Z;
  skip : Z;
  zero_padding : Z;
  block_size : Z;
  page_size : Z
}.

Definition UINT_MAX : Z := 2 ^ 32 - 1.

(** [malloc(size)]: NULL, or a block of [size] bytes of unspecified content
    (the junk the world supplies, zeros where the junk is too short). *)
Definition malloc (size : Z) : M (option (list byte)) :=
  fun w =>
    match mallocs w with
    | [] => (None, w)
    | None :: rest => (None, set_mallocs rest w)
    | Some junk :: rest =>
        (Some (firstn (Z.to_nat size) (junk ++ repeat x00 (Z.to_nat size))),
         set_mallocs rest w)
    end.

(** Storing [src] at the start of the block [buf]. *)
Definition blit (src buf : list byte) : list byte :=
  src ++ skipn (List.length src) buf.

(** The byte at [idx] of a block; [None] outside the block. *)
Definition read_at (block : list byte) (idx : Z) : option byte :=
  if idx <? 0 then None else nth_error block (Z.to_nat idx).

(** [read(fd, buffer, n)].  The environment's answer is the number of bytes
    the call can deliver, negative for an error; the call returns the number
    of bytes stored in the buffer, at most [n] and at most what is left of
    the file. *)
Definition read (buffer : list byte) (n : Z) : M (Z * list byte) :=
  a <- lib (Fd_read n) ;;
  if a <? 0 then ret (a, buffer)
  else
    fun w =>
      let got := firstn (Z.to_nat (Z.min a n)) (fd_in w) in
      ((Z.of_nat (List.length got), blit got buffer),
       set_fd_in (skipn (List.length got) (fd_in w)) w).

(** [write(fd, buffer, n)].  The environment's answer is the number of bytes
    the call can take, negative for an error; the call returns the number of
    bytes written, at most [n]. *)
Definition write (buffer : list byte) (n : Z) : M Z :=
  a <- lib (Fd_write (firstn (Z.to_nat n) buffer)) ;;
  if a <? 0 then ret a
  else
    fun w =>
      let put := firstn (Z.to_nat (Z.min a n)) buffer in
      (Z.of_nat (List.length put), set_fd_out (fd_out w ++ put) w).

(** Modelled from the spec: libplhw's EEPROM functions are not among the
    sources.  The design document gives them as [get_capacity() -> bytes],
    [seek(offset)], [read(buffer, length) -> bytes_read | error] and
    [write(buffer, length) -> Ok | error]; errors are negative values. *)
Definition eeprom_seek (eeprom : ptr) (pos : Z) : M unit :=
  lib (Eeprom_seek eeprom pos) ;; ret tt.

Definition eeprom_read (eeprom : ptr) (buffer : list byte) (n : Z)
  : M (Z * list byte) :=
  a <- lib (Eeprom_read eeprom n) ;;
  if a <? 0 then ret (a, buffer)
  else
    fun w =>
      let got := firstn (Z.to_nat (Z.min a n)) (ee_in w) in
      ((Z.of_nat (List.length got), blit got buffer),
       set_ee_in (skipn (List.length got) (ee_in w)) w).

Definition eeprom_write (eeprom : ptr) (buffer : list byte) (n : Z) : M Z :=
  lib (Eeprom_write eeprom (firstn (Z.to_nat n) buffer)).

Definition eeprom_set_block_size (eeprom : ptr) (n : Z) : M unit :=
  lib (Eeprom_set_block_size eeprom n) ;; ret tt.

Definition eeprom_set_page_size (eeprom : ptr) (n : Z) : M unit :=
  lib (Eeprom_set_page_size eeprom n) ;; ret tt.

(** [rand() & 0xFF], [n] times. *)
Definition byte_of_Z (z : Z) : byte :=
  match Byte.of_nat (Z.to_nat (Z.land z 255)) with
  | Some b => b
  | None => x00
  end.

Fixpoint rand_bytes (n : nat) : M (list byte) :=
  match n with
  | O => ret []
  | S n' =>
      r <- (fun w => match rand_in w with
                     | [] => (0, w)
                     | x :: rest => (x, set_rand_in rest w)
                     end) ;;
      more <- rand_bytes n' ;;
      ret (byte_of_Z r :: more)
  end.

(** ** dump_hex_data *)

(** The bytes are all there: none is outside the block. *)
Definition all_inside (bytes : list (option byte)) : bool :=
  forallb (fun b => match b with Some _ => true | None => false end) bytes.

(** The lines of the loop of [dump_hex_data]: [todo] lines are still to be
    printed, [line] is the loop counter, [byte] the read position as an index
    into the block, [remaining] the bytes still to print.  A line that reads
    outside the block is marked as undefined. *)
Fixpoint dump_lines (todo : nat) (block : list byte) (line byte remaining : Z)
  : M unit :=
  match todo with
  | O => ret tt
  | S todo' =>
      let length := if remaining <? 16 then remaining else 16 in
      let bytes := map (fun i => read_at block (byte + Z.of_nat i))
                       (seq 0 (Z.to_nat length)) in
      (if negb (line =? 0) && (line mod 16 =? 0) then LOG_PRINT "\n"
       else ret tt) ;;
      (if all_inside bytes then emit (Hex bytes)
       else emit (Undefined "read outside the buffer")) ;;
      dump_lines todo' block (line + 1) (byte + length) (remaining - length)
  end.

(** static void dump_hex_data(const char *data, size_t size), [data] being
    the address of byte [offset] of [block]. *)
Definition dump_hex_data (block : list byte) (offset : Z) (size : Z)
  : M unit :=
  if size =? 0 then ret tt
  else
    let n_lines := size / 16 in
    let n_lines := if negb (size mod 16 =? 0) then n_lines + 1 else n_lines in
    dump_lines (Z.to_nat n_lines) block 0 offset size.

(** ** full_rw_eeprom *)

(** The comparison loop: the counter [i] at the first place where the two
    walks [it_r] and [it_w] read different bytes. *)
Fixpoint first_diff (i : Z) (it_r it_w : list byte) : option Z :=
  match it_r, it_w with
  | r :: it_r', w :: it_w' =>
      if Byte.eqb r w then first_diff (i + 1) it_r' it_w' else Some i
  | _, _ => None
  end.

(** static int full_rw_eeprom(struct eeprom *eeprom,
                              const struct eeprom_opt *opt).
    The loop counters are [unsigned]: a size above [UINT_MAX] makes them wrap
    and the loops leave the buffers, which is marked as undefined.  The
    dumps around a mismatch take [dump_size] bytes from [&data[addr]]
    whether the buffers hold that many from there or not; [dump_hex_data]
    marks the lines that leave them.  [srand(time(0))] only chooses the
    values of [rand()], which the world supplies; the calls of [free] are
    left out (both blocks are freed once, as [malloc] returned them). *)
Definition full_rw_eeprom (eeprom : ptr) (opt : eeprom_opt) : M Z :=
  let dump_size := Z.min 256 (data_size opt) in
  data_w <- malloc (data_size opt) ;;
  data_r <- malloc (data_size opt) ;;
  match data_w, data_r with
  | Some _, Some _ =>
      if UINT_MAX <? data_size opt then
        emit (Undefined "unsigned loop counter wraps") ;; ret (-1)
      else
      LOG "preparing buffers ..." ;;
      data_w <- rand_bytes (Z.to_nat (data_size opt)) ;;
      let data_r := repeat x00 (Z.to_nat (data_size opt)) in
      LOG "beginning of the data to be written:" ;;
      dump_hex_data data_w 0 dump_size ;;
      LOG "writing to EEPROM ..." ;;
      eeprom_seek eeprom 0 ;;
      wr <- eeprom_write eeprom data_w (data_size opt) ;;
      ret_ <- (if wr <? 0 then LOG "failed to write data" ;; ret (-1)
               else ret 0) ;;
      LOG "reading the EEPROM ..." ;;
      eeprom_seek eeprom 0 ;;
      rd <- eeprom_read eeprom data_r (data_size opt) ;;
      let data_r := snd rd in
      ret_ <- (if fst rd <? 0 then LOG "failed to read data" ;; ret (-1)
               else ret ret_) ;;
      LOG "beginning of the data read back:" ;;
      dump_hex_data data_r 0 dump_size ;;
      LOG "comparing results ..." ;;
      ret_ <- match first_diff 0 data_r data_w with
              | Some i =>
                  let addr := to_int (if i >? 128 then i - 128 else 0) in
                  emit (Error_at i) ;;
                  emit (Dump_start addr) ;;
                  LOG "written:" ;;
                  dump_hex_data data_w addr dump_size ;;
                  LOG "read:" ;;
                  dump_hex_data data_r addr dump_size ;;
                  ret (-1)
              | None => ret ret_
              end ;;
      (if ret_ =? 0 then LOG "All good." else ret tt) ;;
      ret ret_
  | _, _ =>
      match data_r with
      | None => LOG "failed to allocate read buffer"
      | Some _ => ret tt
      end ;;
      match data_w with
      | None => LOG "failed to allocate write buffer"
      | Some _ => ret tt
      end ;;
      ret (-1)
  end.

(** ** Transfers between a file and the EEPROM *)

Definition buffer_size : Z := 4096.
Definition N_ZEROS : Z := 64.

Section Size_t.

(** The width of [size_t] in bits. *)
Variable SIZE_BITS : Z.

Definition to_size (z : Z) : Z := z mod 2 ^ SIZE_BITS.

Definition eeprom_get_size (eeprom : ptr) : M Z :=
  a <- lib (Eeprom_get_size eeprom) ;; ret (to_size a).

(** static void log_eeprom_progress(size_t total, size_t rem,
                                    const char *msg) *)
Definition log_eeprom_progress (total rem : Z) (msg : string) : M unit :=
  let prog := to_size (total - rem) in
  if total =? 0 then emit (Undefined "division by zero")
  else
    let prog_percent := to_int (to_size (prog * 100) / total) in
    emit (Progress msg prog_percent prog).

(** The loop of [pad_eeprom].  It ends within [left] rounds (each takes at
    least one byte off [left]); [fuel] bounds the rounds. *)
Fixpoint pad_loop (fuel : nat) (eeprom : ptr) (zeros : list byte)
         (left : Z) (opt : eeprom_opt) : M Z :=
  if left =? 0 then ret 0
  else
    match fuel with
    | O => emit (Undefined "loop bound") ;; ret (-1)
    | S fuel' =>
        let n := Z.min N_ZEROS left in
        log_eeprom_progress (data_size opt) (to_size (left - n))
                            "Padding" ;;
        wr <- eeprom_write eeprom zeros n ;;
        if wr <? 0 then ret (-1)
        else pad_loop fuel' eeprom zeros (to_size (left - n)) opt
    end.

(** static int pad_eeprom(struct eeprom *eeprom, size_t left,
                          const struct eeprom_opt *opt) *)
Definition pad_eeprom (eeprom : ptr) (left : Z) (opt : eeprom_opt) : M Z :=
  let zeros := repeat x00 (Z.to_nat N_ZEROS) in
  pad_loop (Z.to_nat left) eeprom zeros left opt.

(** The loop of [rw_file_eeprom], entered with the values of [left] and
    [ret] and the content of [buffer].  Every round takes at least one byte
    off [left] or ends the loop; [fuel] bounds the rounds. *)
Fixpoint rw_loop (fuel : nat) (eeprom : ptr) (write_file : bool)
         (opt : eeprom_opt) (msg : string) (buffer : list byte)
         (left ret_ : Z) : M Z :=
  fun w =>
    if negb (left =? 0) && (ret_ =? 0) && negb (g_abort w) then
      match fuel with
      | O => (-1, add_log (Undefined "loop bound") w)
      | S fuel' =>
          let rwsz := if left >? buffer_size then buffer_size else left in
          if write_file then
            (log_eeprom_progress (data_size opt) (to_size (left - rwsz))
                                 msg ;;
             rd <- eeprom_read eeprom buffer rwsz ;;
             ret_ <- (if fst rd <? 0 then ret (-1)
                      else
                        wr <- write (snd rd) rwsz ;;
                        if wr <? 0 then ret (-1) else ret ret_) ;;
             rw_loop fuel' eeprom write_file opt msg (snd rd)
                     (to_size (left - rwsz)) ret_) w
          else
            (rd <- read buffer rwsz ;;
             let rdsz := fst rd in
             let buffer := snd rd in
             (if rdsz >=? 0 then
                log_eeprom_progress (data_size opt) (to_size (left - rdsz))
                                    msg
              else ret tt) ;;
             if rdsz <? 0 then
               rw_loop fuel' eeprom write_file opt msg buffer left (-1)
             else
               wr <- eeprom_write eeprom buffer rdsz ;;
               if wr <? 0 then
                 rw_loop fuel' eeprom write_file opt msg buffer left (-1)
               else if rdsz =? rwsz then
                 rw_loop fuel' eeprom write_file opt msg buffer
                         (to_size (left - rwsz)) ret_
               else
                 ret_ <- (if negb (zero_padding opt =? 0) then
                            LOG_PRINT "\n" ;;
                            pad_eeprom eeprom (to_size (left - rdsz)) opt
                          else ret ret_) ;;
                 rw_loop fuel' eeprom write_file opt msg buffer 0 ret_) w
      end
    else (ret_, w).

(** static int rw_file_eeprom(struct eeprom *eeprom, int fd, int write_file,
                              const struct eeprom_opt *opt).
    The file behind [fd] is the world's. *)
Definition rw_file_eeprom (eeprom : ptr) (write_file : bool)
           (opt : eeprom_opt) : M Z :=
  let msg := if write_file then "Reading" else "Writing" in
  buffer <- malloc buffer_size ;;
  let left := data_size opt in
  match buffer with
  | None => LOG "failed to allocate buffer" ;; ret (-1)
  | Some buffer =>
      eeprom_seek eeprom (skip opt) ;;
      ret_ <- rw_loop (S (Z.to_nat left)) eeprom write_file opt msg buffer
                      left 0 ;;
      LOG_PRINT "\n" ;;
      ret ret_
  end.

(** static int run_eeprom(struct ctx *ctx, int argc, char **argv), from the
    point where the EEPROM handle is there: [opt] is [eeprom_opt] as the
    options have set it, [cmd_str] is [argv[1]].  The file is the world's
    (its opening and closing are left out), and so are the terminal
    settings around the question of full_rw; [answer] is the character
    read there. *)
Definition run_eeprom (eeprom : ptr) (opt : eeprom_opt) (cmd_str : string)
           (answer : ascii) : M Z :=
  esize <- eeprom_get_size eeprom ;;
  let sized :=
    if data_size opt =? 0 then
      Some (mk_eeprom_opt (i2c_addr opt) esize (skip opt)
                          (zero_padding opt) (block_size opt)
                          (page_size opt))
    else if data_size opt >? esize then None
    else Some opt in
  match sized with
  | None => LOG "data size bigger than EEPROM size" ;; ret (-1)
  | Some opt =>
      (if negb (block_size opt =? 0)
       then eeprom_set_block_size eeprom (block_size opt) else ret tt) ;;
      (if negb (page_size opt =? 0)
       then eeprom_set_page_size eeprom (page_size opt) else ret tt) ;;
      if String.eqb cmd_str "full_rw" then
        LOG_PRINT
          "Warning: this will overwrite the EEPROM data.\nContinue ? [N/y] " ;;
        if Ascii.eqb answer "y" then full_rw_eeprom eeprom opt
        else LOG_PRINT "aborted\n" ;; ret (-1)
      else if String.eqb cmd_str "e2f" then
        rw_file_eeprom eeprom true opt
      else if String.eqb cmd_str "f2e" then
        rw_file_eeprom eeprom false opt
      else LOG "invalid arguments" ;; ret (-1)
  end.

End Size_t.

(** ** Vocabulary for the statements about the transfers *)

(** The answers [e base], ..., [e (base + k - 1)] are all non-negative. *)
Definition all_ok (e : nat -> Z) (base k : nat) : Prop :=
  forall j : nat, (j < k)%nat -> 0 <= e (base + j)%nat.

(** [e (base + i)] is the first negative answer from [base] on. *)
Definition fails_first (e : nat -> Z) (base i : nat) : Prop :=
  all_ok e base i /\ e (base + i)%nat < 0.

(** SIGINT arrives while the number of completed calls goes from [a] to
    [b]. *)
Definition hit (w : world) (a b : nat) : bool :=
  match sigint_at w with
  | Some n => (a <? n)%nat && (n <=? b)%nat
  | None => false
  end.

(** From [w] to [w']: the calls [cs] were made, lines satisfying [P] were
    logged, the abort flag was raised if SIGINT arrived meanwhile. *)
Definition step (P : log_line -> Prop) (w w' : world) (cs : list call)
  : Prop :=
  calls w' = calls w ++ cs /\
  env w' = env w /\
  sigint_at w' = sigint_at w /\
  g_abort w'
  = g_abort w
    || hit w (List.length (calls w)) (List.length (calls w) + List.length cs) /\
  exists l : list log_line, log w' = log w ++ l /\ Forall P l.

(** A line that may be logged during a transfer of [total] bytes: a progress
    line shows a byte count within the total and the floor of its
    percentage; no line marks undefined behaviour. *)
Definition progress_ok (total : Z) (l : log_line) : Prop :=
  match l with
  | Progress _ percent prog =>
      0 <= prog <= total /\ percent = prog * 100 / total
  | Undefined _ => False
  | _ => True
  end.

Definition any_line (l : log_line) : Prop := True.

(** The number of rounds that move [left] bytes in chunks of [chunk]. *)
Definition rounds (chunk left : Z) : nat :=
  Z.to_nat ((left + chunk - 1) / chunk).

(** [m] zero bytes cut into chunks of [N_ZEROS], the last one shorter: what
    the padding writes. *)
Fixpoint zero_chunks (fuel : nat) (m : Z) : list (list byte) :=
  match fuel with
  | O => []
  | S fuel' =>
      if m <=? 0 then []
      else repeat x00 (Z.to_nat (Z.min N_ZEROS m))
           :: zero_chunks fuel' (m - Z.min N_ZEROS m)
  end.

(** The bytes given to the EEPROM by the calls of a run. *)
Fixpoint eeprom_written (cs : list call) : list byte :=
  match cs with
  | [] => []
  | Eeprom_write _ data :: rest => data ++ eeprom_written rest
  | _ :: rest => eeprom_written rest
  end.

(** The line [log_eeprom_progress] prints, or the mark of the division by
    zero it runs into. *)
Definition progress_line (SIZE_BITS total rem : Z) (msg : string) : log_line :=
  if total =? 0 then Undefined "division by zero"
  else Progress msg
         (to_int (to_size SIZE_BITS (to_size SIZE_BITS (total - rem) * 100)
                  / total))
         (to_size SIZE_BITS (total - rem)).

(** The condition of the loop of [rw_file_eeprom]. *)
Definition rw_continues (left ret_ : Z) (w : world) : bool :=
  negb (left =? 0) && (ret_ =? 0) && negb (g_abort w).

(** The chunk size of a round. *)
Definition rw_size (left : Z) : Z :=
  if left >? buffer_size then buffer_size else left.


(** Worlds used to run the transfers on examples: [e] answers the calls,
    SIGINT arrives as [sig] says, the file holds [file], the EEPROM delivers
    [device]; malloc succeeds and gives blocks of zeros. *)
Definition bench (e : nat -> Z) (sig : option nat) (file device : list byte)
  : world :=
  mk_world (mk_ctx NULL NULL NULL) false [] e sig [] file [] device
           [Some []; Some []] [].

Definition job (size padding : Z) : eeprom_opt :=
  mk_eeprom_opt 0 size 0 padding 0 0.

(** Every call moves whole chunks. *)
Definition plenty (n : nat) : Z := 1000000.

(** The read of the first chunk delivers 10 bytes and its write takes 5;
    the other calls move whole chunks. *)
Definition short_counts (n : nat) : Z :=
  match n with
  | 1%nat => 10
  | 2%nat => 5
  | _ => 1000000
  end.


(** [n] bytes of content (the letter "*"), and [n] zero bytes. *)
Definition filled (n : Z) : list byte := repeat x2a (Z.to_nat n).
Definition blank (n : Z) : list byte := repeat x00 (Z.to_nat n).

(** What is left to move after [j] rounds of a transfer of [left] bytes
    whose rounds all move their chunk. *)
Definition left_after (left : Z) (j : nat) : Z :=
  Z.max 0 (left - Z.of_nat j * buffer_size).




(** The calls of [k] rounds of a transfer to the EEPROM of [left] bytes
    that each read their whole chunk from [file]. *)
Fixpoint whole_chunks (eeprom : ptr) (k : nat) (left : Z) (file : list byte)
  : list call :=
  match k with
  | O => []
  | S k' =>
      let rwsz := rw_size left in
      Fd_read rwsz
      :: Eeprom_write eeprom (firstn (Z.to_nat rwsz) file)
      :: whole_chunks eeprom k' (left - rwsz) (skipn (Z.to_nat rwsz) file)
  end.




(** ** Vocabulary for the statements about the self-test *)










(** A self-test of 4096 bytes: the random bytes are all 7, the EEPROM
    delivers them back with byte 4000 turned to zero. *)
Definition sevens (n : Z) : list Z := repeat 7 (Z.to_nat n).

Definition corrupted_at_4000 : list byte :=
  repeat x07 (Z.to_nat 4000) ++ x00 :: repeat x07 (Z.to_nat 95).

Definition world_self_test (device : list byte) : world :=
  mk_world (mk_ctx NULL NULL NULL) false [] plenty None [] [] [] device
           [Some []; Some []] (sevens 4096).



(** A line that marks undefined behaviour. *)
Definition is_undefined (l : log_line) : bool :=
  match l with
  | Undefined _ => true
  | _ => false
  end.


(** * The other commands

    The rest of [plhwtools.c]: the terminal settings, the EEPROM options, the
    generic switch utility, the command dispatcher and the commands of the
    other devices. *)

(** ** Text of printf conversions *)

(** The digit [d] in a radix up to 16, letters in upper case. *)
Definition digit_char (d : Z) : ascii :=
  if d <? 10 then ascii_of_nat (Z.to_nat (48 + d))
  else ascii_of_nat (Z.to_nat (55 + d)).

Fixpoint numeral (fuel : nat) (radix n : Z) (acc : string) : string :=
  match fuel with
  | O => acc
  | S fuel' =>
      let acc' := String (digit_char (n mod radix)) acc in
      if n / radix =? 0 then acc' else numeral fuel' radix (n / radix) acc'
  end.

(** A natural number in a radix. *)
Definition unsigned_text (radix n : Z) : string :=
  numeral (S (Z.to_nat (Z.log2 n))) radix n "".

Fixpoint spaces (c : ascii) (n : nat) : string :=
  match n with
  | O => ""
  | S n' => String c (spaces c n')
  end.

(** A field of a minimum width, filled on the left with [c]. *)
Definition pad (c : ascii) (width : nat) (s : string) : string :=
  String.append (spaces c (width - String.length s)) s.

(** [%i], [%d] of an [int] and [%lu] of an [unsigned long] *)
Definition fmt_d (z : Z) : string :=
  if z <? 0 then String "-" (unsigned_text 10 (- z)) else unsigned_text 10 z.

(** [%3i] *)
Definition fmt_3i (z : Z) : string := pad " " 3 (fmt_d z).

(** [%02X] and [%04X]: the argument is read as an [unsigned int]. *)
Definition fmt_02X (z : Z) : string :=
  pad "0" 2 (unsigned_text 16 (z mod 2 ^ INT_BITS)).
Definition fmt_04X (z : Z) : string :=
  pad "0" 4 (unsigned_text 16 (z mod 2 ^ INT_BITS)).

(** [%5s] *)
Definition fmt_5s (s : string) : string := pad " " 5 s.

(** [on ? "on" : "off"] *)
Definition on_off_text (on : Z) : string :=
  if on =? 0 then "off" else "on".

(** ** DAC *)

Section Run_dac.

Variable atoi : string -> Z.

(** static int run_dac(struct ctx *ctx, int argc, char **argv) *)
Definition run_dac (argv : list string) : M Z :=
  dac <- require_dac ;;
  if dac =? NULL then ret (-1) else
  match argv with
  | channel_str :: arg_str :: _ =>
      let channel :=
        if String.eqb channel_str "A" then Some DAC5820_CH_A
        else if String.eqb channel_str "B" then Some DAC5820_CH_B
        else None in
      match channel with
      | None => LOG "invalid channel identifier (A or B)" ;; ret (-1)
      | Some channel_id =>
          if String.eqb arg_str "on" then
            dac5820_set_power dac channel_id DAC5820_POW_ON
          else if String.eqb arg_str "off" then
            dac5820_set_power dac channel_id DAC5820_POW_OFF_FLOAT
          else if String.eqb arg_str "off1k" then
            dac5820_set_power dac channel_id DAC5820_POW_OFF_1K
          else if String.eqb arg_str "off100k" then
            dac5820_set_power dac channel_id DAC5820_POW_OFF_100K
          else
            let value := atoi arg_str in
            if (value <? 0) || (value >? 255) then
              LOG (String.append "invalid value "
                     (String.append (fmt_d value) " (valid: 0 - 255)")) ;;
              ret (-1)
            else dac5820_output dac channel_id value
      end
  | _ => LOG "invalid arguments" ;; ret (-1)
  end.

End Run_dac.

(** ** The machine: the world and the rest of the program's state *)

(** [struct termios], with the members POSIX names. *)
Record termios : Type := mk_termios {
  c_iflag : Z;
  c_oflag : Z;
  c_cflag : Z;
  c_lflag : Z;
  c_cc : list Z
}.

(** The values of [g_stdin_termios_state]. *)
Inductive termios_state : Type :=
| TERM_IN_BLANK
| TERM_IN_ERROR
| TERM_IN_SAVED
| TERM_IN_EDITED.

Inductive max17135_en_id : Type :=
| MAX17135_EN_EN
| MAX17135_EN_CEN
| MAX17135_EN_CEN2.

Inductive max17135_temp_id : Type :=
| MAX17135_TEMP_INT
| MAX17135_TEMP_EXT.

Inductive tps65185_power : Type :=
| TPS65185_ACTIVE
| TPS65185_STANDBY.

Inductive pbtn_mask : Type :=
| PBTN_7
| PBTN_9
| PBTN_ALL.

(** [struct tps65185_seq]: four strobes (of type [enum tps65185_strobe]) and
    four delays (of type [enum tps65185_delay]), kept as the integers they
    hold. *)
Record tps65185_seq : Type := mk_tps65185_seq {
  vddh : Z;
  vpos : Z;
  vee : Z;
  vneg : Z;
  strobe1 : Z;
  strobe2 : Z;
  strobe3 : Z;
  strobe4 : Z
}.

(** The library functions of these commands, with their arguments.  The I2C
    bus and address given to the functions that open a device are left out,
    as for the devices of the power sequences; [eeprom_init] keeps its
    address and mode. *)
Inductive hw_call : Type :=
| Tcgetattr
| Tcsetattr (t : termios)
| Fgetc
| Fd_open (f_name : string) (write_file : bool)
| Fd_chmod (fd mode : Z)
| Fd_close (fd : Z)
| Plconfig_get_i2c_addr (config : ptr) (key : string)
| Eeprom_init (i2c_addr : Z) (mode : string)
| Max17135_set_en (p : ptr) (id : max17135_en_id) (on : Z)
| Max17135_get_en (p : ptr) (id : max17135_en_id)
| Max17135_set_timing (p : ptr) (timing_no timing_ms : Z)
| Max17135_get_timings (p : ptr) (n : Z)
| Max17135_set_timings (p : ptr) (timings : list Z) (n : Z)
| Max17135_get_vcom (p : ptr)
| Max17135_set_vcom (p : ptr) (value : Z)
| Max17135_get_fault (p : ptr)
| Max17135_get_prod_id (p : ptr)
| Max17135_get_prod_rev (p : ptr)
| Max17135_get_temp_sensor_en (p : ptr)
| Max17135_get_temperature (p : ptr) (id : max17135_temp_id)
| Tps65185_init
| Tps65185_get_info (p : ptr)
| Tps65185_get_vcom (p : ptr)
| Tps65185_set_vcom (p : ptr) (value : Z)
| Tps65185_get_seq (p : ptr) (up : Z)
| Tps65185_set_seq (p : ptr) (seq : tps65185_seq) (up : Z)
| Tps65185_set_power (p : ptr) (mode : tps65185_power)
| Tps65185_get_en (p : ptr) (id : Z)
| Tps65185_set_en (p : ptr) (id on : Z)
| Pbtn_init
| Pbtn_set_abort_cb (p : ptr) (cb : bool)
| Pbtn_wait (p : ptr) (mask : pbtn_mask) (state : Z)
| Pbtn_wait_any (p : ptr) (mask : pbtn_mask) (state : Z).

(** The members of [struct ctx] the power sequences do not use, as far as
    these commands need them. *)
Record ctx_rest : Type := mk_ctx_rest {
  config : ptr;
  tps65185 : ptr;
  eeprom : ptr;
  pbtn : ptr
}.

Record machine : Type := mk_machine {
  base : world;                      (* the world of the power and EEPROM
                                        parts, with the log *)
  rest_ctx : ctx_rest;
  g_stdin_termios_state : termios_state;
  g_original_stdin_termios : termios;
  g_i2c_addr : Z;
  g_opt : option string;             (* NULL without the option -o *)
  hw_calls : list hw_call;           (* calls of the functions above, oldest
                                        first *)
  hw_env : nat -> Z;                 (* value returned by the n-th of them *)
  hw_data : nat -> list Z;           (* what the n-th of them stores through
                                        its pointer arguments *)
  stdout : list string;              (* what was printed on stdout *)
  failed_assert : list string        (* assertions that did not hold *)
}.

Definition set_base (w : world) (s : machine) : machine :=
  mk_machine w (rest_ctx s) (g_stdin_termios_state s)
             (g_original_stdin_termios s) (g_i2c_addr s) (g_opt s)
             (hw_calls s) (hw_env s) (hw_data s) (stdout s) (failed_assert s).
Definition set_rest_ctx (c : ctx_rest) (s : machine) : machine :=
  mk_machine (base s) c (g_stdin_termios_state s)
             (g_original_stdin_termios s) (g_i2c_addr s) (g_opt s)
             (hw_calls s) (hw_env s) (hw_data s) (stdout s) (failed_assert s).
Definition set_termios_state (t : termios_state) (s : machine) : machine :=
  mk_machine (base s) (rest_ctx s) t
             (g_original_stdin_termios s) (g_i2c_addr s) (g_opt s)
             (hw_calls s) (hw_env s) (hw_data s) (stdout s) (failed_assert s).
Definition set_original_termios (t : termios) (s : machine) : machine :=
  mk_machine (base s) (rest_ctx s) (g_stdin_termios_state s)
             t (g_i2c_addr s) (g_opt s)
             (hw_calls s) (hw_env s) (hw_data s) (stdout s) (failed_assert s).
Definition add_hw_call (c : hw_call) (s : machine) : machine :=
  mk_machine (base s) (rest_ctx s) (g_stdin_termios_state s)
             (g_original_stdin_termios s) (g_i2c_addr s) (g_opt s)
             (hw_calls s ++ [c]) (hw_env s) (hw_data s) (stdout s)
             (failed_assert s).
Definition add_stdout (text : string) (s : machine) : machine :=
  mk_machine (base s) (rest_ctx s) (g_stdin_termios_state s)
             (g_original_stdin_termios s) (g_i2c_addr s) (g_opt s)
             (hw_calls s) (hw_env s) (hw_data s) (stdout s ++ [text])
             (failed_assert s).
Definition add_failed_assert (text : string) (s : machine) : machine :=
  mk_machine (base s) (rest_ctx s) (g_stdin_termios_state s)
             (g_original_stdin_termios s) (g_i2c_addr s) (g_opt s)
             (hw_calls s) (hw_env s) (hw_data s) (stdout s)
             (failed_assert s ++ [text]).

(** The monad of these commands: a function of the machine. *)
Definition P (A : Type) : Type := machine -> A * machine.

Definition pret {A : Type} (a : A) : P A := fun s => (a, s).

Definition pbind {A B : Type} (m : P A) (f : A -> P B) : P B :=
  fun s => let p := m s in f (fst p) (snd p).

Declare Scope cmd_scope.
Delimit Scope cmd_scope with cmd.

Notation "x <- m ;; k" := (pbind m (fun x => k))
  (at level 61, m at next level, right associativity) : cmd_scope.
Notation "m ;; k" := (pbind m (fun _ => k))
  (at level 61, right associativity) : cmd_scope.

(** Code of the power and EEPROM parts, run on the world of the machine. *)
Definition lift {A : Type} (m : M A) : P A :=
  fun s => let p := m (base s) in (fst p, set_base (snd p) s).

(** [LOG] with a formatted message. *)
Definition PLOG (text : string) : P unit := lift (LOG text).

(** A library call: recorded, answered by the environment. *)
Definition hw (c : hw_call) : P Z :=
  fun s => (hw_env s (List.length (hw_calls s)), add_hw_call c s).

(** A library call that also stores values through pointers. *)
Definition hw_out (c : hw_call) : P (Z * list Z) :=
  fun s => ((hw_env s (List.length (hw_calls s)),
             hw_data s (List.length (hw_calls s))),
            add_hw_call c s).

(** [printf] with the text it prints. *)
Definition printf (text : string) : P unit :=
  fun s => (tt, add_stdout text s).

(** [assert] of a condition that does not hold.  With assertions compiled
    in, the process ends there; the failure is recorded and the code goes
    on as it does without them. *)
Definition assert_failed (text : string) : P unit :=
  fun s => (tt, add_failed_assert text s).

Definition get_rest_ctx : P ctx_rest := fun s => (rest_ctx s, s).
Definition put_rest_ctx (c : ctx_rest) : P unit :=
  fun s => (tt, set_rest_ctx c s).

Local Open Scope cmd_scope.

(** ** The settings of the terminal *)

Definition termios_state_eqb (a b : termios_state) : bool :=
  match a, b with
  | TERM_IN_BLANK, TERM_IN_BLANK => true
  | TERM_IN_ERROR, TERM_IN_ERROR => true
  | TERM_IN_SAVED, TERM_IN_SAVED => true
  | TERM_IN_EDITED, TERM_IN_EDITED => true
  | _, _ => false
  end.

(** The [struct termios] a call of [tcgetattr] stores. *)
Definition termios_of (data : list Z) : termios :=
  mk_termios (nth 0 data 0) (nth 1 data 0) (nth 2 data 0) (nth 3 data 0)
             (skipn 4 data).

(** [tcgetattr(STDIN_FILENO, &t)]: the value returned and the settings
    stored in [t]. *)
Definition tcgetattr : P (Z * termios) :=
  r <- hw_out Tcgetattr ;;
  pret (fst r, termios_of (snd r)).

(** [tcsetattr(STDIN_FILENO, TCSANOW, &t)] *)
Definition tcsetattr (t : termios) : P Z := hw (Tcsetattr t).

Definition get_termios_state : P termios_state :=
  fun s => (g_stdin_termios_state s, s).
Definition put_termios_state (t : termios_state) : P unit :=
  fun s => (tt, set_termios_state t s).

(** static int save_stdin_termios(void).  [tcgetattr] is taken to leave
    [g_original_stdin_termios] alone when it fails. *)
Definition save_stdin_termios : P Z :=
  st <- get_termios_state ;;
  if negb (termios_state_eqb st TERM_IN_BLANK) then pret (-1)
  else
    r <- tcgetattr ;;
    if fst r <? 0 then pret (-1)
    else
      (fun s => (tt, set_original_termios (snd r) s)) ;;
      put_termios_state TERM_IN_SAVED ;;
      pret 0.

(** static int restore_stdin_termios(void).  The assertion holds in each of
    the four states. *)
Definition restore_stdin_termios : P Z :=
  st <- get_termios_state ;;
  if termios_state_eqb st TERM_IN_BLANK || termios_state_eqb st TERM_IN_SAVED
  then pret 0
  else
    original <- (fun s => (g_original_stdin_termios s, s)) ;;
    r <- tcsetattr original ;;
    if r <? 0 then pret (-1)
    else
      put_termios_state TERM_IN_SAVED ;;
      pret 0.

Section Stdin_buffering.

(** The flags [ICANON] and [ECHO] of termios.h. *)
Variables ICANON ECHO : Z.

(** [stdin_termios.c_lflag &= ~(ICANON | ECHO)] *)
Definition unbuffered (t : termios) : termios :=
  mk_termios (c_iflag t) (c_oflag t) (c_cflag t)
             (Z.land (c_lflag t) (Z.lnot (Z.lor ICANON ECHO)))
             (c_cc t).

(** static int disable_stdin_buffering(void) *)
Definition disable_stdin_buffering : P Z :=
  st <- get_termios_state ;;
  if termios_state_eqb st TERM_IN_BLANK || termios_state_eqb st TERM_IN_ERROR
  then pret (-1)
  else
    r <- tcgetattr ;;
    if fst r <? 0 then pret (-1)
    else
      let stdin_termios := unbuffered (snd r) in
      r <- tcsetattr stdin_termios ;;
      if r <? 0 then
        put_termios_state TERM_IN_ERROR ;;
        pret (-1)
      else
        put_termios_state TERM_IN_EDITED ;;
        pret 0.

(** Runs of the three functions, in any order. *)
Inductive termios_op : Type :=
| Op_save
| Op_disable
| Op_restore.

Definition run_termios_op (op : termios_op) : P Z :=
  match op with
  | Op_save => save_stdin_termios
  | Op_disable => disable_stdin_buffering
  | Op_restore => restore_stdin_termios
  end.

Fixpoint run_termios_ops (ops : list termios_op) (s : machine) : machine :=
  match ops with
  | [] => s
  | op :: more => run_termios_ops more (snd (run_termios_op op s))
  end.

End Stdin_buffering.

(** ** The generic switch utility *)

(** [struct switch_id] *)
Record switch_id : Type := mk_switch_id {
  sw_name : option string;           (* const char *name *)
  sw_id : Z                          (* int id *)
}.

(** The loop [for (sw = switches; sw->name != NULL; ++sw) if (!strcmp(...))
    break;]: the entry [sw] points at when it ends; [None] when the table
    has no terminating entry and the loop leaves the array. *)
Fixpoint switch_scan (name : string) (switches : list switch_id)
  : option switch_id :=
  match switches with
  | [] => None
  | sw :: more =>
      match sw_name sw with
      | None => Some sw
      | Some n => if String.eqb n name then Some sw
                  else switch_scan name more
      end
  end.

(** static int switch_on_off(const struct switch_id *switches, void *ctx,
                             const char *sw_name, const char *on_off,
                             get_sw, set_sw), the last two being pointers to
    the functions that read and set a switch of the device [ctx]. *)
Definition switch_on_off (switches : list switch_id) (ctx : ptr)
           (name : string) (on_off : option string)
           (get_sw : ptr -> Z -> P Z) (set_sw : ptr -> Z -> Z -> P Z) : P Z :=
  match switch_scan name switches with
  | None =>
      lift (emit (Undefined "read past the end of switches")) ;; pret (-1)
  | Some sw =>
      match sw_name sw with
      | None => pret (-1)
      | Some found =>
          match on_off with
          | None =>
              on <- get_sw ctx (sw_id sw) ;;
              if on <? 0 then pret on
              else
                PLOG (String.append found
                        (String.append ": " (on_off_text on))) ;;
                pret 0
          | Some text =>
              let on := get_on_off_opt text in
              if on <? 0 then
                PLOG (String.append "invalid value: "
                        (String.append text ", expected [on off]")) ;;
                pret on
              else set_sw ctx (sw_id sw) on
          end
      end
  end.

(** ** The command dispatcher *)

(** [struct command] *)
Record command : Type := mk_command {
  cmd : option string;
  help : option string;
  run : option (list string -> P Z)
}.

Definition APP_NAME : string := "plhwtools".

(** The text of the usage message, with the program's name in the place of
    the conversion. *)
Definition usage : string :=
  String.append "Usage: " (String.append APP_NAME
  " <OPTIONS> <COMMAND_NAME> <COMMAND_ARGUMENTS>\n\nCOMMAND_NAME:\n    The following commands can be used (arguments are detailed separately):\n\n    cpld       Control Plasstic Logic CPLD over I2C register interface\n    max17135   Control MAX17135 HV PMIC (timings, switches)\n    dac        Control DAC power and register value\n    adc        Read ADC values\n    pbtn       Push button test procedure using I2C GPIO expander\n    eeprom     Read/write/test display EEPROM\n    power      Run full power on/off sequence using multiple devices\n\nOPTIONS:\n  -h [COMMAND]\n    Show this help message and exit.  If COMMAND is provided, only show the\n    help message for the given command.\n\n  -v\n    Show the version, copyright and license information and exit.\n\n  -b I2C_BUS_DEVICE\n    Specify the I2C bus device to be used, typically /dev/i2c-X where X is\n    the I2C bus number.\n\n  -a I2C_ADDRESS\n    Specify the I2C address of the device to be used with the command.\n    This only applies to commands that use a single I2C device.\n\n  -o COMMAND_OPTIONS\n    Optional argument string which can be used by the command.  Please see\n    each command help for more details.\n\n").

(** The first loop of [print_help]: the entry called [help_cmd], [Some None]
    when the terminating entry is reached without one, [None] when the
    table has no terminating entry and the loop leaves the array. *)
Fixpoint help_scan (help_cmd : string) (commands : list command)
  : option (option command) :=
  match commands with
  | [] => None
  | c :: more =>
      match cmd c with
      | None => Some None
      | Some n => if String.eqb n help_cmd then Some (Some c)
                  else help_scan help_cmd more
      end
  end.

(** [printf("Command: %s\n%s" tail, cmd->cmd, cmd->help)] *)
Definition print_command (n : string) (c : command) (tail : string)
  : P unit :=
  match help c with
  | Some h =>
      printf (String.append "Command: "
                (String.append n
                   (String.append "\n" (String.append h tail))))
  | None => lift (emit (Undefined "printf of NULL"))
  end.

(** The last loop of [print_help]: one text per command. *)
Fixpoint help_all (commands : list command) : P unit :=
  match commands with
  | [] => lift (emit (Undefined "read past the end of commands"))
  | c :: more =>
      match cmd c with
      | None => pret tt
      | Some n => print_command n c "\n" ;; help_all more
      end
  end.

(** static void print_help(const struct command *commands,
                           const char *help_cmd) *)
Definition print_help (commands : list command) (help_cmd : option string)
  : P unit :=
  let found :=
    match help_cmd with
    | Some h => help_scan h commands
    | None => Some None
    end in
  match found with
  | None => lift (emit (Undefined "read past the end of commands"))
  | Some (Some c) =>
      match cmd c with
      | Some n => print_command n c ""
      | None => pret tt
      end
  | Some None =>
      printf usage ;;
      help_all commands
  end.

(** The loop of [run_cmd]: the entry [cmd] points at when it ends. *)
Fixpoint cmd_scan (cmd_str : string) (commands : list command)
  : option command :=
  match commands with
  | [] => None
  | c :: more =>
      match cmd c with
      | None => Some c
      | Some n => if String.eqb n cmd_str then Some c
                  else cmd_scan cmd_str more
      end
  end.

(** static int run_cmd(struct ctx *ctx, const struct command *commands,
                       int argc, char **argv) *)
Definition run_cmd (commands : list command) (argv : list string) : P Z :=
  match argv with
  | [] => lift (emit (Undefined "argv[0] is NULL")) ;; pret (-1)
  | cmd_str :: cmd_argv =>
      match cmd_scan cmd_str commands with
      | None =>
          lift (emit (Undefined "read past the end of commands")) ;;
          pret (-1)
      | Some c =>
          match cmd c with
          | None =>
              PLOG "invalid arguments" ;;
              print_help commands None ;;
              pret (-1)
          | Some _ =>
              ret_ <- match run c with
                      | Some f => f cmd_argv
                      | None =>
                          lift (emit (Undefined "call through NULL")) ;;
                          pret (-1)
                      end ;;
              (if ret_ <? 0 then PLOG "command failed" else pret tt) ;;
              pret ret_
          end
      end
  end.

(** ** Push buttons *)

(** static int pbtn_abort_cb(void) *)
Definition pbtn_abort_cb : P Z :=
  fun s => (if g_abort (base s) then -1 else 0, s).

(** static int run_pbtn(struct ctx *ctx, int argc, char **argv).  The
    callback is given to the library, which calls it while it waits; what
    the waits return is the environment's answer. *)
Definition run_pbtn : P Z :=
  c <- get_rest_ctx ;;
  (if pbtn c =? NULL then
     p <- hw Pbtn_init ;;
     c <- get_rest_ctx ;;
     put_rest_ctx (mk_ctx_rest (config c) (tps65185 c) (eeprom c) p)
   else pret tt) ;;
  c <- get_rest_ctx ;;
  if pbtn c =? NULL then pret (-1)
  else
    let p := pbtn c in
    hw (Pbtn_set_abort_cb p true) ;;
    PLOG "Type Ctrl-C to abort" ;;
    PLOG "waiting for button #7 on" ;;
    btn <- hw (Pbtn_wait p PBTN_7 1) ;;
    PLOG (String.append "result: " (fmt_d btn)) ;;
    let ret_ := if btn <? 0 then -1 else 0 in
    PLOG "waiting for button #7 off" ;;
    btn <- hw (Pbtn_wait p PBTN_7 0) ;;
    PLOG (String.append "result: " (fmt_d btn)) ;;
    let ret_ := if btn <? 0 then -1 else ret_ in
    PLOG "waiting for button #9 on" ;;
    btn <- hw (Pbtn_wait p PBTN_9 1) ;;
    PLOG (String.append "result: " (fmt_d btn)) ;;
    let ret_ := if btn <? 0 then -1 else ret_ in
    PLOG "please release all buttons now" ;;
    btn <- hw (Pbtn_wait p PBTN_ALL 0) ;;
    PLOG "thanks" ;;
    let ret_ := if btn <? 0 then -1 else ret_ in
    PLOG "waiting for any button on" ;;
    btn <- hw (Pbtn_wait_any p PBTN_ALL 1) ;;
    PLOG (String.append "result: 0x" (fmt_02X btn)) ;;
    let ret_ := if btn <? 0 then -1 else ret_ in
    hw (Pbtn_set_abort_cb p false) ;;
    pret ret_.

Close Scope cmd_scope.

(** ** The options of the EEPROM command *)

Local Open Scope cmd_scope.

(** [c] is one of the characters of [delim]. *)
Fixpoint is_delim (c : ascii) (delim : string) : bool :=
  match delim with
  | EmptyString => false
  | String d more => Ascii.eqb c d || is_delim c more
  end.

(** The token at the start of [s], up to the first delimiter, and what
    follows that delimiter; [None] when the token ends the string. *)
Fixpoint strsep_cut (s delim : string) : string * option string :=
  match s with
  | EmptyString => (EmptyString, None)
  | String c more =>
      if is_delim c delim then (EmptyString, Some more)
      else
        let r := strsep_cut more delim in
        (String c (fst r), snd r)
  end.

(** [strsep(&stringp, delim)] of the C library: the token returned and the
    new value of [stringp]; [None] is NULL. *)
Definition strsep (stringp : option string) (delim : string)
  : option string * option string :=
  match stringp with
  | None => (None, None)
  | Some s =>
      let r := strsep_cut s delim in
      (Some (fst r), snd r)
  end.

Definition with_i2c_addr (v : Z) (o : eeprom_opt) : eeprom_opt :=
  mk_eeprom_opt v (data_size o) (skip o) (zero_padding o) (block_size o)
                (page_size o).
Definition with_data_size (v : Z) (o : eeprom_opt) : eeprom_opt :=
  mk_eeprom_opt (i2c_addr o) v (skip o) (zero_padding o) (block_size o)
                (page_size o).
Definition with_skip (v : Z) (o : eeprom_opt) : eeprom_opt :=
  mk_eeprom_opt (i2c_addr o) (data_size o) v (zero_padding o) (block_size o)
                (page_size o).
Definition with_zero_padding (v : Z) (o : eeprom_opt) : eeprom_opt :=
  mk_eeprom_opt (i2c_addr o) (data_size o) (skip o) v (block_size o)
                (page_size o).
Definition with_block_size (v : Z) (o : eeprom_opt) : eeprom_opt :=
  mk_eeprom_opt (i2c_addr o) (data_size o) (skip o) (zero_padding o) v
                (page_size o).
Definition with_page_size (v : Z) (o : eeprom_opt) : eeprom_opt :=
  mk_eeprom_opt (i2c_addr o) (data_size o) (skip o) (zero_padding o)
                (block_size o) v.

Section Eeprom_options.

(** The width of [size_t] in bits. *)
Variable SIZE_BITS : Z.

(** [errno = 0; strtoul(text, NULL, 10)] of the C library: the value
    returned and the value of [errno] afterwards. *)
Variable strtoul : string -> Z * Z.

(** The constant of libplhw.h for an address that is not given. *)
Variable PLHW_NO_I2C_ADDR : Z.

(** [plconfig_get_i2c_addr(ctx->config, str_value, PLHW_NO_I2C_ADDR)] *)
Definition plconfig_get_i2c_addr (key : string) : P Z :=
  c <- get_rest_ctx ;;
  hw (Plconfig_get_i2c_addr (config c) key).

(** The body of the loop of [parse_eeprom_opt] from the value on, for the
    option called [key]; [opt] is what [strsep] has left of the option
    after the key.  The value of [ret] (0 to go on with the next option, -1
    to leave through [exit_now]) and the options as they are then. *)
Definition eeprom_option (key : string) (opt : option string)
           (eopt : eeprom_opt) : P (Z * eeprom_opt) :=
  let v := strsep opt "=" in
  let str_value := fst v in
  let ul_value :=
    match str_value with
    | Some text => fst (strtoul text)
    | None => 0
    end in
  let is_int :=
    match str_value with
    | Some text => snd (strtoul text) =? 0
    | None => false
    end in
  if String.eqb key "i2c_block_size" then
    if negb is_int then
      PLOG "no or invalid I2C block size" ;; pret (-1, eopt)
    else
      PLOG (String.append "I2C block size: " (fmt_d ul_value)) ;;
      pret (0, with_block_size ul_value eopt)
  else if String.eqb key "page_size" then
    if negb is_int then
      PLOG "no or invalid EEPROM page size" ;; pret (-1, eopt)
    else
      PLOG (String.append "EEPROM page size: " (fmt_d ul_value)) ;;
      pret (0, with_page_size ul_value eopt)
  else if String.eqb key "zero_padding" then
    PLOG "zero-padding enabled" ;;
    pret (0, with_zero_padding 1 eopt)
  else if String.eqb key "data_size" then
    if negb is_int then
      PLOG "no or invalid data size" ;; pret (-1, eopt)
    else
      PLOG (String.append "data size: " (fmt_d ul_value)) ;;
      pret (0, with_data_size (to_size SIZE_BITS ul_value) eopt)
  else if String.eqb key "skip" then
    if negb is_int then
      PLOG "no or invalid skip size specified" ;; pret (-1, eopt)
    else
      PLOG (String.append "skip: " (fmt_d ul_value)) ;;
      pret (0, with_skip (to_size SIZE_BITS ul_value) eopt)
  else if String.eqb key "addr" then
    match str_value with
    | None =>
        PLOG "no I2C address configuration specified" ;;
        pret (-1, eopt)
    | Some text =>
        a <- plconfig_get_i2c_addr text ;;
        (if negb (a =? PLHW_NO_I2C_ADDR) then
           PLOG (String.append "I2C address ("
                   (String.append text
                      (String.append "): 0x" (fmt_02X a))))
         else
           PLOG (String.append "failed to find I2C address in config: "
                               text)) ;;
        pret (0, with_i2c_addr a eopt)
    end
  else
    PLOG (String.append "invalid option name: " key) ;;
    pret (-1, eopt).

(** [free(opt_str)] at [exit_now], [opt_str] being what [strsep] has left
    of the text.  It is NULL once the last option has been taken, and
    [free(NULL)] does nothing; otherwise it points into the block after a
    separator, not at the block [malloc] returned, and freeing it is
    undefined. *)
Definition free_opt_str (opt_str : option string) : P unit :=
  match opt_str with
  | None => pret tt
  | Some _ => lift (emit (Undefined "free of a pointer inside the block"))
  end.

(** The loop [while ((opt = strsep(&opt_str, sep)) != NULL)] followed by
    [exit_now].  Each round takes a token off [opt_str], so the loop ends
    within as many rounds as the text has characters, and one; [fuel]
    bounds the rounds. *)
Fixpoint parse_loop (fuel : nat) (opt_str : option string)
         (eopt : eeprom_opt) : P (Z * eeprom_opt) :=
  let t := strsep opt_str ", " in
  match fst t with
  | None => free_opt_str (snd t) ;; pret (0, eopt)
  | Some opt =>
      match fuel with
      | O => lift (emit (Undefined "loop bound")) ;; pret (-1, eopt)
      | S fuel' =>
          let k := strsep (Some opt) "=" in
          match fst k with
          | None => PLOG "invalid EEPROM option" ;; pret (-1, eopt)
          | Some key =>
              r <- eeprom_option key (snd k) eopt ;;
              if fst r =? 0 then parse_loop fuel' (snd t) (snd r)
              else free_opt_str (snd t) ;; pret r
          end
      end
  end.

(** static int parse_eeprom_opt(struct ctx *ctx, struct eeprom_opt *eopt):
    the value returned and the options stored in [eopt]. *)
Definition parse_eeprom_opt (eopt : eeprom_opt) : P (Z * eeprom_opt) :=
  g <- (fun s => (g_opt s, s)) ;;
  match g with
  | None => lift (emit (Undefined "strlen(NULL)")) ;; pret (-1, eopt)
  | Some text =>
      let opt_size := Z.of_nat (String.length text) + 1 in
      opt_str <- lift (malloc opt_size) ;;
      match opt_str with
      | None =>
          assert_failed "opt_str != NULL" ;;
          lift (emit (Undefined "memcpy to NULL")) ;;
          pret (-1, eopt)
      | Some _ => parse_loop (S (String.length text)) (Some text) eopt
      end
  end.

Section Stdin.

Variables ICANON ECHO : Z.

(** The part of [run_eeprom] for full_rw, from the question on. *)
Definition ask_full_rw (eeprom : ptr) (opt : eeprom_opt) : P Z :=
  d <- disable_stdin_buffering ICANON ECHO ;;
  (if d <? 0 then PLOG "Warning: failed to disable input buffering"
   else pret tt) ;;
  lift (LOG_PRINT
          "Warning: this will overwrite the EEPROM data.\nContinue ? [N/y] ") ;;
  c <- hw Fgetc ;;
  printf "\n" ;;
  r <- restore_stdin_termios ;;
  (if r <? 0 then PLOG "Warning: failed to restore input buffering"
   else pret tt) ;;
  if to_char c =? 121 then lift (full_rw_eeprom eeprom opt)
  else
    lift (LOG_PRINT "aborted\n") ;;
    pret (-1).

(** The part of [run_eeprom] for e2f and f2e, from the choice of the file
    on; [more] is what follows [argv[1]].  The transfer uses the file of the
    world. *)
Definition transfer_file (eeprom : ptr) (opt : eeprom_opt)
           (write_file : bool) (more : list string) : P Z :=
  match more with
  | [] => lift (rw_file_eeprom SIZE_BITS eeprom write_file opt)
  | f_name :: _ =>
      fd <- hw (Fd_open f_name write_file) ;;
      if fd <? 0 then
        PLOG (String.append "failed to open the file ("
                            (String.append f_name ")")) ;;
        pret (-1)
      else
        ret_ <- lift (rw_file_eeprom SIZE_BITS eeprom write_file opt) ;;
        (if write_file then
           m <- hw (Fd_chmod fd 292) ;;
           if m <? 0 then PLOG "Warning: chmod failed" else pret tt
         else pret tt) ;;
        hw (Fd_close fd) ;;
        pret ret_
  end.

(** static int run_eeprom(struct ctx *ctx, int argc, char **argv), whole:
    with the options, the handle, the terminal and the file ([run_eeprom]
    above is its middle part). *)
Definition run_eeprom_cmd (argv : list string) : P Z :=
  match argv with
  | eeprom_mode :: cmd_str :: more =>
      let eeprom_opt := mk_eeprom_opt PLHW_NO_I2C_ADDR 0 0 0 0 0 in
      g <- (fun s => (g_opt s, s)) ;;
      parsed <- match g with
                | Some _ => parse_eeprom_opt eeprom_opt
                | None => pret (0, eeprom_opt)
                end ;;
      if negb (fst parsed =? 0) then pret (-1)
      else
        let eeprom_opt := snd parsed in
        g_addr <- (fun s => (g_i2c_addr s, s)) ;;
        let addr :=
          if negb (i2c_addr eeprom_opt =? PLHW_NO_I2C_ADDR)
          then i2c_addr eeprom_opt else g_addr in
        c <- get_rest_ctx ;;
        (if eeprom c =? NULL then
           p <- hw (Eeprom_init addr eeprom_mode) ;;
           c <- get_rest_ctx ;;
           put_rest_ctx (mk_ctx_rest (config c) (tps65185 c) p (pbtn c))
         else pret tt) ;;
        c <- get_rest_ctx ;;
        if eeprom c =? NULL then pret (-1)
        else
          let eeprom := eeprom c in
          esize <- lift (eeprom_get_size SIZE_BITS eeprom) ;;
          let sized :=
            if data_size eeprom_opt =? 0
            then Some (with_data_size esize eeprom_opt)
            else if data_size eeprom_opt >? esize then None
            else Some eeprom_opt in
          match sized with
          | None => PLOG "data size bigger than EEPROM size" ;; pret (-1)
          | Some eeprom_opt =>
              (if negb (block_size eeprom_opt =? 0)
               then lift (eeprom_set_block_size eeprom
                                                (block_size eeprom_opt))
               else pret tt) ;;
              (if negb (page_size eeprom_opt =? 0)
               then lift (eeprom_set_page_size eeprom (page_size eeprom_opt))
               else pret tt) ;;
              if String.eqb cmd_str "full_rw" then
                ask_full_rw eeprom eeprom_opt
              else if String.eqb cmd_str "e2f" then
                transfer_file eeprom eeprom_opt true more
              else if String.eqb cmd_str "f2e" then
                transfer_file eeprom eeprom_opt false more
              else
                PLOG "invalid arguments" ;;
                pret (-1)
          end
  | _ => PLOG "invalid arguments" ;; pret (-1)
  end.

End Stdin.

End Eeprom_options.

Close Scope cmd_scope.

(** ** TPS65185 *)

Local Open Scope cmd_scope.

(** static struct tps65185 *require_tps65185(struct ctx *ctx) *)
Definition require_tps65185 : P ptr :=
  c <- get_rest_ctx ;;
  (if tps65185 c =? NULL then
     p <- hw Tps65185_init ;;
     c <- get_rest_ctx ;;
     put_rest_ctx (mk_ctx_rest (config c) p (eeprom c) (pbtn c))
   else pret tt) ;;
  c <- get_rest_ctx ;;
  pret (tps65185 c).

(** static const char *tps65185_en_id_str[6] *)
Definition tps65185_en_id_str : list string :=
  [ "vgneg"; "vee"; "vpos"; "vddh"; "vcom"; "v3p3" ].

(** The [struct tps65185_seq] a call of [tps65185_get_seq] stores, and the
    values that make it store a given one. *)
Definition seq_of_data (data : list Z) : tps65185_seq :=
  mk_tps65185_seq (nth 0 data 0) (nth 1 data 0) (nth 2 data 0) (nth 3 data 0)
                  (nth 4 data 0) (nth 5 data 0) (nth 6 data 0) (nth 7 data 0).

Definition data_of_seq (seq : tps65185_seq) : list Z :=
  [ vddh seq; vpos seq; vee seq; vneg seq;
    strobe1 seq; strobe2 seq; strobe3 seq; strobe4 seq ].

(** The loop [for (id = 0; id < 6; ++id) if (!strcmp(en_str, names[id]))
    break;] from [id] on, [names] being the entries not yet looked at: the
    value of [id] when it ends. *)
Fixpoint en_scan (en_str : string) (names : list string) (id : Z) : Z :=
  match names with
  | [] => id
  | n :: more =>
      if String.eqb en_str n then id else en_scan en_str more (id + 1)
  end.

Section Tps65185.

Variable atoi : string -> Z.

(** The enumerators of [enum tps65185_strobe] (libplhw.h). *)
Variables TPS65185_STROBE1 TPS65185_STROBE2 : Z.
Variables TPS65185_STROBE3 TPS65185_STROBE4 : Z.

(** static void dump_tps65185_seq_item(const char *name,
                                       enum tps65185_strobe strobe,
                                       const struct tps65185_seq *seq) *)
Definition dump_tps65185_seq_item (name : string) (strobe : Z)
           (seq : tps65185_seq) : P unit :=
  let delay :=
    if strobe =? TPS65185_STROBE1 then Some (strobe1 seq)
    else if strobe =? TPS65185_STROBE2 then Some (strobe2 seq)
    else if strobe =? TPS65185_STROBE3 then Some (strobe3 seq)
    else if strobe =? TPS65185_STROBE4 then Some (strobe4 seq)
    else None in
  match delay with
  | None => assert_failed "invalid strobe identifier"
  | Some delay =>
      PLOG (String.append (fmt_5s name)
              (String.append ": STROBE"
                 (String.append (fmt_d (strobe + 1))
                    (String.append " ("
                       (String.append (fmt_d ((delay + 1) * 3)) " ms)")))))
  end.

(** The four calls of [dump_tps65185_seq_item] for a sequence. *)
Definition dump_tps65185_seq (seq : tps65185_seq) : P unit :=
  dump_tps65185_seq_item "VDDH" (vddh seq) seq ;;
  dump_tps65185_seq_item "VPOS" (vpos seq) seq ;;
  dump_tps65185_seq_item "VEE" (vee seq) seq ;;
  dump_tps65185_seq_item "VNEG" (vneg seq) seq.

(** The loop over the four strobe arguments: the values stored, [None] after
    an invalid one, and the position of [it]. *)
Fixpoint strobes_loop (n : nat) (it : list string)
  : P (option (list Z) * list string) :=
  match n with
  | O => pret (Some [], it)
  | S n' =>
      match it with
      | [] =>
          lift (emit (Undefined "read past the end of argv")) ;;
          pret (None, [])
      | arg :: it' =>
          let value := atoi arg in
          if (value <? 1) || (value >? 4) then
            PLOG (String.append "invalid strobe value: "
                    (String.append (fmt_d value) " (1-4)")) ;;
            pret (None, it')
          else
            r <- strobes_loop n' it' ;;
            pret (option_map (cons (value - 1)) (fst r), snd r)
      end
  end.

(** The loop over the four delay arguments. *)
Fixpoint delays_loop (n : nat) (it : list string)
  : P (option (list Z) * list string) :=
  match n with
  | O => pret (Some [], it)
  | S n' =>
      match it with
      | [] =>
          lift (emit (Undefined "read past the end of argv")) ;;
          pret (None, [])
      | arg :: it' =>
          let value := atoi arg in
          if (value <? 3) || (value >? 12) || negb (Z.rem value 3 =? 0) then
            PLOG (String.append "invalid strobe delay value: "
                                (fmt_d value)) ;;
            pret (None, it')
          else
            r <- delays_loop n' it' ;;
            pret (option_map (cons (Z.quot value 3 - 1)) (fst r), snd r)
      end
  end.

(** static int run_tps65185_seq(struct tps65185 *p, int argc, char **argv) *)
Definition run_tps65185_seq (p : ptr) (argv : list string) : P Z :=
  match argv with
  | [] => PLOG "invalid arguments" ;; pret (-1)
  | up_down_str :: it =>
      let up :=
        if String.eqb up_down_str "up" then Some 1
        else if String.eqb up_down_str "down" then Some 0
        else None in
      match up with
      | None => PLOG "invalid up/down identifier" ;; pret (-1)
      | Some up =>
          match it with
          | [] =>
              r <- hw_out (Tps65185_get_seq p up) ;;
              if negb (fst r =? 0) then pret (-1)
              else
                dump_tps65185_seq (seq_of_data (snd r)) ;;
                pret 0
          | _ =>
              if negb (Z.of_nat (List.length argv) =? 9) then
                PLOG "invalid sequence arguments" ;; pret (-1)
              else
                s <- strobes_loop 4 it ;;
                match fst s with
                | None => pret (-1)
                | Some strobes =>
                    d <- delays_loop 4 (snd s) ;;
                    match fst d with
                    | None => pret (-1)
                    | Some delays =>
                        hw (Tps65185_set_seq p
                              (seq_of_data (strobes ++ delays)) up)
                    end
                end
          end
      end
  end.

(** static int run_tps65185_vcom(struct tps65185 *p, int argc, char **argv);
    the value read is a [uint16_t]. *)
Definition run_tps65185_vcom (p : ptr) (argv : list string) : P Z :=
  match argv with
  | [] =>
      r <- hw_out (Tps65185_get_vcom p) ;;
      if negb (fst r =? 0) then pret (-1)
      else
        printf (String.append (fmt_d (nth 0 (snd r) 0 mod 2 ^ 16)) "\n") ;;
        pret 0
  | arg :: _ =>
      let vcom_raw := atoi arg in
      if (vcom_raw <? 0) || (vcom_raw >? 511) then
        PLOG (String.append "invalid VCOM value "
                (String.append (fmt_d vcom_raw) " (value: 0 - 511)")) ;;
        pret (-1)
      else
        PLOG (String.append "setting VCOM to "
                (String.append (fmt_d vcom_raw)
                   (String.append " (0x"
                      (String.append (fmt_04X vcom_raw) ")")))) ;;
        hw (Tps65185_set_vcom p (vcom_raw mod 2 ^ 16))
  end.

(** static int run_tps65185_en(struct tps65185 *p, int argc, char **argv) *)
Definition run_tps65185_en (p : ptr) (argv : list string) : P Z :=
  match argv with
  | [] => PLOG "no power rail identifier provided" ;; pret (-1)
  | en_str :: more =>
      let id := en_scan en_str tps65185_en_id_str 0 in
      if id =? 6 then
        PLOG (String.append "invalid power rail identifier: " en_str) ;;
        pret (-1)
      else
        match more with
        | [] =>
            on <- hw (Tps65185_get_en p id) ;;
            if on <? 0 then pret (-1)
            else
              PLOG (String.append en_str
                      (String.append ": " (on_off_text on))) ;;
              pret 0
        | arg :: _ =>
            let on := get_on_off_opt arg in
            if on <? 0 then pret (-1)
            else hw (Tps65185_set_en p id on)
        end
  end.

(** The loop over the six power rails of [dump_tps65185_state], from [en_id]
    on. *)
Fixpoint dump_tps65185_en (names : list string) (p : ptr) (en_id : Z)
  : P Z :=
  match names with
  | [] => pret 0
  | n :: more =>
      en <- hw (Tps65185_get_en p en_id) ;;
      if en <? 0 then pret (-1)
      else
        PLOG (String.append n (String.append ": " (on_off_text en))) ;;
        dump_tps65185_en more p (en_id + 1)
  end.

(** static int dump_tps65185_state(struct tps65185 *p).  The value returned
    by [tps65185_get_info] is not looked at. *)
Definition dump_tps65185_state (p : ptr) : P Z :=
  info <- hw_out (Tps65185_get_info p) ;;
  PLOG (String.append "version: "
          (String.append (fmt_d (nth 0 (snd info) 0))
             (String.append "."
                (String.append (fmt_d (nth 1 (snd info) 0))
                   (String.append "." (fmt_d (nth 2 (snd info) 0))))))) ;;
  v <- hw_out (Tps65185_get_vcom p) ;;
  if negb (fst v =? 0) then
    PLOG "failed to read VCOM..." ;; pret (-1)
  else
    let vcom := nth 0 (snd v) 0 mod 2 ^ 16 in
    PLOG (String.append "VCOM: "
            (String.append (fmt_d vcom)
               (String.append " (0x" (String.append (fmt_04X vcom) ")")))) ;;
    up <- hw_out (Tps65185_get_seq p 1) ;;
    if negb (fst up =? 0) then pret (-1)
    else
      PLOG "Power up sequence:" ;;
      dump_tps65185_seq (seq_of_data (snd up)) ;;
      down <- hw_out (Tps65185_get_seq p 0) ;;
      if negb (fst down =? 0) then pret (-1)
      else
        PLOG "Power down sequence:" ;;
        dump_tps65185_seq (seq_of_data (snd down)) ;;
        PLOG "Power rail states:" ;;
        dump_tps65185_en tps65185_en_id_str p 0.

(** static int run_tps65185(struct ctx *ctx, int argc, char **argv) *)
Definition run_tps65185 (argv : list string) : P Z :=
  p <- require_tps65185 ;;
  if p =? NULL then pret (-1)
  else
    match argv with
    | [] => dump_tps65185_state p
    | cmd_str :: more =>
        if String.eqb cmd_str "vcom" then run_tps65185_vcom p more
        else if String.eqb cmd_str "seq" then run_tps65185_seq p more
        else if String.eqb cmd_str "active" then
          hw (Tps65185_set_power p TPS65185_ACTIVE)
        else if String.eqb cmd_str "standby" then
          hw (Tps65185_set_power p TPS65185_STANDBY)
        else if String.eqb cmd_str "en" then run_tps65185_en p more
        else
          PLOG (String.append "unsupported command: " cmd_str) ;;
          pret (-1)
    end.

End Tps65185.

(** ** MAX17135 *)

Section Max17135.

Variable atoi : string -> Z.

(** Whether [char] is a signed type. *)
Variable char_is_signed : bool.

(** The value of a [char] that holds the byte [b]. *)
Definition char_value (b : Z) : Z :=
  if char_is_signed && (127 <? to_char b) then to_char b - 256
  else to_char b.

(** The enumerators of [enum max17135_fault_id] (libplhw.h). *)
Variables MAX17135_FAULT_NONE MAX17135_FAULT_FBPG : Z.
Variables MAX17135_FAULT_HVINP MAX17135_FAULT_HVINN : Z.
Variables MAX17135_FAULT_FBNG MAX17135_FAULT_HVINPSC : Z.
Variables MAX17135_FAULT_HVINNSC MAX17135_FAULT_OT : Z.

(** The values of type [float], [max17135_convert_temperature] and the text
    of the conversion [%.1f]. *)
Variable float : Type.
Variable max17135_convert_temperature : ptr -> Z -> float.
Variable fmt_1f : float -> string.

(** static int set_max17135_timing(struct max17135 *p, int argc,
                                   char **argv) *)
Definition set_max17135_timing (p : ptr) (argv : list string) : P Z :=
  match argv with
  | arg0 :: arg1 :: _ =>
      let timing_no := atoi arg0 in
      if (timing_no <? 0)
         || (timing_no >=? Z.of_nat MAX17135_NB_TIMINGS) then
        PLOG (String.append "invalid timing number "
                (String.append (fmt_d timing_no)
                   (String.append " (valid: 0 - "
                      (String.append
                         (fmt_d (Z.of_nat MAX17135_NB_TIMINGS)) ")")))) ;;
        pret (-1)
      else
        let timing_ms := atoi arg1 in
        if (timing_ms <? 0) || (timing_ms >? 255) then
          PLOG (String.append "invalid timing value "
                  (String.append (fmt_d timing_ms) " (valid: 0 - 255)")) ;;
          pret (-1)
        else
          PLOG (String.append "setting timing #"
                  (String.append (fmt_d timing_no)
                     (String.append " to "
                        (String.append (fmt_d timing_ms) " ms")))) ;;
          hw (Max17135_set_timing p timing_no timing_ms)
  | _ => PLOG "invalid arguments" ;; pret (-1)
  end.

(** The loop that prints the timings read, from [i] on. *)
Fixpoint print_timings (n : nat) (i : Z) (timings : list Z) : P unit :=
  match n with
  | O => pret tt
  | S n' =>
      printf (String.append (fmt_d i)
                (String.append ": "
                   (String.append (fmt_d (char_value (nth (Z.to_nat i)
                                                          timings 0)))
                                  "\n"))) ;;
      print_timings n' (i + 1) timings
  end.

(** The loop that logs and copies the timings of a sequence, from [i] on:
    the values stored in [timings]. *)
Fixpoint copy_timings (n : nat) (i : Z) (src : list Z) : P (list Z) :=
  match n with
  | O => pret []
  | S n' =>
      let t := nth (Z.to_nat i) src 0 in
      PLOG (String.append (fmt_d i)
              (String.append ": " (fmt_d (char_value t)))) ;;
      more <- copy_timings n' (i + 1) src ;;
      pret (to_char t :: more)
  end.

(** The loop that reads [n] timings from the arguments: the values stored
    in [timings], [None] after an invalid one. *)
Fixpoint read_timings (n : nat) (args : list string) : P (option (list Z)) :=
  match n with
  | O => pret (Some [])
  | S n' =>
      match args with
      | [] =>
          lift (emit (Undefined "read past the end of argv")) ;;
          pret None
      | arg :: more =>
          let t := atoi arg in
          if (t <? 0) || (t >? 255) then
            PLOG (String.append "invalid timing "
                    (String.append (fmt_d t) " (valid: 0 - 255)")) ;;
            pret None
          else
            r <- read_timings n' more ;;
            pret (option_map (cons (to_char t)) r)
      end
  end.

(** static int set_max17135_timings(struct max17135 *p, int argc,
                                    char **argv).  The array given to
    [max17135_set_timings] is shown with the [n_timings] values the code
    has stored in it. *)
Definition set_max17135_timings (p : ptr) (argv : list string) : P Z :=
  let nb := Z.of_nat MAX17135_NB_TIMINGS in
  match argv with
  | [] =>
      r <- hw_out (Max17135_get_timings p nb) ;;
      let stat := fst r in
      if stat <? 0 then
        PLOG "failed to get the MAX17135 timings" ;; pret stat
      else if negb (stat =? nb) then
        PLOG (String.append "could only read "
                (String.append (fmt_d stat) " timings")) ;;
        pret (-1)
      else
        print_timings MAX17135_NB_TIMINGS 0 (snd r) ;;
        pret 0
  | _ =>
      let argc := Z.of_nat (List.length argv) in
      seq <- (if argc =? 1 then lift (get_power_seq argv) else pret None) ;;
      t <- match seq with
           | Some seq =>
               match name seq with
               | Some n =>
                   PLOG (String.append "Setting timings for "
                                       (String.append n ":"))
               | None => lift (emit (Undefined "printf of NULL"))
               end ;;
               timings <- copy_timings MAX17135_NB_TIMINGS 0 (timing seq) ;;
               pret (Some (timings, nb))
           | None =>
               n_timings <-
                 (if argc >? nb then
                    PLOG (String.append "warning: only using the "
                            (String.append (fmt_d nb) " first timings")) ;;
                    pret nb
                  else pret argc) ;;
               timings <- read_timings (Z.to_nat n_timings) argv ;;
               pret (option_map (fun l => (l, n_timings)) timings)
           end ;;
      match t with
      | None => pret (-1)
      | Some tn =>
          stat <- hw (Max17135_set_timings p (fst tn) (snd tn)) ;;
          if negb (stat =? 0) then
            PLOG "failed to write the timings" ;; pret stat
          else pret 0
      end
  end.

(** static int set_max17135_vcom(struct max17135 *p, int argc, char **argv) *)
Definition set_max17135_vcom (p : ptr) (argv : list string) : P Z :=
  match argv with
  | [] =>
      r <- hw_out (Max17135_get_vcom p) ;;
      if negb (fst r =? 0) then pret (-1)
      else
        printf (String.append (fmt_d (char_value (nth 0 (snd r) 0))) "\n") ;;
        pret 0
  | arg :: _ =>
      let vcom_raw := atoi arg in
      if (vcom_raw <? 0) || (vcom_raw >? 255) then
        PLOG (String.append "invalid VCOM value "
                (String.append (fmt_d vcom_raw) " (valid: 0 - 255)")) ;;
        pret (-1)
      else
        PLOG (String.append "setting VCOM to "
                (String.append (fmt_d vcom_raw)
                   (String.append " (0x"
                      (String.append (fmt_02X vcom_raw) ")")))) ;;
        hw (Max17135_set_vcom p (to_char vcom_raw))
  end.

(** static int get_max17135_fault(struct max17135 *p) *)
Definition get_max17135_fault (p : ptr) : P Z :=
  fault <- hw (Max17135_get_fault p) ;;
  if fault <? 0 then
    PLOG "failed to read MAX17135 fault id" ;; pret (-1)
  else
    let fault_str :=
      if fault =? MAX17135_FAULT_NONE then Some "MAX17135_FAULT_NONE"
      else if fault =? MAX17135_FAULT_FBPG then Some "MAX17135_FAULT_FBPG"
      else if fault =? MAX17135_FAULT_HVINP then Some "MAX17135_FAULT_HVINP"
      else if fault =? MAX17135_FAULT_HVINN then Some "MAX17135_FAULT_HVINN"
      else if fault =? MAX17135_FAULT_FBNG then Some "MAX17135_FAULT_FBNG"
      else if fault =? MAX17135_FAULT_HVINPSC
      then Some "MAX17135_FAULT_HVINPSC"
      else if fault =? MAX17135_FAULT_HVINNSC
      then Some "MAX17135_FAULT_HVINNSC"
      else if fault =? MAX17135_FAULT_OT then Some "MAX17135_FAULT_OT"
      else None in
    match fault_str with
    | None => PLOG "invalid MAX17135 fault id" ;; pret (-1)
    | Some text =>
        PLOG (String.append "MAX17135 fault: " text) ;; pret 0
    end.

(** static int dump_max17135_en(struct max17135 *p,
                                enum max17135_en_id id) *)
Definition dump_max17135_en (p : ptr) (id : max17135_en_id) : P Z :=
  en <- hw (Max17135_get_en p id) ;;
  let en_name :=
    match id with
    | MAX17135_EN_EN => "EN"
    | MAX17135_EN_CEN => "CEN"
    | MAX17135_EN_CEN2 => "CEN2"
    end in
  if en <? 0 then
    PLOG (String.append "failed to get "
                        (String.append en_name " status")) ;;
    pret (-1)
  else
    PLOG (String.append en_name
            (String.append " status: " (on_off_text en))) ;;
    pret 0.

(** The loop of [dump_max17135_timings], from [i] on. *)
Fixpoint log_timings (n : nat) (i : Z) (timings : list Z) : P unit :=
  match n with
  | O => pret tt
  | S n' =>
      PLOG (String.append "timing #"
              (String.append (fmt_d i)
                 (String.append ": "
                    (String.append
                       (fmt_3i (char_value (nth (Z.to_nat i) timings 0)))
                       " ms")))) ;;
      log_timings n' (i + 1) timings
  end.

(** static int dump_max17135_timings(struct max17135 *p) *)
Definition dump_max17135_timings (p : ptr) : P Z :=
  r <- hw_out (Max17135_get_timings p (Z.of_nat MAX17135_NB_TIMINGS)) ;;
  let ret_ := fst r in
  (if ret_ <? 0 then PLOG "failed to get the timings"
   else log_timings MAX17135_NB_TIMINGS 0 (snd r)) ;;
  pret ret_.

(** static int dump_max17135_vcom(struct max17135 *p) *)
Definition dump_max17135_vcom (p : ptr) : P Z :=
  r <- hw_out (Max17135_get_vcom p) ;;
  if fst r <? 0 then
    PLOG "failed to read VCOM" ;; pret (-1)
  else
    let vcom_raw := char_value (nth 0 (snd r) 0) in
    PLOG (String.append "VCOM: "
            (String.append (fmt_d vcom_raw)
               (String.append " (0x"
                  (String.append (fmt_02X vcom_raw) ")")))) ;;
    pret 0.

(** static int dump_max17135_temperature(struct max17135 *p) *)
Definition dump_max17135_temperature (p : ptr) : P Z :=
  sensor_en <- hw (Max17135_get_temp_sensor_en p) ;;
  ret_ <- (if sensor_en <? 0 then
             PLOG "failed to get the temperature sensor state" ;;
             pret (-1)
           else
             PLOG (String.append "temperature sensor enabled: "
                     (if sensor_en =? 0 then "no" else "yes")) ;;
             pret 0) ;;
  ti <- hw_out (Max17135_get_temperature p MAX17135_TEMP_INT) ;;
  if fst ti <? 0 then
    PLOG "failed to read temperatures" ;; pret (-1)
  else
    te <- hw_out (Max17135_get_temperature p MAX17135_TEMP_EXT) ;;
    if fst te <? 0 then
      PLOG "failed to read temperatures" ;; pret (-1)
    else
      let temp_i_f := max17135_convert_temperature p (nth 0 (snd ti) 0) in
      let temp_e_f := max17135_convert_temperature p (nth 0 (snd te) 0) in
      PLOG (String.append "internal temperature: "
              (String.append (fmt_1f temp_i_f) " C")) ;;
      PLOG (String.append "external temperature: "
              (String.append (fmt_1f temp_e_f) " C")) ;;
      pret ret_.

(** The order in which the arguments of a call are evaluated, which C leaves
    unspecified: [true] when they are taken from left to right, [false]
    from right to left. *)
Variable args_left_to_right : bool.

(** static int dump_max17135_state(struct max17135 *p).  The two calls in
    the arguments of the first [LOG] are made in the order the compiler has
    chosen. *)
Definition dump_max17135_state (p : ptr) : P Z :=
  ids <- (if args_left_to_right then
            id <- hw (Max17135_get_prod_id p) ;;
            rev <- hw (Max17135_get_prod_rev p) ;;
            pret (id, rev)
          else
            rev <- hw (Max17135_get_prod_rev p) ;;
            id <- hw (Max17135_get_prod_id p) ;;
            pret (id, rev)) ;;
  let id := fst ids in
  let rev := snd ids in
  PLOG (String.append "MAX17135 id: 0x"
          (String.append (fmt_02X id)
             (String.append ", rev: 0x" (fmt_02X rev)))) ;;
  let ret_ := 0 in
  r <- dump_max17135_en p MAX17135_EN_EN ;;
  let ret_ := if r <? 0 then -1 else ret_ in
  r <- dump_max17135_en p MAX17135_EN_CEN ;;
  let ret_ := if r <? 0 then -1 else ret_ in
  r <- dump_max17135_en p MAX17135_EN_CEN2 ;;
  let ret_ := if r <? 0 then -1 else ret_ in
  r <- dump_max17135_timings p ;;
  let ret_ := if r <? 0 then -1 else ret_ in
  r <- dump_max17135_vcom p ;;
  let ret_ := if r <? 0 then -1 else ret_ in
  r <- dump_max17135_temperature p ;;
  let ret_ := if r <? 0 then -1 else ret_ in
  pret ret_.

(** static int run_max17135(struct ctx *ctx, int argc, char **argv) *)
Definition run_max17135 (argv : list string) : P Z :=
  max17135 <- lift require_max17135 ;;
  if max17135 =? NULL then pret (-1)
  else
    match argv with
    | [] => dump_max17135_state max17135
    | cmd_str :: more =>
        if String.eqb cmd_str "timing" then
          set_max17135_timing max17135 more
        else if String.eqb cmd_str "timings" then
          set_max17135_timings max17135 more
        else if String.eqb cmd_str "vcom" then
          set_max17135_vcom max17135 more
        else if String.eqb cmd_str "fault" then
          get_max17135_fault max17135
        else
          match more with
          | [arg1] =>
              let on := get_on_off_opt arg1 in
              if on <? 0 then
                PLOG "invalid on/off value" ;; pret (-1)
              else if String.eqb cmd_str "en" then
                hw (Max17135_set_en max17135 MAX17135_EN_EN on)
              else if String.eqb cmd_str "cen" then
                hw (Max17135_set_en max17135 MAX17135_EN_CEN on)
              else if String.eqb cmd_str "cen2" then
                hw (Max17135_set_en max17135 MAX17135_EN_CEN2 on)
              else
                PLOG "invalid arguments" ;; pret (-1)
          | _ => PLOG "invalid arguments" ;; pret (-1)
          end
    end.

End Max17135.

Close Scope cmd_scope.

(** ** Vocabulary for the statements about the other commands *)

(** From [s] to [s']: the library calls made all satisfy [ok]. *)
Definition made (ok : hw_call -> Prop) (s s' : machine) : Prop :=
  exists cs : list hw_call, hw_calls s' = hw_calls s ++ cs /\ Forall ok cs.

(** One of the characters that separate the options of the EEPROM
    command. *)
Definition separator (c : ascii) : Prop := is_delim c ", " = true.

(** A text without separator and without "=". *)
Fixpoint plain (s : string) : Prop :=
  match s with
  | EmptyString => True
  | String c more => is_delim c ", =" = false /\ plain more
  end.

(** A call that looks a key up in the configuration [cfg]. *)
Definition is_lookup (cfg : ptr) (c : hw_call) : Prop :=
  exists key : string, c = Plconfig_get_i2c_addr cfg key.

(** A machine in which no command has run, used to run examples: the calls
    of the commands are answered by [e] and store [d], the option -o is
    [o]; the world is one of [bench], answered by [b]. *)
Definition desk (b e : nat -> Z) (d : nat -> list Z) (o : option string)
  : machine :=
  mk_machine (bench b None [] []) (mk_ctx_rest 5 0 0 0) TERM_IN_BLANK
             (mk_termios 0 0 0 0 []) 80 o [] e d [] [].

(** The same once the settings [t] of the terminal have been saved. *)
Definition desk_saved (t : termios) (e : nat -> Z) (d : nat -> list Z)
  : machine :=
  mk_machine (bench plenty None [] []) (mk_ctx_rest 5 0 0 0) TERM_IN_SAVED
             t 80 None [] e d [] [].

(** [strtoul] reading decimal digits, never setting [errno]. *)
Definition strtoul_dec (text : string) : Z * Z := (atoi_dec text, 0).

(** A text that begins with an empty option: nothing, or a separator. *)
Definition starts_empty (b : string) : Prop :=
  b = EmptyString \/
  exists (c : ascii) (b' : string), separator c /\ b = String c b'.

(** A text of options one of which is empty: the text begins with an empty
    option, or one follows a separator. *)
Inductive has_empty_option : string -> Prop :=
| empty_first (b : string) :
    starts_empty b -> has_empty_option b
| empty_later (a : string) (c : ascii) (b : string) :
    separator c -> starts_empty b ->
    has_empty_option (String.append a (String c b)).

(** A text in which an option follows an empty one: the text begins with a
    separator, or has two separators in a row. *)
Inductive option_after_empty : string -> Prop :=
| empty_at_start (c : ascii) (b : string) :
    separator c -> option_after_empty (String c b)
| empty_between (a : string) (c c' : ascii) (b : string) :
    separator c -> separator c' ->
    option_after_empty (String.append a (String c (String c' b))).

(** Any call. *)
Definition any_call (c : hw_call) : Prop := True.

(** The entry of a table of switches is called [n]; the entry of a table of
    commands is called [n]. *)
Definition switch_named (n : string) (sw : switch_id) : bool :=
  match sw_name sw with
  | Some m => String.eqb m n
  | None => false
  end.

Definition command_named (n : string) (c : command) : bool :=
  match cmd c with
  | Some m => String.eqb m n
  | None => false
  end.

(** An entry with a name that is not [n]. *)
Definition other_switch (n : string) (sw : switch_id) : Prop :=
  sw_name sw <> None /\ switch_named n sw = false.

Definition other_command (n : string) (c : command) : Prop :=
  cmd c <> None /\ command_named n c = false.

(** The machine after [LOG] of a text. *)
Definition logged (text : string) (s : machine) : machine :=
  set_base (add_log (Line text) (base s)) s.

(** A table of switches and a table of commands used to run examples; the
    switches are the power rails of a TPS65185. *)
Definition some_switches : list switch_id :=
  [ mk_switch_id (Some "vee") 1;
    mk_switch_id (Some "vpos") 2;
    mk_switch_id None (-1) ].

Definition rail_get (p : ptr) (id : Z) : P Z := hw (Tps65185_get_en p id).
Definition rail_set (p : ptr) (id on : Z) : P Z :=
  hw (Tps65185_set_en p id on).

Definition some_commands : list command :=
  [ mk_command (Some "pbtn") (Some "  buttons\n") (Some (fun _ => run_pbtn));
    mk_command (Some "dac") (Some "  channels\n")
               (Some (fun argv => lift (run_dac atoi_dec argv)));
    mk_command None None None ].




(** A machine with the devices already open. *)
Definition desk_open (e : nat -> Z) (d : nat -> list Z) : machine :=
  mk_machine world_ready (mk_ctx_rest 5 6 7 8) TERM_IN_SAVED
             (mk_termios 0 0 0 0 []) 80 None [] e d [] [].

(** The line [dump_tps65185_seq_item] logs for a power rail that comes up
    with the strobe number [strobe] (1 to 4), [ms] milliseconds after the
    strobe before. *)
Definition seq_line (name : string) (strobe ms : Z) : log_line :=
  Line (String.append (fmt_5s name)
          (String.append ": STROBE"
             (String.append (fmt_d strobe)
                (String.append " (" (String.append (fmt_d ms) " ms)"))))).

(** A strobe number and a strobe delay as the command line takes them. *)
Definition strobe_number (v : Z) : Prop := 1 <= v <= 4.
Definition strobe_delay (d : Z) : Prop := d = 3 \/ d = 6 \/ d = 9 \/ d = 12.

(** A call [run_tps65185] may make for the arguments [argv]: it reads, or
    it writes a VCOM value from 0 to 511 that is the number of the second
    argument, a sequence whose strobes and delays are from 0 to 3, a power
    mode, or the state 0 or 1 of the power rail whose place in
    [tps65185_en_id_str] is that of the name in the second argument. *)
Definition tps65185_call_ok (atoi : string -> Z) (argv : list string)
           (c : hw_call) : Prop :=
  match c with
  | Tps65185_init => True
  | Tps65185_get_info _ => True
  | Tps65185_get_vcom _ => True
  | Tps65185_get_seq _ _ => True
  | Tps65185_get_en _ _ => True
  | Tps65185_set_power _ _ => True
  | Tps65185_set_vcom _ value =>
      0 <= value <= 511 /\ option_map atoi (nth_error argv 1) = Some value
  | Tps65185_set_seq _ seq up =>
      Forall (fun x => 0 <= x <= 3) (data_of_seq seq) /\ (up = 0 \/ up = 1)
  | Tps65185_set_en _ id on =>
      0 <= id < 6 /\
      nth_error tps65185_en_id_str (Z.to_nat id) = nth_error argv 1 /\
      (on = 0 \/ on = 1)
  | _ => False
  end.

(** The text that names a power rail of the MAX17135 on the command line. *)
Definition en_text (id : max17135_en_id) : string :=
  match id with
  | MAX17135_EN_EN => "en"
  | MAX17135_EN_CEN => "cen"
  | MAX17135_EN_CEN2 => "cen2"
  end.

(** A call [run_max17135] may make for the arguments [argv]: it reads, or
    it writes a value in the range of the device: 0 or 1 for the power rail
    the first argument names, a timing from 0 to 255 with a number from 0 to
    7 (the numbers of the second and third arguments), at most eight
    timings from 0 to 255 with their count, or a VCOM value from 0 to 255
    (the number of the second argument). *)
Definition max17135_call_ok (atoi : string -> Z) (argv : list string)
           (c : hw_call) : Prop :=
  match c with
  | Max17135_get_en _ _ => True
  | Max17135_get_timings _ _ => True
  | Max17135_get_vcom _ => True
  | Max17135_get_fault _ => True
  | Max17135_get_prod_id _ => True
  | Max17135_get_prod_rev _ => True
  | Max17135_get_temp_sensor_en _ => True
  | Max17135_get_temperature _ _ => True
  | Max17135_set_en _ id on =>
      nth_error argv 0 = Some (en_text id) /\ (on = 0 \/ on = 1)
  | Max17135_set_timing _ timing_no timing_ms =>
      0 <= timing_no < 8 /\ 0 <= timing_ms <= 255 /\
      option_map atoi (nth_error argv 1) = Some timing_no /\
      option_map atoi (nth_error argv 2) = Some timing_ms
  | Max17135_set_timings _ timings n =>
      n = Z.of_nat (List.length timings) /\
      (List.length timings <= 8)%nat /\
      Forall (fun t => 0 <= t <= 255) timings
  | Max17135_set_vcom _ value =>
      0 <= value <= 255 /\ option_map atoi (nth_error argv 1) = Some value
  | _ => False
  end.

(** From [s] to [s']: exactly the calls [cs] were made, and the answers to
    come are the same. *)
Definition after (s : machine) (cs : list hw_call) (s' : machine) : Prop :=
  hw_calls s' = hw_calls s ++ cs /\
  hw_env s' = hw_env s /\
  hw_data s' = hw_data s.

(** The machine after a line of another kind has been logged. *)
Definition noted (l : log_line) (s : machine) : machine :=
  set_base (add_log l (base s)) s.
(** ** Properties of the primitives *)

Lemma own_lines_app (l1 l2 : list log_line) :
  own_lines (l1 ++ l2) = own_lines l1 ++ own_lines l2.
Proof. unfold own_lines. apply filter_app. Qed.

Lemma deliver_calls (w : world) : calls (deliver w) = calls w.
Proof.
  unfold deliver. destruct (sigint_at w) as [n|]; [|reflexivity].
  destruct (Nat.eqb n (List.length (calls w))); reflexivity.
Qed.

Lemma deliver_env (w : world) : env (deliver w) = env w.
Proof.
  unfold deliver. destruct (sigint_at w) as [n|]; [|reflexivity].
  destruct (Nat.eqb n (List.length (calls w))); reflexivity.
Qed.

Lemma deliver_ctx (w : world) : the_ctx (deliver w) = the_ctx w.
Proof.
  unfold deliver. destruct (sigint_at w) as [n|]; [|reflexivity].
  destruct (Nat.eqb n (List.length (calls w))); reflexivity.
Qed.

Lemma deliver_own_lines (w : world) :
  own_lines (log (deliver w)) = own_lines (log w).
Proof.
  unfold deliver. destruct (sigint_at w) as [n|]; [|reflexivity].
  destruct (Nat.eqb n (List.length (calls w))); [|reflexivity].
  cbn. rewrite own_lines_app. cbn. apply app_nil_r.
Qed.

Lemma lib_result (c : call) (w : world) :
  fst (lib c w) = env w (List.length (calls w)).
Proof. reflexivity. Qed.

Lemma lib_calls (c : call) (w : world) :
  calls (snd (lib c w)) = calls w ++ [c].
Proof. unfold lib. cbn [snd]. now rewrite deliver_calls. Qed.

Lemma lib_env (c : call) (w : world) : env (snd (lib c w)) = env w.
Proof. unfold lib. cbn [snd]. now rewrite deliver_env. Qed.

Lemma lib_ctx (c : call) (w : world) : the_ctx (snd (lib c w)) = the_ctx w.
Proof. unfold lib. cbn [snd]. now rewrite deliver_ctx. Qed.

Lemma lib_own_lines (c : call) (w : world) :
  own_lines (log (snd (lib c w))) = own_lines (log w).
Proof. unfold lib. cbn [snd]. now rewrite deliver_own_lines. Qed.

Lemma append_not_abort (msg tail : string) :
  (tail = " ok" \/ tail = " failed (ERROR)") ->
  String.eqb (String.append msg tail) "abort!" = false.
Proof.
  intros Ht. apply String.eqb_neq. intros H.
  do 7 (destruct msg as [|? msg];
        [destruct Ht; subst tail; discriminate H
        | cbn in H; first [discriminate H | injection H as _ H]]).
Qed.

Lemma ok_line_own (msg : string) : own_lines [ok_line msg] = [ok_line msg].
Proof.
  unfold own_lines, ok_line. cbn.
  rewrite append_not_abort by (now left). reflexivity.
Qed.

Lemma failed_line_own (msg : string) :
  own_lines [failed_line msg] = [failed_line msg].
Proof.
  unfold own_lines, failed_line. cbn.
  rewrite append_not_abort by (now right). reflexivity.
Qed.

(** ** One step *)

Lemma STEP_ok (c : call) (msg : string) (k : M Z) (w : world) :
  0 <= env w (List.length (calls w)) ->
  STEP (lib c) msg k w = k (step_done c (ok_line msg) w).
Proof.
  intros H. unfold STEP, bind. rewrite lib_result.
  destruct (Z.ltb_spec (env w (List.length (calls w))) 0); [lia|reflexivity].
Qed.

Lemma STEP_failed (c : call) (msg : string) (k : M Z) (w : world) :
  env w (List.length (calls w)) < 0 ->
  STEP (lib c) msg k w
  = (env w (List.length (calls w)), step_done c (failed_line msg) w).
Proof.
  intros H. unfold STEP, bind. rewrite lib_result.
  destruct (Z.ltb_spec (env w (List.length (calls w))) 0); [reflexivity|lia].
Qed.

Lemma step_done_calls (c : call) (l : log_line) (w : world) :
  calls (step_done c l w) = calls w ++ [c].
Proof. unfold step_done. exact (lib_calls c w). Qed.

Lemma step_done_env (c : call) (l : log_line) (w : world) :
  env (step_done c l w) = env w.
Proof. unfold step_done. exact (lib_env c w). Qed.

Lemma step_done_ctx (c : call) (l : log_line) (w : world) :
  the_ctx (step_done c l w) = the_ctx w.
Proof. unfold step_done. exact (lib_ctx c w). Qed.

Lemma step_done_own_lines (c : call) (l : log_line) (w : world) :
  own_lines (log (step_done c l w)) = own_lines (log w) ++ own_lines [l].
Proof.
  unfold step_done.
  change (log (add_log l (snd (lib c w)))) with (log (snd (lib c w)) ++ [l]).
  rewrite own_lines_app. now rewrite lib_own_lines.
Qed.

Lemma answers_ok_next (c : call) (l : log_line) (w : world) (k : nat) :
  answers_ok w (S k) -> answers_ok (step_done c l w) k.
Proof.
  intros H j Hj. rewrite step_done_env, step_done_calls, length_app. cbn.
  replace (List.length (calls w) + 1 + j)%nat
    with (List.length (calls w) + S j)%nat by lia.
  apply H. lia.
Qed.

Lemma answers_ok_head (w : world) (k : nat) :
  answers_ok w (S k) -> 0 <= env w (List.length (calls w)).
Proof.
  intros H. specialize (H 0%nat). rewrite Nat.add_0_r in H. apply H. lia.
Qed.

Lemma first_failure_next (c : call) (l : log_line) (w : world) (i : nat) :
  first_failure w (S i) -> first_failure (step_done c l w) i.
Proof.
  intros [Hok Hneg]. split.
  - apply answers_ok_next. intros j Hj. apply Hok. lia.
  - rewrite step_done_env, step_done_calls, length_app. cbn.
    replace (List.length (calls w) + 1 + i)%nat
      with (List.length (calls w) + S i)%nat by lia.
    exact Hneg.
Qed.

(** Either the next [k] answers are all fine or one of them is the first
    failure. *)
Lemma answers_cases (w : world) (k : nat) :
  answers_ok w k \/ exists i : nat, (i < k)%nat /\ first_failure w i.
Proof.
  induction k as [|k IH].
  - left. intros j Hj. lia.
  - destruct IH as [Hok | (i & Hi & Hf)].
    + destruct (Z.lt_ge_cases (env w (List.length (calls w) + k)) 0)
        as [Hneg | Hpos].
      * right. exists k. split; [lia | split; assumption].
      * left. intros j Hj.
        destruct (Nat.eq_dec j k) as [-> | Hne]; [exact Hpos|].
        apply Hok. lia.
    + right. exists i. split; [lia | exact Hf].
Qed.

Lemma first_failure_not_ok (w : world) (i k : nat) :
  (i < k)%nat -> first_failure w i -> ~ answers_ok w k.
Proof. intros Hi [_ Hneg] Hok. specialize (Hok i Hi). lia. Qed.

(** ** A whole chain *)

Lemma run_steps_ok (steps : list (call * string)) :
  forall w : world,
    answers_ok w (List.length steps) ->
    fst (run_steps steps w) = 0 /\
    calls (snd (run_steps steps w)) = calls w ++ map fst steps /\
    own_lines (log (snd (run_steps steps w)))
    = own_lines (log w) ++ map ok_line (map snd steps).
Proof.
  induction steps as [|[c msg] rest IH]; intros w Hok.
  - cbn. now rewrite !app_nil_r.
  - cbn [run_steps List.length] in *.
    rewrite STEP_ok by (eapply answers_ok_head; exact Hok).
    destruct (IH (step_done c (ok_line msg) w)) as (Hr & Hc & Hl).
    { now apply answers_ok_next. }
    rewrite Hr, Hc, Hl, step_done_calls, step_done_own_lines, ok_line_own.
    cbn [map fst snd]. now rewrite <- !app_assoc.
Qed.

Lemma run_steps_failed (steps : list (call * string)) :
  forall (i : nat) (w : world),
    (i < List.length steps)%nat ->
    first_failure w i ->
    fst (run_steps steps w) = env w (List.length (calls w) + i) /\
    calls (snd (run_steps steps w))
    = calls w ++ firstn (S i) (map fst steps) /\
    own_lines (log (snd (run_steps steps w)))
    = own_lines (log w)
      ++ map ok_line (firstn i (map snd steps))
      ++ [failed_line (nth i (map snd steps) "")].
Proof.
  induction steps as [|[c msg] rest IH]; intros i w Hi Hf.
  - cbn in Hi. lia.
  - cbn [run_steps List.length] in *. destruct i as [|i].
    + destruct Hf as [_ Hneg]. rewrite Nat.add_0_r in Hneg.
      rewrite STEP_failed by exact Hneg. cbn [fst snd].
      rewrite step_done_calls, step_done_own_lines, failed_line_own.
      rewrite Nat.add_0_r. cbn. auto.
    + rewrite STEP_ok by (destruct Hf as [Hok _];
                          eapply answers_ok_head; exact Hok).
      destruct (IH i (step_done c (ok_line msg) w)) as (Hr & Hc & Hl).
      { lia. }
      { now apply first_failure_next. }
      rewrite Hr, Hc, Hl, step_done_calls, step_done_own_lines, ok_line_own,
        step_done_env, length_app.
      cbn [map fst snd firstn nth List.length].
      replace (List.length (calls w) + 1 + i)%nat
        with (List.length (calls w) + S i)%nat by lia.
      now rewrite <- !app_assoc.
Qed.

(** The calls of a chain are always an initial part of its list. *)
Lemma run_steps_prefix (steps : list (call * string)) (w : world) :
  exists k : nat,
    (k <= List.length steps)%nat /\
    calls (snd (run_steps steps w)) = calls w ++ firstn k (map fst steps).
Proof.
  destruct (answers_cases w (List.length steps)) as [Hok | (i & Hi & Hf)].
  - exists (List.length steps). split; [lia|].
    destruct (run_steps_ok steps w Hok) as (_ & Hc & _).
    rewrite Hc. f_equal. symmetry. apply firstn_all2.
    rewrite length_map. lia.
  - exists (S i). split; [lia|].
    now destruct (run_steps_failed steps i w Hi Hf) as (_ & Hc & _).
Qed.

(** A chain returns 0 exactly when every step's call succeeded. *)
Lemma run_steps_zero (steps : list (call * string)) (w : world) :
  fst (run_steps steps w) = 0 <-> answers_ok w (List.length steps).
Proof.
  split.
  - intros Hz.
    destruct (answers_cases w (List.length steps)) as [Hok | (i & Hi & Hf)];
      [exact Hok|].
    destruct (run_steps_failed steps i w Hi Hf) as (Hr & _).
    destruct Hf as [_ Hneg]. lia.
  - intros Hok. now destruct (run_steps_ok steps w Hok).
Qed.

(** ** The sequences as chains *)

Lemma power_on_seq0_chain (vcom : Z) (w : world) :
  power_on_seq0 vcom w =
  let p := acquire_on w in
  let cpld := fst (fst (fst p)) in
  let max17135 := snd (fst (fst p)) in
  let dac := snd (fst p) in
  if (cpld =? NULL) || (max17135 =? NULL) then (-1, snd p)
  else run_steps (combine (power_on_calls cpld max17135 dac vcom)
                          power_on_labels) (snd p).
Proof.
  unfold power_on_seq0, acquire_on, bind, ret. cbn [fst snd].
  match goal with |- context [if ?b then _ else _] => destruct b end;
    reflexivity.
Qed.

Lemma power_off_seq0_chain (w : world) :
  power_off_seq0 w =
  let p := acquire_off w in
  let cpld := fst (fst p) in
  let dac := snd (fst p) in
  if cpld =? NULL then (-1, snd p)
  else run_steps (combine (power_off_calls cpld dac) power_off_labels)
                 (snd p).
Proof.
  unfold power_off_seq0, acquire_off, bind, ret. cbn [fst snd].
  match goal with |- context [if ?b then _ else _] => destruct b end;
    reflexivity.
Qed.

(** ** Opening the handles *)

Ltac world_simpl :=
  unfold set_ctx, set_abort, add_log, add_call, set_fd_in, set_fd_out,
    set_ee_in, set_mallocs, set_rand_in;
  cbn [the_ctx g_abort calls env sigint_at log fd_in fd_out ee_in mallocs
       rand_in fst snd cpld max17135 dac].

Ltac require_tac w field :=
  unfold bind, get_ctx, put_ctx, ret; cbn [fst snd];
  destruct (field (the_ctx w) =? NULL) eqn:E; world_simpl;
  rewrite ?lib_calls, ?lib_env, ?lib_ctx, ?app_nil_r; repeat split; auto.

Lemma require_cpld_spec (w : world) :
  calls (snd (require_cpld w))
  = calls w ++ (if cpld (the_ctx w) =? NULL then [Cpld_init] else []) /\
  env (snd (require_cpld w)) = env w /\
  fst (require_cpld w) = cpld (the_ctx (snd (require_cpld w))) /\
  max17135 (the_ctx (snd (require_cpld w))) = max17135 (the_ctx w) /\
  dac (the_ctx (snd (require_cpld w))) = dac (the_ctx w).
Proof. unfold require_cpld. require_tac w cpld. Qed.

Lemma require_max17135_spec (w : world) :
  calls (snd (require_max17135 w))
  = calls w
    ++ (if max17135 (the_ctx w) =? NULL then [Max17135_init] else []) /\
  env (snd (require_max17135 w)) = env w /\
  fst (require_max17135 w) = max17135 (the_ctx (snd (require_max17135 w))) /\
  cpld (the_ctx (snd (require_max17135 w))) = cpld (the_ctx w) /\
  dac (the_ctx (snd (require_max17135 w))) = dac (the_ctx w).
Proof. unfold require_max17135. require_tac w max17135. Qed.

Lemma require_dac_spec (w : world) :
  calls (snd (require_dac w))
  = calls w ++ (if dac (the_ctx w) =? NULL then [Dac5820_init] else []) /\
  env (snd (require_dac w)) = env w /\
  fst (require_dac w) = dac (the_ctx (snd (require_dac w))) /\
  cpld (the_ctx (snd (require_dac w))) = cpld (the_ctx w) /\
  max17135 (the_ctx (snd (require_dac w))) = max17135 (the_ctx w).
Proof. unfold require_dac. require_tac w dac. Qed.

Lemma acquire_on_spec (w : world) :
  let c := the_ctx (snd (acquire_on w)) in
  fst (acquire_on w) = (cpld c, max17135 c, dac c) /\
  calls (snd (acquire_on w)) = calls w ++ init_calls_on (the_ctx w) /\
  env (snd (acquire_on w)) = env w.
Proof.
  unfold acquire_on, bind, ret, init_calls_on. cbn [fst snd].
  destruct (require_cpld_spec w) as (Hc1 & He1 & Hr1 & Hm1 & Hd1).
  destruct (require_max17135_spec (snd (require_cpld w)))
    as (Hc2 & He2 & Hr2 & Hk2 & Hd2).
  destruct (require_dac_spec (snd (require_max17135 (snd (require_cpld w)))))
    as (Hc3 & He3 & Hr3 & Hk3 & Hm3).
  repeat split.
  - rewrite Hr1, Hr2, Hr3, Hk3, Hm3, Hk2. reflexivity.
  - rewrite Hc3, Hc2, Hc1, Hd2, Hd1, Hm1. now rewrite <- !app_assoc.
  - now rewrite He3, He2, He1.
Qed.

Lemma acquire_off_spec (w : world) :
  let c := the_ctx (snd (acquire_off w)) in
  fst (acquire_off w) = (cpld c, dac c) /\
  calls (snd (acquire_off w)) = calls w ++ init_calls_off (the_ctx w) /\
  env (snd (acquire_off w)) = env w.
Proof.
  unfold acquire_off, bind, ret, init_calls_off. cbn [fst snd].
  destruct (require_cpld_spec w) as (Hc1 & He1 & Hr1 & Hm1 & Hd1).
  destruct (require_dac_spec (snd (require_cpld w)))
    as (Hc3 & He3 & Hr3 & Hk3 & Hm3).
  repeat split.
  - rewrite Hr1, Hr3, Hk3. reflexivity.
  - rewrite Hc3, Hc1, Hd1. now rewrite <- !app_assoc.
  - now rewrite He3, He1.
Qed.

(** ** The procedures from the point where the handles are there *)

Lemma run_procedure_chain (p : procedure) (w : world) :
  run_procedure p w =
  if match p with
     | Power_on _ =>
         (cpld (the_ctx (handles_acquired p w)) =? NULL)
         || (max17135 (the_ctx (handles_acquired p w)) =? NULL)
     | Power_off => cpld (the_ctx (handles_acquired p w)) =? NULL
     end
  then (-1, handles_acquired p w)
  else run_steps (combine (procedure_calls p w) (procedure_labels p))
                 (handles_acquired p w).
Proof.
  destruct p as [vcom|]; cbn [run_procedure handles_acquired procedure_calls
                              procedure_labels].
  - rewrite power_on_seq0_chain. cbv zeta.
    destruct (acquire_on_spec w) as (Hf & _). cbv zeta in Hf.
    rewrite Hf. reflexivity.
  - rewrite power_off_seq0_chain. cbv zeta.
    destruct (acquire_off_spec w) as (Hf & _). cbv zeta in Hf.
    rewrite Hf. reflexivity.
Qed.

Lemma procedure_lengths (p : procedure) (w : world) :
  List.length (procedure_calls p w) = List.length (procedure_labels p).
Proof. destruct p; reflexivity. Qed.

Lemma procedure_steps_calls (p : procedure) (w : world) :
  map fst (combine (procedure_calls p w) (procedure_labels p))
  = procedure_calls p w.
Proof. destruct p; reflexivity. Qed.

Lemma procedure_steps_labels (p : procedure) (w : world) :
  map snd (combine (procedure_calls p w) (procedure_labels p))
  = procedure_labels p.
Proof. destruct p; reflexivity. Qed.

Lemma procedure_steps_length (p : procedure) (w : world) :
  List.length (combine (procedure_calls p w) (procedure_labels p))
  = List.length (procedure_labels p).
Proof. destruct p; reflexivity. Qed.

Lemma handles_ready_test (p : procedure) (w : world) :
  handles_ready p w <->
  match p with
  | Power_on _ =>
      (cpld (the_ctx (handles_acquired p w)) =? NULL)
      || (max17135 (the_ctx (handles_acquired p w)) =? NULL)
  | Power_off => cpld (the_ctx (handles_acquired p w)) =? NULL
  end = false.
Proof.
  unfold handles_ready. destruct p as [vcom|]; cbv zeta.
  - rewrite orb_false_iff, !Z.eqb_neq. tauto.
  - rewrite Z.eqb_neq. tauto.
Qed.

(** With the handles there, the procedure is its chain of steps. *)
Lemma run_procedure_ready (p : procedure) (w : world) :
  handles_ready p w ->
  run_procedure p w
  = run_steps (combine (procedure_calls p w) (procedure_labels p))
              (handles_acquired p w).
Proof.
  intros H. rewrite run_procedure_chain.
  apply handles_ready_test in H. now rewrite H.
Qed.

(** Without them it does nothing and fails. *)
Lemma run_procedure_not_ready (p : procedure) (w : world) :
  ~ handles_ready p w ->
  run_procedure p w = (-1, handles_acquired p w).
Proof.
  intros H. rewrite run_procedure_chain.
  rewrite handles_ready_test in H.
  destruct (match p with
            | Power_on _ => _
            | Power_off => _
            end); [reflexivity | congruence].
Qed.

Lemma handles_ready_dec (p : procedure) (w : world) :
  handles_ready p w \/ ~ handles_ready p w.
Proof.
  rewrite handles_ready_test.
  destruct (match p with
            | Power_on _ => _
            | Power_off => _
            end); [right; congruence | left; reflexivity].
Qed.

(** The calls of a run: an initial part of the procedure's list. *)
Lemma run_procedure_prefix (p : procedure) (w : world) :
  exists k : nat,
    (k <= List.length (procedure_labels p))%nat /\
    calls (snd (run_procedure p w))
    = calls (handles_acquired p w) ++ firstn k (procedure_calls p w).
Proof.
  destruct (handles_ready_dec p w) as [H | H].
  - rewrite run_procedure_ready by exact H.
    destruct (run_steps_prefix
                (combine (procedure_calls p w) (procedure_labels p))
                (handles_acquired p w)) as (k & Hk & Hc).
    exists k. rewrite procedure_steps_length in Hk.
    rewrite procedure_steps_calls in Hc. auto.
  - rewrite run_procedure_not_ready by exact H.
    exists 0%nat. cbn. rewrite app_nil_r. split; [lia | reflexivity].
Qed.

(** Success means: handles there and every step succeeded. *)
Lemma run_procedure_zero (p : procedure) (w : world) :
  fst (run_procedure p w) = 0 <->
  handles_ready p w /\
  answers_ok (handles_acquired p w) (List.length (procedure_labels p)).
Proof.
  destruct (handles_ready_dec p w) as [H | H].
  - rewrite run_procedure_ready by exact H.
    rewrite run_steps_zero, procedure_steps_length. tauto.
  - rewrite run_procedure_not_ready by exact H. cbn. split.
    + discriminate.
    + tauto.
Qed.

Lemma run_procedure_all (p : procedure) (w : world) :
  fst (run_procedure p w) = 0 ->
  calls (snd (run_procedure p w))
  = calls (handles_acquired p w) ++ procedure_calls p w.
Proof.
  intros Hz. apply run_procedure_zero in Hz. destruct Hz as [H Hok].
  rewrite run_procedure_ready by exact H.
  rewrite <- procedure_steps_length with (w := w) in Hok.
  destruct (run_steps_ok _ _ Hok) as (_ & Hc & _).
  now rewrite Hc, procedure_steps_calls.
Qed.

Lemma run_procedure_failed (p : procedure) (w : world) (i : nat) :
  handles_ready p w ->
  (i < List.length (procedure_labels p))%nat ->
  first_failure (handles_acquired p w) i ->
  let w1 := handles_acquired p w in
  let r := run_procedure p w in
  fst r = env w1 (List.length (calls w1) + i) /\
  calls (snd r) = calls w1 ++ firstn (S i) (procedure_calls p w) /\
  own_lines (log (snd r))
  = own_lines (log w1)
    ++ map ok_line (firstn i (procedure_labels p))
    ++ [failed_line (nth i (procedure_labels p) "")].
Proof.
  intros H Hi Hf. cbv zeta. rewrite run_procedure_ready by exact H.
  rewrite <- procedure_steps_length with (w := w) in Hi.
  destruct (run_steps_failed _ i _ Hi Hf) as (Hr & Hc & Hl).
  rewrite procedure_steps_calls in Hc. rewrite procedure_steps_labels in Hl.
  auto.
Qed.

(** ** Power sequences: the stated properties *)

(** C1.  Fail-fast.  For a power-on or power-off run whose handles are there:
    if the call of step [i] is the first one the hardware answers with a
    negative value, the procedure returns that value, the calls made are
    exactly steps 0..i, each once (nothing after step [i], nothing retried),
    and the lines logged are the "ok" lines of the steps before [i] followed
    by the "failed" line carrying the label of step [i]. *)
Theorem power_stops_at_first_failure (p : procedure) (w : world) (i : nat) :
  handles_ready p w ->
  (i < List.length (procedure_labels p))%nat ->
  first_failure (handles_acquired p w) i ->
  let w1 := handles_acquired p w in
  let r := run_procedure p w in
  fst r = env w1 (List.length (calls w1) + i) /\
  fst r < 0 /\
  calls (snd r) = calls w1 ++ firstn (S i) (procedure_calls p w) /\
  own_lines (log (snd r))
  = own_lines (log w1)
    ++ map ok_line (firstn i (procedure_labels p))
    ++ [failed_line (nth i (procedure_labels p) "")].
Proof.
  intros H Hi Hf.
  destruct (run_procedure_failed p w i H Hi Hf) as (Hr & Hc & Hl).
  cbv zeta in *. split; [exact Hr|]. split; [|split; assumption].
  rewrite Hr. now destruct Hf.
Qed.

(** Power-on with POK failing (third step): the label is "wait for POK" and
    no DAC call is made. *)
Lemma power_stops_at_first_failure_witness :
  let r := power_on_seq0 200 world_pok_fails in
  fst r = -7 /\
  calls (snd r)
  = [ Cpld_init; Max17135_init; Dac5820_init;
      Cpld_set_switch 1 CPLD_BPCOM_CLAMP 1;
      Cpld_set_switch 1 CPLD_HVEN 1;
      Max17135_wait_for_pok 1 ] /\
  own_lines (log (snd r))
  = [ Line "BPCOM clamp ok"; Line "HV enable ok";
      Line "wait for POK failed (ERROR)" ] /\
  forallb (fun c => negb (is_dac_call c)) (calls (snd r)) = true.
Proof.
  assert (Hready : handles_ready (Power_on 200) world_pok_fails).
  { split; discriminate. }
  assert (Hf : first_failure (handles_acquired (Power_on 200) world_pok_fails)
                             2).
  { split.
    - intros j Hj. destruct j as [|[|j]]; cbn; lia.
    - cbn. lia. }
  pose proof (power_stops_at_first_failure (Power_on 200) world_pok_fails 2
                Hready ltac:(cbn; lia) Hf) as H.
  cbv zeta in H. destruct H as (Hr & _ & Hc & Hl).
  vm_compute in Hr, Hc, Hl. vm_compute.
  exact (conj Hr (conj Hc (conj Hl eq_refl))).
Defined.

(** C2.  Power-on.  After the handles still missing have been opened, the
    calls of a run are an initial part of the list of the nine operations
    (clamp, HV on, wait for POK, switch open, switch driver on, VCOM supply
    on, DAC value, DAC on, switch closed): none skipped, reordered or
    repeated.  The run returns 0 exactly when the handles are there and all
    nine calls succeed, and then all nine have been made. *)
Theorem power_on_nine_steps (w : world) (vcom : Z) :
  let w1 := snd (acquire_on w) in
  let c := the_ctx w1 in
  let ops :=
    [ Cpld_set_switch (cpld c) CPLD_BPCOM_CLAMP 1;
      Cpld_set_switch (cpld c) CPLD_HVEN 1;
      Max17135_wait_for_pok (max17135 c);
      Cpld_set_switch (cpld c) CPLD_COM_SW_CLOSE 0;
      Cpld_set_switch (cpld c) CPLD_COM_SW_EN 1;
      Cpld_set_switch (cpld c) CPLD_COM_PSU 1;
      Dac5820_output (dac c) DAC5820_CH_A vcom;
      Dac5820_set_power (dac c) DAC5820_CH_A DAC5820_POW_ON;
      Cpld_set_switch (cpld c) CPLD_COM_SW_CLOSE 1 ] in
  let r := power_on_seq0 vcom w in
  calls w1 = calls w ++ init_calls_on (the_ctx w) /\
  (exists k : nat, (k <= 9)%nat /\ calls (snd r) = calls w1 ++ firstn k ops) /\
  (fst r = 0 <->
   (cpld c <> NULL /\ max17135 c <> NULL) /\ answers_ok w1 9) /\
  (fst r = 0 -> calls (snd r) = calls w1 ++ ops).
Proof.
  cbv zeta. split; [|split; [|split]].
  - now destruct (acquire_on_spec w) as (_ & Hc & _).
  - exact (run_procedure_prefix (Power_on vcom) w).
  - exact (run_procedure_zero (Power_on vcom) w).
  - exact (run_procedure_all (Power_on vcom) w).
Qed.

Lemma power_on_nine_steps_witness :
  fst (power_on_seq0 200 world_ready) = 0 /\
  calls (snd (power_on_seq0 200 world_ready))
  = [ Cpld_set_switch 11 CPLD_BPCOM_CLAMP 1;
      Cpld_set_switch 11 CPLD_HVEN 1;
      Max17135_wait_for_pok 12;
      Cpld_set_switch 11 CPLD_COM_SW_CLOSE 0;
      Cpld_set_switch 11 CPLD_COM_SW_EN 1;
      Cpld_set_switch 11 CPLD_COM_PSU 1;
      Dac5820_output 13 DAC5820_CH_A 200;
      Dac5820_set_power 13 DAC5820_CH_A DAC5820_POW_ON;
      Cpld_set_switch 11 CPLD_COM_SW_CLOSE 1 ].
Proof.
  pose proof (power_on_nine_steps world_ready 200) as H.
  cbv zeta in H. destruct H as (_ & _ & Hz & Hall).
  assert (Hr : fst (power_on_seq0 200 world_ready) = 0).
  { apply Hz. split; [split; discriminate|]. intros j Hj. cbn. lia. }
  specialize (Hall Hr). vm_compute in Hr, Hall. vm_compute.
  exact (conj Hr Hall).
Defined.

(** C3.  Power-off.  The calls of a run are an initial part of the list of
    the five operations (switch open, switch driver off, DAC off with the
    100K termination, VCOM supply off, HV off).  No call of a run touches the
    BPCOM clamp or waits for POK.  The run returns 0 exactly when the CPLD
    handle is there and all five calls succeed, and then all five have been
    made. *)
Theorem power_off_five_steps (w : world) :
  let w1 := snd (acquire_off w) in
  let c := the_ctx w1 in
  let ops :=
    [ Cpld_set_switch (cpld c) CPLD_COM_SW_CLOSE 0;
      Cpld_set_switch (cpld c) CPLD_COM_SW_EN 0;
      Dac5820_set_power (dac c) DAC5820_CH_A DAC5820_POW_OFF_100K;
      Cpld_set_switch (cpld c) CPLD_COM_PSU 0;
      Cpld_set_switch (cpld c) CPLD_HVEN 0 ] in
  let r := power_off_seq0 w in
  (exists k : nat,
     (k <= 5)%nat /\
     calls (snd r) = calls w ++ init_calls_off (the_ctx w) ++ firstn k ops /\
     forallb (fun x => negb (is_clamp_or_pok x))
             (init_calls_off (the_ctx w) ++ firstn k ops) = true) /\
  (fst r = 0 <-> cpld c <> NULL /\ answers_ok w1 5) /\
  (fst r = 0 ->
   calls (snd r) = calls w ++ init_calls_off (the_ctx w) ++ ops).
Proof.
  cbv zeta.
  destruct (acquire_off_spec w) as (_ & Hc1 & _).
  split; [|split].
  - destruct (run_procedure_prefix Power_off w) as (k & Hk & Hc).
    cbn [run_procedure handles_acquired procedure_calls procedure_labels]
      in Hk, Hc.
    exists k. split; [exact Hk|]. split.
    + rewrite Hc, Hc1. now rewrite <- app_assoc.
    + rewrite forallb_app. apply andb_true_intro. split.
      * unfold init_calls_off.
        destruct (cpld (the_ctx w) =? NULL), (dac (the_ctx w) =? NULL);
          reflexivity.
      * cbn in Hk. do 6 (destruct k as [|k]; [reflexivity|]). lia.
  - exact (run_procedure_zero Power_off w).
  - intros Hz. pose proof (run_procedure_all Power_off w Hz) as Hall.
    cbn [run_procedure handles_acquired procedure_calls] in Hall.
    rewrite Hall, Hc1. now rewrite <- app_assoc.
Qed.

Lemma power_off_five_steps_witness :
  fst (power_off_seq0 world_ready) = 0 /\
  calls (snd (power_off_seq0 world_ready))
  = [ Cpld_set_switch 11 CPLD_COM_SW_CLOSE 0;
      Cpld_set_switch 11 CPLD_COM_SW_EN 0;
      Dac5820_set_power 13 DAC5820_CH_A DAC5820_POW_OFF_100K;
      Cpld_set_switch 11 CPLD_COM_PSU 0;
      Cpld_set_switch 11 CPLD_HVEN 0 ].
Proof.
  pose proof (power_off_five_steps world_ready) as H.
  cbv zeta in H. destruct H as (_ & Hz & Hall).
  assert (Hr : fst (power_off_seq0 world_ready) = 0).
  { apply Hz. split; [discriminate|]. intros j Hj. cbn. lia. }
  specialize (Hall Hr). vm_compute in Hr, Hall. vm_compute.
  exact (conj Hr Hall).
Defined.

(** ** Sequence lookup *)

Lemma seq_scan_entries (seq_name : string) (last : power_seq) :
  name last = None ->
  forall entries : list power_seq,
    Forall (fun s => name s <> None) entries ->
    exists s : power_seq,
      seq_scan seq_name (entries ++ [last]) = Some s /\
      find (named seq_name) (entries ++ [last])
      = match name s with
        | Some _ => Some s
        | None => None
        end.
Proof.
  intros Hlast entries. induction entries as [|e es IH]; intros Hall.
  - exists last. cbn. unfold named. rewrite Hlast. auto.
  - inversion Hall as [|e' es' He Hes]; subst.
    cbn [app seq_scan find]. unfold named at 1.
    destruct (name e) as [m|] eqn:Em; [|congruence].
    destruct (String.eqb seq_name m) eqn:Eq.
    + exists e. rewrite Em. auto.
    + exact (IH Hes).
Qed.

(** On a terminated table the lookup by name is the linear search for the
    first entry of that name; a line is logged when there is none. *)
Lemma get_power_seq_in_find (tbl : list power_seq) (seq_name : string)
      (rest : list string) (w : world) :
  terminated tbl ->
  get_power_seq_in tbl (seq_name :: rest) w
  = (find (named seq_name) tbl,
     match find (named seq_name) tbl with
     | Some _ => w
     | None => add_log (Seq_not_found seq_name) w
     end).
Proof.
  intros (entries & last & -> & Hlast & Hall).
  destruct (seq_scan_entries seq_name last Hlast entries Hall)
    as (s & Hs & Hfind).
  unfold get_power_seq_in, bind. rewrite Hs, Hfind.
  destruct (name s) as [n|] eqn:En; cbn; rewrite En; reflexivity.
Qed.

Lemma seqs_terminated : terminated seqs.
Proof.
  exists [mk_power_seq (Some "seq0") (Some power_on_seq0)
                       (Some power_off_seq0)
                       (array_init MAX17135_NB_TIMINGS
                                   [8; 2; 11; 3; 0; 0; 0; 0])],
         (mk_power_seq None None None (array_init MAX17135_NB_TIMINGS [])).
  split; [reflexivity|]. split; [reflexivity|].
  constructor; [discriminate | constructor].
Qed.

Lemma find_named_none (seq_name : string) (tbl : list power_seq) :
  find (named seq_name) tbl = None <->
  forall s : power_seq, In s tbl -> name s <> Some seq_name.
Proof.
  split.
  - intros Hnone s Hin Hname.
    apply (find_none _ _ Hnone) in Hin. unfold named in Hin.
    rewrite Hname, String.eqb_refl in Hin. discriminate.
  - intros H. induction tbl as [|e es IH]; [reflexivity|].
    cbn. unfold named at 1. destruct (name e) as [n|] eqn:En.
    + destruct (String.eqb_spec seq_name n) as [->|Hne].
      * exfalso. apply (H e); [now left | exact En].
      * apply IH. intros s Hs. apply H. now right.
    + apply IH. intros s Hs. apply H. now right.
Qed.

Lemma seqs_timing (s : power_seq) :
  In s seqs ->
  List.length (timing s) = 8%nat /\
  Forall (fun t => 0 <= t <= 255) (timing s).
Proof.
  intros [<- | [<- | []]]; (split; [reflexivity|]);
    cbn; repeat constructor; lia.
Qed.

(** C9.  Sequence resolution.  Without a name the result is the first entry
    of the table, which is seq0.  With a name the result is that of the
    linear search for the first entry called exactly so; it is NULL exactly
    when no entry has that name, and then the name is logged.  Every sequence
    returned has a timing profile of 8 values, each between 0 and 255. *)
Theorem get_power_seq_resolves :
  (forall w : world,
     get_power_seq [] w = (hd_error seqs, w) /\
     option_map name (hd_error seqs) = Some (Some "seq0")) /\
  (forall (seq_name : string) (rest : list string) (w : world),
     fst (get_power_seq (seq_name :: rest) w) = find (named seq_name) seqs /\
     (fst (get_power_seq (seq_name :: rest) w) = None <->
      forall s : power_seq, In s seqs -> name s <> Some seq_name) /\
     snd (get_power_seq (seq_name :: rest) w)
     = match find (named seq_name) seqs with
       | Some _ => w
       | None => add_log (Seq_not_found seq_name) w
       end) /\
  (forall (argv : list string) (w : world) (s : power_seq),
     fst (get_power_seq argv w) = Some s ->
     List.length (timing s) = 8%nat /\
     Forall (fun t => 0 <= t <= 255) (timing s)).
Proof.
  split; [|split].
  - intros w. split; reflexivity.
  - intros seq_name rest w. unfold get_power_seq.
    rewrite (get_power_seq_in_find seqs seq_name rest w seqs_terminated).
    cbn [fst snd]. split; [reflexivity|]. split; [|reflexivity].
    apply find_named_none.
  - intros argv w s Hs. apply seqs_timing.
    destruct argv as [|seq_name rest].
    + cbn in Hs. injection Hs as <-. now left.
    + unfold get_power_seq in Hs.
      rewrite (get_power_seq_in_find seqs seq_name rest w seqs_terminated)
        in Hs.
      cbn [fst] in Hs. now apply find_some in Hs.
Qed.

Lemma get_power_seq_resolves_witness :
  option_map timing (fst (get_power_seq ["seq0"] (boot (fun _ => 0))))
  = Some [8; 2; 11; 3; 0; 0; 0; 0] /\
  fst (get_power_seq ["seq1"] (boot (fun _ => 0))) = None /\
  List.length [8; 2; 11; 3; 0; 0; 0; 0] = 8%nat.
Proof.
  destruct get_power_seq_resolves as (_ & _ & Htiming).
  split; [vm_compute; reflexivity|]. split; [vm_compute; reflexivity|].
  exact (proj1 (Htiming ["seq0"] (boot (fun _ => 0)) _ eq_refl)).
Defined.

(** ** The power command *)

Lemma get_power_seq_seq0 (rest : list string) (w : world) :
  get_power_seq ("seq0" :: rest) w
  = (Some (mk_power_seq (Some "seq0") (Some power_on_seq0)
                        (Some power_off_seq0)
                        (array_init MAX17135_NB_TIMINGS
                                    [8; 2; 11; 3; 0; 0; 0; 0])), w).
Proof. reflexivity. Qed.

(** C10.  A VCOM argument that [atoi] reads as a value outside 0..255 does
    not make the power-on command fail: a line is logged and the command is
    the power-on procedure run with the default value 128.  In particular,
    with the handles there and the nine calls succeeding, it returns 0 after
    the nine operations, the DAC output being given 128. *)
Theorem run_power_bad_vcom_defaults (atoi : string -> Z) (w : world)
        (vcom_arg : string) (more : list string) :
  atoi vcom_arg < 0 \/ 255 < atoi vcom_arg ->
  let w0 := add_log (Line "invalid vcom value (valid range: 0-255)") w in
  let r := power_on_seq0 128 w0 in
  let cmd := run_power atoi ("on" :: "seq0" :: vcom_arg :: more) w in
  cmd = (fst r, if fst r =? 0 then add_log (Power true) (snd r) else snd r) /\
  (handles_ready (Power_on 128) w0 ->
   answers_ok (handles_acquired (Power_on 128) w0) 9 ->
   fst cmd = 0 /\
   calls (snd cmd)
   = calls (handles_acquired (Power_on 128) w0)
     ++ procedure_calls (Power_on 128) w0).
Proof.
  intros Hout. cbv zeta.
  assert (Heq : run_power atoi ("on" :: "seq0" :: vcom_arg :: more) w
                = (fst (power_on_seq0 128 (add_log
                     (Line "invalid vcom value (valid range: 0-255)") w)),
                   if fst (power_on_seq0 128 (add_log
                     (Line "invalid vcom value (valid range: 0-255)") w)) =? 0
                   then add_log (Power true)
                          (snd (power_on_seq0 128 (add_log
                     (Line "invalid vcom value (valid range: 0-255)") w)))
                   else snd (power_on_seq0 128 (add_log
                     (Line "invalid vcom value (valid range: 0-255)") w)))).
  { assert (Ht : (atoi vcom_arg <? 0) || (atoi vcom_arg >? 255) = true).
    { apply orb_true_iff. rewrite Z.ltb_lt, Z.gtb_lt. lia. }
    unfold run_power.
    change (get_on_off_opt "on") with 1.
    change (1 <? 0) with false. change (negb (1 =? 0)) with true.
    cbv iota. unfold bind. rewrite get_power_seq_seq0.
    cbn [fst snd on]. rewrite Ht. cbn [LOG ret fst snd emit].
    change (to_char 128) with 128. unfold ret.
    destruct (fst (power_on_seq0 128 _) =? 0); reflexivity. }
  split; [exact Heq|].
  intros Hready Hok. rewrite Heq. cbn [fst snd].
  assert (Hz : fst (run_procedure (Power_on 128)
                      (add_log (Line "invalid vcom value (valid range: 0-255)")
                               w)) = 0).
  { apply run_procedure_zero. split; assumption. }
  pose proof (run_procedure_all _ _ Hz) as Hall.
  cbn [run_procedure] in Hz, Hall. rewrite Hz. cbn. split; [reflexivity|].
  exact Hall.
Qed.

Lemma run_power_bad_vcom_defaults_witness :
  let cmd := run_power atoi_dec ["on"; "seq0"; "300"] world_ready in
  fst cmd = 0 /\
  In (Dac5820_output 13 DAC5820_CH_A 128) (calls (snd cmd)).
Proof.
  assert (Hout : atoi_dec "300" < 0 \/ 255 < atoi_dec "300").
  { right. vm_compute. reflexivity. }
  destruct (run_power_bad_vcom_defaults atoi_dec world_ready "300" [] Hout)
    as [_ Hrun].
  assert (Hready : handles_ready (Power_on 128)
            (add_log (Line "invalid vcom value (valid range: 0-255)")
                     world_ready)).
  { split; discriminate. }
  assert (Hok : answers_ok
            (handles_acquired (Power_on 128)
               (add_log (Line "invalid vcom value (valid range: 0-255)")
                        world_ready)) 9).
  { intros j Hj. vm_compute. discriminate. }
  destruct (Hrun Hready Hok) as [Hz Hc].
  cbv zeta. split; [exact Hz|].
  rewrite Hc. vm_compute. tauto.
Defined.

(** ** Transfers: what the primitives do to the world *)

Lemma hit_empty (w : world) (a : nat) : hit w a (a + 0) = false.
Proof.
  unfold hit. destruct (sigint_at w) as [n|]; [|reflexivity].
  destruct (Nat.ltb_spec a n), (Nat.leb_spec n (a + 0)); cbn; try reflexivity.
  lia.
Qed.

Lemma hit_split (w : world) (a i j : nat) :
  hit w a (a + i) || hit w (a + i) (a + i + j) = hit w a (a + (i + j)).
Proof.
  unfold hit. destruct (sigint_at w) as [n|]; [|reflexivity].
  destruct (Nat.ltb_spec a n), (Nat.leb_spec n (a + i)),
    (Nat.ltb_spec (a + i) n), (Nat.leb_spec n (a + i + j)),
    (Nat.leb_spec n (a + (i + j))); cbn; try reflexivity; lia.
Qed.

Lemma step_refl (P : log_line -> Prop) (w : world) : step P w w [].
Proof.
  unfold step. rewrite app_nil_r. cbn [List.length].
  rewrite hit_empty, orb_false_r. repeat split.
  exists []. now rewrite app_nil_r.
Qed.

Lemma step_trans (P : log_line -> Prop) (w1 w2 w3 : world)
      (cs1 cs2 : list call) :
  step P w1 w2 cs1 -> step P w2 w3 cs2 -> step P w1 w3 (cs1 ++ cs2).
Proof.
  intros (Hc1 & He1 & Hs1 & Ha1 & l1 & Hl1 & HP1)
         (Hc2 & He2 & Hs2 & Ha2 & l2 & Hl2 & HP2).
  unfold step. repeat split.
  - now rewrite Hc2, Hc1, app_assoc.
  - now rewrite He2, He1.
  - now rewrite Hs2, Hs1.
  - rewrite Ha2, Ha1, Hc1, !length_app, <- orb_assoc. f_equal.
    unfold hit at 2. rewrite Hs1. fold (hit w1
      (List.length (calls w1) + List.length cs1)
      (List.length (calls w1) + List.length cs1 + List.length cs2)).
    apply hit_split.
  - exists (l1 ++ l2). split.
    + now rewrite Hl2, Hl1, app_assoc.
    + now apply Forall_app.
Qed.

(** A change of the world that leaves calls, answers, signal and log alone. *)
Lemma step_quiet (P : log_line -> Prop) (w w' : world) :
  calls w' = calls w -> env w' = env w -> sigint_at w' = sigint_at w ->
  g_abort w' = g_abort w -> log w' = log w ->
  step P w w' [].
Proof.
  intros Hc He Hs Ha Hl. unfold step. cbn [List.length].
  rewrite hit_empty, orb_false_r, app_nil_r. repeat split; try assumption.
  exists []. rewrite app_nil_r. auto.
Qed.

Lemma step_log (P : log_line -> Prop) (l : log_line) (w : world) :
  P l -> step P w (add_log l w) [].
Proof.
  intros HP. unfold step. cbn [List.length].
  rewrite hit_empty, orb_false_r, app_nil_r. repeat split.
  exists [l]. split; [reflexivity | now constructor].
Qed.

Lemma step_lib (P : log_line -> Prop) (c : call) (w : world) :
  P (Line "abort!") -> step P w (snd (lib c w)) [c].
Proof.
  intros HP. unfold step, lib, deliver, hit. cbn [snd List.length].
  change (calls (add_call c w)) with (calls w ++ [c]).
  change (sigint_at (add_call c w)) with (sigint_at w).
  rewrite length_app. cbn [List.length].
  destruct (sigint_at w) as [n|] eqn:Es.
  - assert (Hb : (List.length (calls w) <? n)%nat
                 && (n <=? List.length (calls w) + 1)%nat
                 = Nat.eqb n (List.length (calls w) + 1)).
    { destruct (Nat.ltb_spec (List.length (calls w)) n),
        (Nat.leb_spec n (List.length (calls w) + 1)),
        (Nat.eqb_spec n (List.length (calls w) + 1)); cbn;
        try reflexivity; lia. }
    rewrite Hb.
    destruct (Nat.eqb n (List.length (calls w) + 1)).
    + cbn. rewrite Es, orb_true_r. repeat split.
      exists [Line "abort!"]. split; [reflexivity | now constructor].
    + cbn. rewrite Es, orb_false_r. repeat split.
      exists []. now rewrite app_nil_r.
  - cbn. rewrite Es, orb_false_r. repeat split.
    exists []. now rewrite app_nil_r.
Qed.

Lemma lib_files (c : call) (w : world) :
  fd_in (snd (lib c w)) = fd_in w /\
  fd_out (snd (lib c w)) = fd_out w /\
  ee_in (snd (lib c w)) = ee_in w /\
  mallocs (snd (lib c w)) = mallocs w.
Proof.
  unfold lib, deliver. cbn [snd].
  destruct (sigint_at (add_call c w)) as [n|]; [|repeat split].
  destruct (Nat.eqb n (List.length (calls (add_call c w)))); repeat split.
Qed.

(** Closed forms of the file and device primitives. *)

Lemma read_eq (buffer : list byte) (n : Z) (w : world) :
  read buffer n w =
  let a := env w (List.length (calls w)) in
  let w1 := snd (lib (Fd_read n) w) in
  if a <? 0 then ((a, buffer), w1)
  else
    let got := firstn (Z.to_nat (Z.min a n)) (fd_in w) in
    ((Z.of_nat (List.length got), blit got buffer),
     set_fd_in (skipn (List.length got) (fd_in w)) w1).
Proof.
  unfold read, bind. cbn [fst snd]. rewrite lib_result. cbv zeta.
  destruct (env w (List.length (calls w)) <? 0); [reflexivity|].
  destruct (lib_files (Fd_read n) w) as (Hin & _). now rewrite Hin.
Qed.

Lemma eeprom_read_eq (eeprom : ptr) (buffer : list byte) (n : Z)
      (w : world) :
  eeprom_read eeprom buffer n w =
  let a := env w (List.length (calls w)) in
  let w1 := snd (lib (Eeprom_read eeprom n) w) in
  if a <? 0 then ((a, buffer), w1)
  else
    let got := firstn (Z.to_nat (Z.min a n)) (ee_in w) in
    ((Z.of_nat (List.length got), blit got buffer),
     set_ee_in (skipn (List.length got) (ee_in w)) w1).
Proof.
  unfold eeprom_read, bind. cbn [fst snd]. rewrite lib_result. cbv zeta.
  destruct (env w (List.length (calls w)) <? 0); [reflexivity|].
  destruct (lib_files (Eeprom_read eeprom n) w) as (_ & _ & Hin & _).
  now rewrite Hin.
Qed.

Lemma write_eq (buffer : list byte) (n : Z) (w : world) :
  write buffer n w =
  let a := env w (List.length (calls w)) in
  let w1 := snd (lib (Fd_write (firstn (Z.to_nat n) buffer)) w) in
  if a <? 0 then (a, w1)
  else
    let put := firstn (Z.to_nat (Z.min a n)) buffer in
    (Z.of_nat (List.length put), set_fd_out (fd_out w ++ put) w1).
Proof.
  unfold write, bind. cbn [fst snd]. rewrite lib_result. cbv zeta.
  destruct (env w (List.length (calls w)) <? 0); [reflexivity|].
  destruct (lib_files (Fd_write (firstn (Z.to_nat n) buffer)) w)
    as (_ & Hout & _).
  now rewrite Hout.
Qed.

Lemma step_set_fd_in (P : log_line -> Prop) (l : list byte) (w : world) :
  step P w (set_fd_in l w) [].
Proof. now apply step_quiet. Qed.

Lemma step_set_fd_out (P : log_line -> Prop) (l : list byte) (w : world) :
  step P w (set_fd_out l w) [].
Proof. now apply step_quiet. Qed.

Lemma step_set_ee_in (P : log_line -> Prop) (l : list byte) (w : world) :
  step P w (set_ee_in l w) [].
Proof. now apply step_quiet. Qed.

Lemma step_set_mallocs (P : log_line -> Prop)
      (l : list (option (list byte))) (w : world) :
  step P w (set_mallocs l w) [].
Proof. now apply step_quiet. Qed.

Lemma step_one (P : log_line -> Prop) (w w1 w2 : world) (c : call) :
  step P w w1 [c] -> step P w1 w2 [] -> step P w w2 [c].
Proof.
  intros H1 H2. pose proof (step_trans P w w1 w2 [c] [] H1 H2) as H.
  now rewrite app_nil_r in H.
Qed.

Lemma step_read (P : log_line -> Prop) (buffer : list byte) (n : Z)
      (w : world) :
  P (Line "abort!") -> step P w (snd (read buffer n w)) [Fd_read n].
Proof.
  intros HP. rewrite read_eq. cbv zeta.
  destruct (env w (List.length (calls w)) <? 0); cbn [snd].
  - now apply step_lib.
  - eapply step_one; [now apply step_lib | apply step_set_fd_in].
Qed.

Lemma step_eeprom_read (P : log_line -> Prop) (eeprom : ptr)
      (buffer : list byte) (n : Z) (w : world) :
  P (Line "abort!") ->
  step P w (snd (eeprom_read eeprom buffer n w)) [Eeprom_read eeprom n].
Proof.
  intros HP. rewrite eeprom_read_eq. cbv zeta.
  destruct (env w (List.length (calls w)) <? 0); cbn [snd].
  - now apply step_lib.
  - eapply step_one; [now apply step_lib | apply step_set_ee_in].
Qed.

Lemma step_write (P : log_line -> Prop) (buffer : list byte) (n : Z)
      (w : world) :
  P (Line "abort!") ->
  step P w (snd (write buffer n w)) [Fd_write (firstn (Z.to_nat n) buffer)].
Proof.
  intros HP. rewrite write_eq. cbv zeta.
  destruct (env w (List.length (calls w)) <? 0); cbn [snd].
  - now apply step_lib.
  - eapply step_one; [now apply step_lib | apply step_set_fd_out].
Qed.

Lemma step_eeprom_write (P : log_line -> Prop) (eeprom : ptr)
      (buffer : list byte) (n : Z) (w : world) :
  P (Line "abort!") ->
  step P w (snd (eeprom_write eeprom buffer n w))
       [Eeprom_write eeprom (firstn (Z.to_nat n) buffer)].
Proof. intros HP. unfold eeprom_write. now apply step_lib. Qed.

Lemma step_eeprom_seek (P : log_line -> Prop) (eeprom : ptr) (pos : Z)
      (w : world) :
  P (Line "abort!") ->
  step P w (snd (eeprom_seek eeprom pos w)) [Eeprom_seek eeprom pos].
Proof. intros HP. unfold eeprom_seek, bind, ret. cbn. now apply step_lib. Qed.

(** The sign of what the primitives return is the sign of the answer. *)

Lemma read_sign (buffer : list byte) (n : Z) (w : world) :
  (fst (fst (read buffer n w)) <? 0) = (env w (List.length (calls w)) <? 0).
Proof.
  rewrite read_eq. cbv zeta.
  destruct (env w (List.length (calls w)) <? 0) eqn:E; cbn [fst]; [exact E|].
  apply Z.ltb_ge. lia.
Qed.

Lemma eeprom_read_sign (eeprom : ptr) (buffer : list byte) (n : Z)
      (w : world) :
  (fst (fst (eeprom_read eeprom buffer n w)) <? 0)
  = (env w (List.length (calls w)) <? 0).
Proof.
  rewrite eeprom_read_eq. cbv zeta.
  destruct (env w (List.length (calls w)) <? 0) eqn:E; cbn [fst]; [exact E|].
  apply Z.ltb_ge. lia.
Qed.

Lemma write_sign (buffer : list byte) (n : Z) (w : world) :
  (fst (write buffer n w) <? 0) = (env w (List.length (calls w)) <? 0).
Proof.
  rewrite write_eq. cbv zeta.
  destruct (env w (List.length (calls w)) <? 0) eqn:E; cbn [fst]; [exact E|].
  apply Z.ltb_ge. lia.
Qed.

Lemma eeprom_write_result (eeprom : ptr) (buffer : list byte) (n : Z)
      (w : world) :
  fst (eeprom_write eeprom buffer n w) = env w (List.length (calls w)).
Proof. reflexivity. Qed.

(** Blocks keep their size. *)

Lemma length_blit (src buf : list byte) :
  (List.length src <= List.length buf)%nat ->
  List.length (blit src buf) = List.length buf.
Proof.
  intros H. unfold blit. rewrite length_app, length_skipn. lia.
Qed.

Lemma firstn_blit (src buf : list byte) :
  firstn (List.length src) (blit src buf) = src.
Proof.
  unfold blit. rewrite firstn_app, Nat.sub_diag, firstn_all. cbn.
  apply app_nil_r.
Qed.

Lemma eeprom_read_buffer (eeprom : ptr) (buffer : list byte) (n : Z)
      (w : world) :
  n <= Z.of_nat (List.length buffer) ->
  List.length (snd (fst (eeprom_read eeprom buffer n w)))
  = List.length buffer.
Proof.
  intros Hn. rewrite eeprom_read_eq. cbv zeta.
  destruct (env w (List.length (calls w)) <? 0); cbn [fst snd];
    [reflexivity|].
  apply length_blit. rewrite length_firstn. lia.
Qed.

Lemma read_buffer (buffer : list byte) (n : Z) (w : world) :
  n <= Z.of_nat (List.length buffer) ->
  List.length (snd (fst (read buffer n w))) = List.length buffer.
Proof.
  intros Hn. rewrite read_eq. cbv zeta.
  destruct (env w (List.length (calls w)) <? 0); cbn [fst snd];
    [reflexivity|].
  apply length_blit. rewrite length_firstn. lia.
Qed.

Lemma length_malloc (size : Z) (w : world) (block : list byte) :
  fst (malloc size w) = Some block ->
  List.length block = Z.to_nat size.
Proof.
  unfold malloc. destruct (mallocs w) as [|[junk|] rest]; cbn [fst];
    try discriminate.
  intros H. injection H as <-.
  rewrite length_firstn, length_app, repeat_length. lia.
Qed.

(** ** Transfers: the loops, round by round *)

Section Transfer_rounds.

Variable SIZE_BITS : Z.
Variable eeprom : ptr.
Variable opt : eeprom_opt.

Let zeros : list byte := repeat x00 (Z.to_nat N_ZEROS).

Lemma log_eeprom_progress_eq (total rem : Z) (msg : string) (w : world) :
  log_eeprom_progress SIZE_BITS total rem msg w
  = (tt, add_log (progress_line SIZE_BITS total rem msg) w).
Proof.
  unfold log_eeprom_progress, progress_line.
  destruct (total =? 0); reflexivity.
Qed.

Lemma pad_loop_done (fuel : nat) (w : world) :
  pad_loop SIZE_BITS fuel eeprom zeros 0 opt w = (0, w).
Proof. destruct fuel; reflexivity. Qed.

Lemma pad_loop_round (fuel : nat) (left : Z) (w : world) :
  left <> 0 ->
  pad_loop SIZE_BITS (S fuel) eeprom zeros left opt w =
  let n := Z.min N_ZEROS left in
  let w1 := add_log (progress_line SIZE_BITS (data_size opt)
                       (to_size SIZE_BITS (left - n)) "Padding") w in
  let wr := eeprom_write eeprom zeros n w1 in
  if fst wr <? 0 then (-1, snd wr)
  else pad_loop SIZE_BITS fuel eeprom zeros
                (to_size SIZE_BITS (left - n)) opt (snd wr).
Proof.
  intros Hl. cbn [pad_loop]. apply Z.eqb_neq in Hl. rewrite Hl.
  unfold bind. rewrite log_eeprom_progress_eq. cbn [fst snd]. cbv zeta.
  destruct (fst (eeprom_write eeprom zeros (Z.min N_ZEROS left) _) <? 0);
    reflexivity.
Qed.

Lemma rw_loop_exit (fuel : nat) (write_file : bool) (msg : string)
      (buffer : list byte) (left ret_ : Z) (w : world) :
  rw_continues left ret_ w = false ->
  rw_loop SIZE_BITS fuel eeprom write_file opt msg buffer left ret_ w
  = (ret_, w).
Proof.
  unfold rw_continues. intros H. destruct fuel; cbn [rw_loop]; now rewrite H.
Qed.

Lemma rw_loop_failed (fuel : nat) (write_file : bool) (msg : string)
      (buffer : list byte) (left : Z) (w : world) :
  rw_loop SIZE_BITS fuel eeprom write_file opt msg buffer left (-1) w
  = (-1, w).
Proof.
  apply rw_loop_exit. unfold rw_continues.
  now rewrite andb_false_r.
Qed.

Lemma rw_continues_true (left ret_ : Z) (w : world) :
  rw_continues left ret_ w = true ->
  left <> 0 /\ ret_ = 0 /\ g_abort w = false.
Proof.
  unfold rw_continues. rewrite !andb_true_iff, !negb_true_iff.
  rewrite Z.eqb_neq, Z.eqb_eq. tauto.
Qed.

(** A round from the EEPROM to the file. *)
Lemma rw_loop_e2f (fuel : nat) (msg : string) (buffer : list byte)
      (left ret_ : Z) (w : world) :
  rw_continues left ret_ w = true ->
  rw_loop SIZE_BITS (S fuel) eeprom true opt msg buffer left ret_ w =
  let rwsz := rw_size left in
  let w1 := add_log (progress_line SIZE_BITS (data_size opt)
                       (to_size SIZE_BITS (left - rwsz)) msg) w in
  let rd := eeprom_read eeprom buffer rwsz w1 in
  if fst (fst rd) <? 0 then (-1, snd rd)
  else
    let wr := write (snd (fst rd)) rwsz (snd rd) in
    if fst wr <? 0 then (-1, snd wr)
    else rw_loop SIZE_BITS fuel eeprom true opt msg (snd (fst rd))
                 (to_size SIZE_BITS (left - rwsz)) 0 (snd wr).
Proof.
  intros H. cbn [rw_loop]. fold (rw_continues left ret_ w). rewrite H.
  apply rw_continues_true in H. destruct H as (_ & -> & _).
  fold (rw_size left).
  unfold bind. rewrite log_eeprom_progress_eq. cbn [fst snd]. cbv zeta.
  destruct (fst (fst (eeprom_read eeprom buffer (rw_size left) _)) <? 0).
  - unfold ret. cbn [fst snd]. apply rw_loop_failed.
  - cbn [fst snd].
    destruct (fst (write _ (rw_size left) _) <? 0).
    + unfold ret. cbn [fst snd]. apply rw_loop_failed.
    + reflexivity.
Qed.

(** A round from the file to the EEPROM. *)
Lemma rw_loop_f2e (fuel : nat) (msg : string) (buffer : list byte)
      (left ret_ : Z) (w : world) :
  rw_continues left ret_ w = true ->
  rw_loop SIZE_BITS (S fuel) eeprom false opt msg buffer left ret_ w =
  let rwsz := rw_size left in
  let rd := read buffer rwsz w in
  let rdsz := fst (fst rd) in
  if rdsz <? 0 then (-1, snd rd)
  else
    let w1 := add_log (progress_line SIZE_BITS (data_size opt)
                         (to_size SIZE_BITS (left - rdsz)) msg) (snd rd) in
    let wr := eeprom_write eeprom (snd (fst rd)) rdsz w1 in
    if fst wr <? 0 then (-1, snd wr)
    else if rdsz =? rwsz then
      rw_loop SIZE_BITS fuel eeprom false opt msg (snd (fst rd))
              (to_size SIZE_BITS (left - rwsz)) 0 (snd wr)
    else if negb (zero_padding opt =? 0) then
      pad_eeprom SIZE_BITS eeprom (to_size SIZE_BITS (left - rdsz)) opt
                 (add_log (Text "\n") (snd wr))
    else (0, snd wr).
Proof.
  intros H. cbn [rw_loop]. fold (rw_continues left ret_ w). rewrite H.
  apply rw_continues_true in H. destruct H as (_ & -> & _).
  fold (rw_size left).
  unfold bind. cbn [fst snd]. cbv zeta.
  destruct (fst (fst (read buffer (rw_size left) w)) <? 0) eqn:Hneg.
  - assert (Hge : (fst (fst (read buffer (rw_size left) w)) >=? 0) = false).
    { apply Z.ltb_lt in Hneg. rewrite Z.geb_leb. apply Z.leb_gt. lia. }
    rewrite Hge. unfold ret. cbn [fst snd]. apply rw_loop_failed.
  - assert (Hge : (fst (fst (read buffer (rw_size left) w)) >=? 0) = true).
    { apply Z.ltb_ge in Hneg. rewrite Z.geb_leb. apply Z.leb_le. lia. }
    rewrite Hge. rewrite log_eeprom_progress_eq. cbn [fst snd].
    destruct (fst (eeprom_write eeprom _ _ _) <? 0).
    + apply rw_loop_failed.
    + destruct (fst (fst (read buffer (rw_size left) w)) =? rw_size left);
        [reflexivity|].
      destruct (negb (zero_padding opt =? 0)).
      * unfold LOG_PRINT. cbn [fst snd].
        rewrite rw_loop_exit by reflexivity.
        now destruct (pad_eeprom _ _ _ _ _).
      * unfold ret. cbn [fst snd]. now rewrite rw_loop_exit by reflexivity.
Qed.

End Transfer_rounds.

(** ** Transfers: the progress line *)







Lemma rw_size_range (left : Z) :
  0 < left -> 0 < rw_size left <= left /\ rw_size left <= buffer_size.
Proof.
  intros H. unfold rw_size, buffer_size.
  destruct (Z.gtb_spec left 4096); lia.
Qed.


Section Progress.

Variable SIZE_BITS : Z.
Variable eeprom : ptr.
Variable opt : eeprom_opt.

Let total : Z := data_size opt.

Hypothesis Hbits : 0 <= SIZE_BITS.
Hypothesis Hfit : total * 100 < 2 ^ SIZE_BITS.



Let P : log_line -> Prop := progress_ok total.

Lemma abort_line_ok : P (Line "abort!").
Proof. exact I. Qed.




End Progress.

(** ** Transfers: from the EEPROM to the file *)

Lemma step_calls (P : log_line -> Prop) (w w' : world) (cs : list call) :
  step P w w' cs -> calls w' = calls w ++ cs.
Proof. now intros (H & _). Qed.

Lemma step_env (P : log_line -> Prop) (w w' : world) (cs : list call) :
  step P w w' cs -> env w' = env w.
Proof. now intros (_ & H & _). Qed.

Lemma step_sigint (P : log_line -> Prop) (w w' : world) (cs : list call) :
  step P w w' cs -> sigint_at w' = sigint_at w.
Proof. now intros (_ & _ & H & _). Qed.

Lemma step_abort (P : log_line -> Prop) (w w' : world) (cs : list call) :
  step P w w' cs ->
  g_abort w'
  = g_abort w
    || hit w (List.length (calls w)) (List.length (calls w) + List.length cs).
Proof. now intros (_ & _ & _ & H & _). Qed.

Lemma step_length (P : log_line -> Prop) (w w' : world) (cs : list call) :
  step P w w' cs ->
  List.length (calls w') = (List.length (calls w) + List.length cs)%nat.
Proof. intros H. rewrite (step_calls _ _ _ _ H). apply length_app. Qed.

Lemma rounds_zero (chunk : Z) : 0 < chunk -> rounds chunk 0 = 0%nat.
Proof.
  intros H. unfold rounds. rewrite Z.div_small by lia. reflexivity.
Qed.

Lemma rounds_next (chunk left : Z) :
  0 < chunk -> 0 < left ->
  rounds chunk left = S (rounds chunk (left - Z.min chunk left)).
Proof.
  intros Hc Hl. unfold rounds.
  destruct (Z.le_gt_cases chunk left) as [Hle|Hgt].
  - rewrite Z.min_l by lia.
    replace (left + chunk - 1) with ((left - chunk + chunk - 1) + 1 * chunk)
      by lia.
    rewrite Z.div_add by lia.
    rewrite Z2Nat.inj_add; [|apply Z.div_pos; lia | lia].
    cbn. lia.
  - rewrite Z.min_r by lia.
    replace (left - left + chunk - 1) with (chunk - 1) by lia.
    rewrite (Z.div_small (chunk - 1)) by lia.
    replace (left + chunk - 1) with ((left - 1) + 1 * chunk) by lia.
    rewrite Z.div_add by lia. rewrite (Z.div_small (left - 1)) by lia.
    reflexivity.
Qed.

Lemma rw_size_min (left : Z) : rw_size left = Z.min buffer_size left.
Proof. unfold rw_size. destruct (Z.gtb_spec left buffer_size); lia. Qed.

Lemma all_ok_tail (e : nat -> Z) (base i k : nat) :
  all_ok e base (i + k) -> all_ok e (base + i) k.
Proof.
  intros H j Hj. rewrite <- Nat.add_assoc. apply H. lia.
Qed.

Lemma all_ok_at (e : nat -> Z) (base i k : nat) :
  all_ok e base k -> (i < k)%nat -> 0 <= e (base + i)%nat.
Proof. intros H Hi. now apply H. Qed.

Section To_file.

Variable SIZE_BITS : Z.
Variable eeprom : ptr.
Variable opt : eeprom_opt.
Variable msg : string.

(** The world after the read of a round and after its write. *)
Let after_read (buffer : list byte) (left : Z) (w : world) :=
  eeprom_read eeprom buffer (rw_size left)
    (add_log (progress_line SIZE_BITS (data_size opt)
                (to_size SIZE_BITS (left - rw_size left)) msg) w).

Let after_write (buffer : list byte) (left : Z) (w : world) :=
  write (snd (fst (after_read buffer left w))) (rw_size left)
        (snd (after_read buffer left w)).

Lemma e2f_read_step (buffer : list byte) (left : Z) (w : world) :
  step any_line w (snd (after_read buffer left w))
       [Eeprom_read eeprom (rw_size left)].
Proof.
  unfold after_read.
  eapply (step_trans any_line w _ _ [] [Eeprom_read eeprom (rw_size left)]);
    [| apply step_eeprom_read; exact I].
  apply step_log. exact I.
Qed.

Lemma e2f_write_step (buffer : list byte) (left : Z) (w : world) :
  step any_line w (snd (after_write buffer left w))
       [Eeprom_read eeprom (rw_size left);
        Fd_write (firstn (Z.to_nat (rw_size left))
                         (snd (fst (after_read buffer left w))))].
Proof.
  unfold after_write.
  eapply (step_trans any_line w _ _ [Eeprom_read eeprom (rw_size left)]
                     [Fd_write _]);
    [| apply step_write; exact I].
  apply e2f_read_step.
Qed.

Lemma e2f_read_sign (buffer : list byte) (left : Z) (w : world) :
  (fst (fst (after_read buffer left w)) <? 0)
  = (env w (List.length (calls w)) <? 0).
Proof. unfold after_read. now rewrite eeprom_read_sign. Qed.

Lemma e2f_write_sign (buffer : list byte) (left : Z) (w : world) :
  (fst (after_write buffer left w) <? 0)
  = (env w (List.length (calls w) + 1) <? 0).
Proof.
  unfold after_write. rewrite write_sign.
  pose proof (e2f_read_step buffer left w) as H.
  rewrite (step_env _ _ _ _ H), (step_length _ _ _ _ H). reflexivity.
Qed.

Lemma e2f_read_fd_out (buffer : list byte) (left : Z) (w : world) :
  fd_out (snd (after_read buffer left w)) = fd_out w.
Proof.
  unfold after_read. rewrite eeprom_read_eq. cbv zeta.
  match goal with
  | |- context [lib ?c ?w1] =>
      destruct (lib_files c w1) as (_ & Hout & _)
  end.
  destruct (_ <? 0); cbn [snd]; [exact Hout|].
  unfold set_ee_in. cbn [fd_out]. exact Hout.
Qed.

(** What a round that succeeds adds to the file. *)
Lemma e2f_write_fd_out (buffer : list byte) (left : Z) (w : world) :
  0 <= env w (List.length (calls w) + 1) ->
  fd_out (snd (after_write buffer left w))
  = fd_out w
    ++ firstn (Z.to_nat (Z.min (env w (List.length (calls w) + 1))
                               (rw_size left)))
              (snd (fst (after_read buffer left w))).
Proof.
  intros Hok. unfold after_write. rewrite write_eq. cbv zeta.
  pose proof (e2f_read_step buffer left w) as H.
  rewrite (step_env _ _ _ _ H), (step_length _ _ _ _ H).
  cbn [List.length].
  destruct (Z.ltb_spec (env w (List.length (calls w) + 1)) 0); [lia|].
  cbn [snd]. unfold set_fd_out. cbn [fd_out].
  now rewrite e2f_read_fd_out.
Qed.

Lemma e2f_round (fuel : nat) (buffer : list byte) (left : Z) (w : world) :
  rw_continues left 0 w = true ->
  rw_loop SIZE_BITS (S fuel) eeprom true opt msg buffer left 0 w =
  if env w (List.length (calls w)) <? 0
  then (-1, snd (after_read buffer left w))
  else if env w (List.length (calls w) + 1) <? 0
  then (-1, snd (after_write buffer left w))
  else rw_loop SIZE_BITS fuel eeprom true opt msg
               (snd (fst (after_read buffer left w)))
               (to_size SIZE_BITS (left - rw_size left)) 0
               (snd (after_write buffer left w)).
Proof.
  intros H. rewrite rw_loop_e2f by exact H. cbv zeta.
  fold (after_read buffer left w). fold (after_write buffer left w).
  now rewrite e2f_read_sign, e2f_write_sign.
Qed.

Hypothesis Hbits : 0 <= SIZE_BITS.

Lemma to_size_left (left x : Z) :
  0 <= x <= left -> left < 2 ^ SIZE_BITS -> to_size SIZE_BITS x = x.
Proof. intros H1 H2. unfold to_size. apply Z.mod_small. lia. Qed.

(** Without failure or signal every round is run: the loop returns 0. *)
Lemma e2f_all (fuel : nat) :
  forall (buffer : list byte) (left : Z) (w : world),
    g_abort w = false -> sigint_at w = None ->
    0 <= left < 2 ^ SIZE_BITS -> (Z.to_nat left < fuel)%nat ->
    all_ok (env w) (List.length (calls w)) (2 * rounds buffer_size left) ->
    let r := rw_loop SIZE_BITS fuel eeprom true opt msg buffer left 0 w in
    fst r = 0 /\
    List.length (calls (snd r))
    = (List.length (calls w) + 2 * rounds buffer_size left)%nat.
Proof.
  induction fuel as [|fuel IH]; intros buffer left w Ha Hs Hl Hf Hok;
    [lia|].
  cbv zeta. destruct (Z.eq_dec left 0) as [->|Hnz].
  - rewrite rw_loop_exit by reflexivity.
    rewrite rounds_zero by reflexivity. cbn. split; [reflexivity | lia].
  - assert (Hc : rw_continues left 0 w = true).
    { unfold rw_continues. rewrite Ha.
      destruct (Z.eqb_spec left 0); [contradiction | reflexivity]. }
    assert (Hpos : 0 < left) by lia.
    pose proof (rounds_next buffer_size left ltac:(reflexivity) Hpos) as Hr.
    rewrite <- rw_size_min in Hr.
    destruct (rw_size_range left Hpos) as [Hrw _].
    rewrite e2f_round by exact Hc.
    rewrite Hr in Hok.
    pose proof (all_ok_at _ _ 0%nat _ Hok ltac:(lia)) as H0.
    pose proof (all_ok_at _ _ 1%nat _ Hok ltac:(lia)) as H1.
    rewrite Nat.add_0_r in H0.
    destruct (Z.ltb_spec (env w (List.length (calls w))) 0); [lia|].
    destruct (Z.ltb_spec (env w (List.length (calls w) + 1)) 0); [lia|].
    rewrite (to_size_left left) by lia.
    pose proof (e2f_write_step buffer left w) as Hst.
    destruct (IH (snd (fst (after_read buffer left w)))
                 (left - rw_size left)
                 (snd (after_write buffer left w))) as [Hres Hlen].
    + rewrite (step_abort _ _ _ _ Hst), Ha. unfold hit. now rewrite Hs.
    + now rewrite (step_sigint _ _ _ _ Hst).
    + lia.
    + lia.
    + rewrite (step_env _ _ _ _ Hst), (step_length _ _ _ _ Hst).
      cbn [List.length]. apply all_ok_tail.
      replace (2 + 2 * rounds buffer_size (left - rw_size left))%nat
        with (2 * S (rounds buffer_size (left - rw_size left)))%nat by lia.
      exact Hok.
    + split; [exact Hres|].
      rewrite Hlen, (step_length _ _ _ _ Hst), Hr. cbn [List.length]. lia.
Qed.

(** The first negative answer ends the loop with -1, at that call. *)
Lemma e2f_fail (fuel : nat) :
  forall (buffer : list byte) (left : Z) (w : world) (j : nat),
    g_abort w = false -> sigint_at w = None ->
    0 <= left < 2 ^ SIZE_BITS -> (Z.to_nat left < fuel)%nat ->
    (j < 2 * rounds buffer_size left)%nat ->
    fails_first (env w) (List.length (calls w)) j ->
    let r := rw_loop SIZE_BITS fuel eeprom true opt msg buffer left 0 w in
    fst r = -1 /\
    List.length (calls (snd r)) = (List.length (calls w) + j + 1)%nat.
Proof.
  induction fuel as [|fuel IH]; intros buffer left w j Ha Hs Hl Hf Hj Hff;
    [lia|].
  cbv zeta. destruct (Z.eq_dec left 0) as [->|Hnz].
  { rewrite rounds_zero in Hj by reflexivity. lia. }
  assert (Hc : rw_continues left 0 w = true).
  { unfold rw_continues. rewrite Ha.
    destruct (Z.eqb_spec left 0); [contradiction | reflexivity]. }
  assert (Hpos : 0 < left) by lia.
  pose proof (rounds_next buffer_size left ltac:(reflexivity) Hpos) as Hr.
  rewrite <- rw_size_min in Hr.
  destruct (rw_size_range left Hpos) as [Hrw _].
  rewrite e2f_round by exact Hc.
  destruct Hff as [Hok Hneg].
  destruct j as [|[|j]].
  - rewrite Nat.add_0_r in Hneg.
    destruct (Z.ltb_spec (env w (List.length (calls w))) 0); [|lia].
    cbn [fst snd]. split; [reflexivity|].
    rewrite (step_length _ _ _ _ (e2f_read_step buffer left w)).
    cbn [List.length]. lia.
  - pose proof (Hok 0%nat ltac:(lia)) as H0. rewrite Nat.add_0_r in H0.
    destruct (Z.ltb_spec (env w (List.length (calls w))) 0); [lia|].
    destruct (Z.ltb_spec (env w (List.length (calls w) + 1)) 0); [|lia].
    cbn [fst snd]. split; [reflexivity|].
    rewrite (step_length _ _ _ _ (e2f_write_step buffer left w)).
    cbn [List.length]. lia.
  - pose proof (Hok 0%nat ltac:(lia)) as H0. rewrite Nat.add_0_r in H0.
    pose proof (Hok 1%nat ltac:(lia)) as H1.
    destruct (Z.ltb_spec (env w (List.length (calls w))) 0); [lia|].
    destruct (Z.ltb_spec (env w (List.length (calls w) + 1)) 0); [lia|].
    rewrite (to_size_left left) by lia.
    pose proof (e2f_write_step buffer left w) as Hst.
    destruct (IH (snd (fst (after_read buffer left w)))
                 (left - rw_size left)
                 (snd (after_write buffer left w)) j) as [Hres Hlen].
    + rewrite (step_abort _ _ _ _ Hst), Ha. unfold hit. now rewrite Hs.
    + now rewrite (step_sigint _ _ _ _ Hst).
    + lia.
    + lia.
    + lia.
    + rewrite (step_env _ _ _ _ Hst), (step_length _ _ _ _ Hst).
      cbn [List.length]. split.
      * intros i Hi.
        replace (List.length (calls w) + 2 + i)%nat
          with (List.length (calls w) + (S (S i)))%nat by lia.
        apply Hok. lia.
      * replace (List.length (calls w) + 2 + j)%nat
          with (List.length (calls w) + (S (S j)))%nat by lia.
        exact Hneg.
    + split; [exact Hres|].
      rewrite Hlen, (step_length _ _ _ _ Hst). cbn [List.length]. lia.
Qed.

Lemma e2f_read_buffer (buffer : list byte) (left : Z) (w : world) :
  rw_size left <= Z.of_nat (List.length buffer) ->
  List.length (snd (fst (after_read buffer left w))) = List.length buffer.
Proof. intros H. unfold after_read. now apply eeprom_read_buffer. Qed.

(** SIGINT arriving when [k] more rounds have been run: the loop runs these
    rounds, sees the flag and ends, returning 0. *)
Lemma e2f_until_abort (k : nat) :
  forall (fuel : nat) (buffer : list byte) (left : Z) (w : world),
    List.length buffer = Z.to_nat buffer_size ->
    match k with
    | O => g_abort w = true
    | S _ => g_abort w = false /\
             sigint_at w = Some (List.length (calls w) + 2 * k)%nat
    end ->
    Z.of_nat k * buffer_size < left < 2 ^ SIZE_BITS ->
    (k < fuel)%nat ->
    (forall i : nat,
       (i < k)%nat ->
       0 <= env w (List.length (calls w) + 2 * i) /\
       buffer_size <= env w (List.length (calls w) + 2 * i + 1)) ->
    let r := rw_loop SIZE_BITS fuel eeprom true opt msg buffer left 0 w in
    fst r = 0 /\
    g_abort (snd r) = true /\
    List.length (calls (snd r)) = (List.length (calls w) + 2 * k)%nat /\
    exists moved : list byte,
      fd_out (snd r) = fd_out w ++ moved /\
      List.length moved = (k * Z.to_nat buffer_size)%nat.
Proof.
  induction k as [|k IH]; intros fuel buffer left w Hb Hk Hl Hf Hans;
    cbv zeta.
  - rewrite rw_loop_exit.
    2:{ unfold rw_continues. rewrite Hk. now rewrite andb_false_r. }
    cbn [fst snd]. repeat split; [exact Hk | lia |].
    exists []. now rewrite app_nil_r.
  - destruct fuel as [|fuel]; [lia|].
    destruct Hk as [Ha Hs].
    assert (Hbig : buffer_size < left) by (unfold buffer_size in *; lia).
    assert (Hrw : rw_size left = buffer_size).
    { unfold rw_size. destruct (Z.gtb_spec left buffer_size); lia. }
    assert (Hc : rw_continues left 0 w = true).
    { unfold rw_continues. rewrite Ha.
      destruct (Z.eqb_spec left 0);
        [unfold buffer_size in *; lia | reflexivity]. }
    rewrite e2f_round by exact Hc.
    destruct (Hans 0%nat ltac:(lia)) as [H0 H1].
    rewrite Nat.mul_0_r, Nat.add_0_r in H0, H1.
    destruct (Z.ltb_spec (env w (List.length (calls w))) 0); [lia|].
    destruct (Z.ltb_spec (env w (List.length (calls w) + 1)) 0);
      [unfold buffer_size in *; lia|].
    rewrite (to_size_left left) by (unfold buffer_size in *; lia).
    pose proof (e2f_write_step buffer left w) as Hst.
    pose proof (step_length _ _ _ _ Hst) as Hlen. cbn [List.length] in Hlen.
    pose proof (e2f_read_buffer buffer left w
                  ltac:(rewrite Hrw, Hb; unfold buffer_size; lia)) as Hb'.
    destruct (IH fuel (snd (fst (after_read buffer left w)))
                 (left - rw_size left)
                 (snd (after_write buffer left w)))
      as (Hres & Hab & Hcalls & moved & Hout & Hmoved).
    + now rewrite Hb'.
    + rewrite (step_abort _ _ _ _ Hst), (step_sigint _ _ _ _ Hst), Ha, Hlen.
      unfold hit. rewrite Hs. cbn [List.length orb].
      destruct k as [|k].
      * destruct (Nat.ltb_spec (List.length (calls w))
                               (List.length (calls w) + 2 * 1));
          [|lia].
        destruct (Nat.leb_spec (List.length (calls w) + 2 * 1)
                               (List.length (calls w) + 2)); [|lia].
        reflexivity.
      * split.
        -- destruct (Nat.leb_spec (List.length (calls w) + 2 * S (S k))
                                  (List.length (calls w) + 2)); [lia|].
           apply andb_false_r.
        -- f_equal. lia.
    + rewrite Hrw. unfold buffer_size in *. lia.
    + lia.
    + intros i Hi. rewrite (step_env _ _ _ _ Hst), Hlen.
      destruct (Hans (S i) ltac:(lia)) as [Hi0 Hi1].
      replace (List.length (calls w) + 2 + 2 * i)%nat
        with (List.length (calls w) + 2 * S i)%nat by lia.
      split; assumption.
    + split; [exact Hres|]. split; [exact Hab|]. split; [lia|].
      exists (firstn (Z.to_nat buffer_size)
                     (snd (fst (after_read buffer left w))) ++ moved).
      split.
      * rewrite Hout, (e2f_write_fd_out buffer left w) by lia.
        rewrite Hrw, Z.min_r by lia. now rewrite app_assoc.
      * rewrite length_app, length_firstn, Hb', Hb, Hmoved. lia.
Qed.

End To_file.

(** ** Transfers: the whole function *)

Section Whole_transfer.

Variable SIZE_BITS : Z.
Variable eeprom : ptr.
Variable opt : eeprom_opt.

Lemma rw_file_eeprom_run (write_file : bool) (w : world)
      (junk : list byte) (rest : list (option (list byte))) :
  mallocs w = Some junk :: rest ->
  rw_file_eeprom SIZE_BITS eeprom write_file opt w =
  let buffer := firstn (Z.to_nat buffer_size)
                       (junk ++ repeat x00 (Z.to_nat buffer_size)) in
  let w1 := snd (eeprom_seek eeprom (skip opt) (set_mallocs rest w)) in
  let r := rw_loop SIZE_BITS (S (Z.to_nat (data_size opt))) eeprom
                   write_file opt
                   (if write_file then "Reading" else "Writing")
                   buffer (data_size opt) 0 w1 in
  (fst r, add_log (Text "\n") (snd r)).
Proof.
  intros Hm. unfold rw_file_eeprom, bind, malloc. rewrite Hm.
  cbn [fst snd]. reflexivity.
Qed.

Lemma seek_step (w : world) (rest : list (option (list byte))) :
  step any_line w
       (snd (eeprom_seek eeprom (skip opt) (set_mallocs rest w)))
       [Eeprom_seek eeprom (skip opt)].
Proof.
  eapply (step_trans any_line w _ _ [] [Eeprom_seek eeprom (skip opt)]);
    [| apply step_eeprom_seek; exact I].
  apply step_set_mallocs.
Qed.

Lemma seek_fd_out (w : world) (rest : list (option (list byte))) :
  fd_out (snd (eeprom_seek eeprom (skip opt) (set_mallocs rest w)))
  = fd_out w.
Proof.
  unfold eeprom_seek, bind, ret. cbn [fst snd].
  now destruct (lib_files (Eeprom_seek eeprom (skip opt))
                          (set_mallocs rest w)) as (_ & H & _).
Qed.

Lemma length_buffer (junk : list byte) :
  List.length (firstn (Z.to_nat buffer_size)
                      (junk ++ repeat x00 (Z.to_nat buffer_size)))
  = Z.to_nat buffer_size.
Proof. rewrite length_firstn, length_app, repeat_length. lia. Qed.

End Whole_transfer.

(** ** Transfers: from the file to the EEPROM, and padding *)

Lemma firstn_repeat_le (b : byte) (n m : nat) :
  (n <= m)%nat -> firstn n (repeat b m) = repeat b n.
Proof.
  revert m. induction n as [|n IH]; intros m H; [reflexivity|].
  destruct m as [|m]; [lia|]. cbn. f_equal. apply IH. lia.
Qed.

Lemma zero_chunks_concat (fuel : nat) :
  forall m : Z,
    (Z.to_nat m <= fuel)%nat ->
    List.concat (zero_chunks fuel m) = repeat x00 (Z.to_nat m).
Proof.
  induction fuel as [|fuel IH]; intros m H.
  - cbn. replace (Z.to_nat m) with 0%nat by lia. reflexivity.
  - cbn [zero_chunks]. destruct (Z.leb_spec m 0).
    + replace (Z.to_nat m) with 0%nat by lia. reflexivity.
    + cbn [List.concat]. rewrite IH by (unfold N_ZEROS; lia).
      rewrite <- repeat_app. f_equal. unfold N_ZEROS. lia.
Qed.

Lemma zero_chunks_small (fuel : nat) :
  forall m : Z,
    Forall (fun c => (List.length c <= 64)%nat /\ Forall (eq x00) c)
           (zero_chunks fuel m).
Proof.
  induction fuel as [|fuel IH]; intros m; [constructor|].
  cbn [zero_chunks]. destruct (Z.leb_spec m 0); [constructor|].
  constructor; [|apply IH]. split.
  - rewrite repeat_length. unfold N_ZEROS. lia.
  - apply Forall_forall. intros x Hx. symmetry. eapply repeat_spec. exact Hx.
Qed.

Section To_device.

Variable SIZE_BITS : Z.
Variable eeprom : ptr.
Variable opt : eeprom_opt.

Hypothesis Hbits : 0 <= SIZE_BITS.

(** Padding with every write succeeding: the zeros go out chunk by chunk
    and 0 is returned. *)
Lemma pad_loop_all (fuel : nat) :
  forall (left : Z) (w : world),
    0 <= left < 2 ^ SIZE_BITS -> (Z.to_nat left <= fuel)%nat ->
    all_ok (env w) (List.length (calls w)) (rounds N_ZEROS left) ->
    let r := pad_loop SIZE_BITS fuel eeprom
                      (repeat x00 (Z.to_nat N_ZEROS)) left opt w in
    fst r = 0 /\
    step any_line w (snd r)
         (map (Eeprom_write eeprom) (zero_chunks fuel left)).
Proof.
  induction fuel as [|fuel IH]; intros left w Hl Hf Hok; cbv zeta.
  - assert (left = 0) as -> by lia. cbn. split; [reflexivity|].
    apply step_refl.
  - destruct (Z.eq_dec left 0) as [->|Hnz].
    + rewrite pad_loop_done. cbn. split; [reflexivity | apply step_refl].
    + rewrite pad_loop_round by exact Hnz. cbv zeta.
      assert (Hn : 0 < Z.min N_ZEROS left <= left)
        by (unfold N_ZEROS; lia).
      rewrite (to_size_left SIZE_BITS Hbits left) by lia.
      rewrite (rounds_next N_ZEROS left) in Hok by (unfold N_ZEROS; lia).
      pose proof (all_ok_at _ _ 0%nat _ Hok ltac:(lia)) as H0.
      rewrite Nat.add_0_r in H0.
      set (w1 := add_log _ w).
      assert (Hst : step any_line w
                      (snd (eeprom_write eeprom
                              (repeat x00 (Z.to_nat N_ZEROS))
                              (Z.min N_ZEROS left) w1))
                      [Eeprom_write eeprom
                         (repeat x00 (Z.to_nat (Z.min N_ZEROS left)))]).
      { rewrite <- (firstn_repeat_le x00 (Z.to_nat (Z.min N_ZEROS left))
                                     (Z.to_nat N_ZEROS)) by lia.
        eapply (step_trans any_line w _ _ [] [_]);
          [| apply step_eeprom_write; exact I].
        apply step_log. exact I. }
      rewrite eeprom_write_result.
      change (env w1) with (env w). change (calls w1) with (calls w).
      destruct (Z.ltb_spec (env w (List.length (calls w))) 0); [lia|].
      destruct (IH (left - Z.min N_ZEROS left)
                   (snd (eeprom_write eeprom
                           (repeat x00 (Z.to_nat N_ZEROS))
                           (Z.min N_ZEROS left) w1)))
        as [Hres Hrest].
      * lia.
      * lia.
      * rewrite (step_env _ _ _ _ Hst), (step_length _ _ _ _ Hst).
        cbn [List.length]. apply all_ok_tail. exact Hok.
      * split; [exact Hres|].
        cbn [zero_chunks]. destruct (Z.leb_spec left 0); [lia|].
        cbn [map].
        apply (step_trans any_line w _ _ [_] _ Hst Hrest).
Qed.

(** A round whose read comes short. *)
Lemma f2e_short_round (fuel : nat) (msg : string) (buffer : list byte)
      (left : Z) (w : world) :
  rw_continues left 0 w = true ->
  0 < left < 2 ^ SIZE_BITS ->
  0 <= env w (List.length (calls w)) ->
  let got := firstn (Z.to_nat (Z.min (env w (List.length (calls w)))
                                     (rw_size left))) (fd_in w) in
  Z.of_nat (List.length got) < rw_size left ->
  0 <= env w (List.length (calls w) + 1) ->
  let rest := left - Z.of_nat (List.length got) in
  let r := rw_loop SIZE_BITS (S fuel) eeprom false opt msg buffer left 0 w in
  exists w2 : world,
    step any_line w w2 [Fd_read (rw_size left); Eeprom_write eeprom got] /\
    r = if negb (zero_padding opt =? 0)
        then pad_eeprom SIZE_BITS eeprom rest opt (add_log (Text "\n") w2)
        else (0, w2).
Proof.
  intros Hc Hl Ha got Hshort Hw rest r. subst r.
  destruct (rw_size_range left ltac:(lia)) as [Hrw _].
  rewrite rw_loop_f2e by exact Hc. cbv zeta.
  assert (Hrd : read buffer (rw_size left) w
                = ((Z.of_nat (List.length got), blit got buffer),
                   set_fd_in (skipn (List.length got) (fd_in w))
                             (snd (lib (Fd_read (rw_size left)) w)))).
  { rewrite read_eq. cbv zeta.
    destruct (Z.ltb_spec (env w (List.length (calls w))) 0); [lia|].
    reflexivity. }
  pose proof (step_read any_line buffer (rw_size left) w I) as Hst1.
  rewrite Hrd in *. cbn [fst snd] in *.
  destruct (Z.ltb_spec (Z.of_nat (List.length got)) 0); [lia|].
  rewrite (to_size_left SIZE_BITS Hbits left) by lia.
  set (w1 := add_log _ (set_fd_in _ _)).
  assert (Hst2 : step any_line w
                   (snd (eeprom_write eeprom (blit got buffer)
                                      (Z.of_nat (List.length got)) w1))
                   [Fd_read (rw_size left); Eeprom_write eeprom got]).
  { replace (Eeprom_write eeprom got)
      with (Eeprom_write eeprom
              (firstn (Z.to_nat (Z.of_nat (List.length got)))
                      (blit got buffer)))
      by (rewrite Nat2Z.id, firstn_blit; reflexivity).
    eapply (step_trans any_line w _ _ [Fd_read (rw_size left)] [_]);
      [| apply step_eeprom_write; exact I].
    eapply (step_trans any_line w _ _ [Fd_read (rw_size left)] []);
      [exact Hst1 | apply step_log; exact I]. }
  rewrite eeprom_write_result.
  assert (Hlen1 : List.length (calls w1) = (List.length (calls w) + 1)%nat).
  { change (calls w1)
      with (calls (set_fd_in (skipn (List.length got) (fd_in w))
                             (snd (lib (Fd_read (rw_size left)) w)))).
    rewrite (step_length _ _ _ _ Hst1). reflexivity. }
  assert (Henv1 : env w1 = env w).
  { change (env w1)
      with (env (set_fd_in (skipn (List.length got) (fd_in w))
                           (snd (lib (Fd_read (rw_size left)) w)))).
    exact (step_env _ _ _ _ Hst1). }
  rewrite Henv1, Hlen1.
  destruct (Z.ltb_spec (env w (List.length (calls w) + 1)) 0); [lia|].
  destruct (Z.eqb_spec (Z.of_nat (List.length got)) (rw_size left)); [lia|].
  eexists. split; [exact Hst2|]. reflexivity.
Qed.

End To_device.

(** ** The eeprom command *)



Section Eeprom_command.

Variable SIZE_BITS : Z.
Variable eeprom : ptr.

Hypothesis Hbits : 0 <= SIZE_BITS.

(** The size the command gives the job: the EEPROM's when the option is
    zero. *)
Let sized (opt : eeprom_opt) (esize : Z) : eeprom_opt :=
  if data_size opt =? 0
  then mk_eeprom_opt (i2c_addr opt) esize (skip opt) (zero_padding opt)
                     (block_size opt) (page_size opt)
  else opt.




(** A job of size zero moves nothing and succeeds. *)
Lemma rw_file_eeprom_nothing (opt : eeprom_opt) (write_file : bool)
      (w : world) (junk : list byte) (rest : list (option (list byte))) :
  data_size opt = 0 ->
  mallocs w = Some junk :: rest ->
  let r := rw_file_eeprom SIZE_BITS eeprom write_file opt w in
  fst r = 0 /\ calls (snd r) = calls w ++ [Eeprom_seek eeprom (skip opt)].
Proof.
  intros Hz Hm. cbv zeta.
  rewrite (rw_file_eeprom_run SIZE_BITS eeprom opt write_file w junk rest Hm).
  cbv zeta. rewrite Hz. rewrite rw_loop_exit by reflexivity.
  cbn [fst snd]. split; [reflexivity|].
  change (calls (add_log (Text "\n") ?x)) with (calls x).
  exact (step_calls _ _ _ _ (seek_step eeprom opt w rest)).
Qed.

End Eeprom_command.

(** ** Transfers without a signal: the rounds that move their chunk *)

Lemma lib_quiet (c : call) (w : world) :
  sigint_at w = None -> snd (lib c w) = add_call c w.
Proof.
  intros H. unfold lib, deliver. cbn [snd].
  change (sigint_at (add_call c w)) with (sigint_at w). now rewrite H.
Qed.

Lemma left_after_zero (left : Z) : 0 <= left -> left_after left 0 = left.
Proof. intros H. unfold left_after. cbn. lia. Qed.

Lemma left_after_next (left : Z) (j : nat) :
  0 < left ->
  left_after (left - rw_size left) j = left_after left (S j).
Proof.
  intros H. unfold left_after, rw_size, buffer_size.
  destruct (Z.gtb_spec left 4096); lia.
Qed.

Lemma left_after_positive (left : Z) (j k : nat) :
  0 <= left -> (k <= rounds buffer_size left)%nat -> (j < k)%nat ->
  0 < left_after left j.
Proof.
  intros Hl Hk Hj. unfold left_after, rounds, buffer_size in *.
  assert (Hq : Z.of_nat k <= (left + 4096 - 1) / 4096).
  { rewrite <- (Z2Nat.id ((left + 4096 - 1) / 4096))
      by (apply Z.div_pos; lia).
    lia. }
  assert (Hm : 4096 * ((left + 4096 - 1) / 4096) <= left + 4096 - 1)
    by (apply Z.mul_div_le; lia).
  nia.
Qed.


Section Whole_rounds.

Variable SIZE_BITS : Z.
Variable eeprom : ptr.
Variable opt : eeprom_opt.
Variable msg : string.

Hypothesis Hbits : 0 <= SIZE_BITS.

Let total : Z := data_size opt.







End Whole_rounds.

(** ** Transfers to the EEPROM: the rounds that read their whole chunk *)

Lemma hit_first (w : world) (a i j : nat) :
  hit w a (a + (i + j)) = false -> hit w a (a + i) = false.
Proof.
  unfold hit. destruct (sigint_at w) as [n|]; [|reflexivity].
  destruct (Nat.ltb_spec a n), (Nat.leb_spec n (a + (i + j))),
    (Nat.leb_spec n (a + i)); cbn; try reflexivity; try discriminate; lia.
Qed.

Lemma hit_second (w w' : world) (a i j : nat) :
  sigint_at w' = sigint_at w ->
  hit w a (a + (i + j)) = false -> hit w' (a + i) (a + i + j) = false.
Proof.
  unfold hit. intros ->. destruct (sigint_at w) as [n|]; [|reflexivity].
  destruct (Nat.ltb_spec a n), (Nat.leb_spec n (a + (i + j))),
    (Nat.ltb_spec (a + i) n), (Nat.leb_spec n (a + i + j)); cbn;
    try reflexivity; try discriminate; lia.
Qed.

Lemma eeprom_written_app (cs1 cs2 : list call) :
  eeprom_written (cs1 ++ cs2) = eeprom_written cs1 ++ eeprom_written cs2.
Proof.
  induction cs1 as [|c cs1 IH]; [reflexivity|].
  destruct c; cbn [app eeprom_written]; try exact IH.
  now rewrite IH, app_assoc.
Qed.

Lemma eeprom_written_chunks (eeprom : ptr) (chunks : list (list byte)) :
  eeprom_written (map (Eeprom_write eeprom) chunks) = List.concat chunks.
Proof.
  induction chunks as [|c chunks IH]; [reflexivity|].
  cbn [map eeprom_written List.concat]. now rewrite IH.
Qed.

Lemma firstn_plus (a b : nat) (l : list byte) :
  firstn (a + b) l = firstn a l ++ firstn b (skipn a l).
Proof.
  revert l. induction a as [|a IH]; intros l; [reflexivity|].
  destruct l as [|x l]; [now rewrite skipn_nil, !firstn_nil|].
  cbn [Nat.add firstn skipn app]. now rewrite IH.
Qed.

Lemma whole_chunks_written (eeprom : ptr) (k : nat) :
  forall (left : Z) (file : list byte),
    0 <= left ->
    eeprom_written (whole_chunks eeprom k left file)
    = firstn (Z.to_nat (left - left_after left k)) file.
Proof.
  induction k as [|k IH]; intros left file Hl.
  - rewrite left_after_zero by exact Hl. now rewrite Z.sub_diag.
  - cbn [whole_chunks eeprom_written].
    destruct (Z.eq_dec left 0) as [->|Hnz].
    + change (rw_size 0) with 0. cbn [Z.to_nat firstn skipn app].
      rewrite IH by lia. unfold left_after, buffer_size.
      f_equal; lia.
    + assert (Hpos : 0 < left) by lia.
      destruct (rw_size_range left Hpos) as [Hrw Hrw'].
      rewrite IH by lia. rewrite left_after_next by exact Hpos.
      assert (Hle : left_after left (S k) <= left - rw_size left).
      { rewrite <- (left_after_next left k Hpos). unfold left_after.
        unfold buffer_size. lia. }
      replace (Z.to_nat (left - left_after left (S k)))
        with (Z.to_nat (rw_size left)
              + Z.to_nat (left - rw_size left - left_after left (S k)))%nat
        by lia.
      now rewrite firstn_plus.
Qed.

Section Whole_rounds_to_device.

Variable SIZE_BITS : Z.
Variable eeprom : ptr.
Variable opt : eeprom_opt.
Variable msg : string.

Hypothesis Hbits : 0 <= SIZE_BITS.

(** A round to the EEPROM whose read delivers the whole chunk and whose
    write succeeds. *)
Lemma f2e_whole_round (fuel : nat) (buffer : list byte) (left : Z)
      (w : world) :
  rw_continues left 0 w = true ->
  0 < left < 2 ^ SIZE_BITS ->
  rw_size left <= env w (List.length (calls w)) ->
  (Z.to_nat (rw_size left) <= List.length (fd_in w))%nat ->
  0 <= env w (List.length (calls w) + 1) ->
  let got := firstn (Z.to_nat (rw_size left)) (fd_in w) in
  exists w2 : world,
    step any_line w w2 [Fd_read (rw_size left); Eeprom_write eeprom got] /\
    fd_in w2 = skipn (Z.to_nat (rw_size left)) (fd_in w) /\
    rw_loop SIZE_BITS (S fuel) eeprom false opt msg buffer left 0 w
    = rw_loop SIZE_BITS fuel eeprom false opt msg (blit got buffer)
              (left - rw_size left) 0 w2 /\
    (sigint_at w = None ->
     log w2
     = log w
       ++ [progress_line SIZE_BITS (data_size opt) (left - rw_size left)
                         msg]).
Proof.
  intros Hc Hl Ha Hfile Hw got.
  destruct (rw_size_range left ltac:(lia)) as [Hrw _].
  rewrite rw_loop_f2e by exact Hc. cbv zeta.
  assert (Hgot : List.length got = Z.to_nat (rw_size left)).
  { unfold got. rewrite length_firstn. lia. }
  assert (Hrd : read buffer (rw_size left) w
                = ((Z.of_nat (List.length got), blit got buffer),
                   set_fd_in (skipn (List.length got) (fd_in w))
                             (snd (lib (Fd_read (rw_size left)) w)))).
  { rewrite read_eq. cbv zeta.
    destruct (Z.ltb_spec (env w (List.length (calls w))) 0); [lia|].
    rewrite Z.min_r by lia. reflexivity. }
  pose proof (step_read any_line buffer (rw_size left) w I) as Hst1.
  rewrite Hrd in *. cbn [fst snd] in *.
  destruct (Z.ltb_spec (Z.of_nat (List.length got)) 0); [lia|].
  rewrite (to_size_left SIZE_BITS Hbits left) by lia.
  set (w1 := add_log _ (set_fd_in _ _)).
  assert (Hst2 : step any_line w
                   (snd (eeprom_write eeprom (blit got buffer)
                                      (Z.of_nat (List.length got)) w1))
                   [Fd_read (rw_size left); Eeprom_write eeprom got]).
  { replace (Eeprom_write eeprom got)
      with (Eeprom_write eeprom
              (firstn (Z.to_nat (Z.of_nat (List.length got)))
                      (blit got buffer)))
      by (rewrite Nat2Z.id, firstn_blit; reflexivity).
    eapply (step_trans any_line w _ _ [Fd_read (rw_size left)] [_]);
      [| apply step_eeprom_write; exact I].
    eapply (step_trans any_line w _ _ [Fd_read (rw_size left)] []);
      [exact Hst1 | apply step_log; exact I]. }
  rewrite eeprom_write_result.
  assert (Hlen1 : List.length (calls w1) = (List.length (calls w) + 1)%nat).
  { change (calls w1)
      with (calls (set_fd_in (skipn (List.length got) (fd_in w))
                             (snd (lib (Fd_read (rw_size left)) w)))).
    rewrite (step_length _ _ _ _ Hst1). reflexivity. }
  assert (Henv1 : env w1 = env w).
  { change (env w1)
      with (env (set_fd_in (skipn (List.length got) (fd_in w))
                           (snd (lib (Fd_read (rw_size left)) w)))).
    exact (step_env _ _ _ _ Hst1). }
  rewrite Henv1, Hlen1.
  destruct (Z.ltb_spec (env w (List.length (calls w) + 1)) 0); [lia|].
  destruct (Z.eqb_spec (Z.of_nat (List.length got)) (rw_size left)); [|lia].
  rewrite (to_size_left SIZE_BITS Hbits left) by lia.
  eexists. split; [exact Hst2|]. split; [|split; [reflexivity|]].
  - unfold eeprom_write.
    destruct (lib_files (Eeprom_write eeprom
                           (firstn (Z.to_nat (Z.of_nat (List.length got)))
                                   (blit got buffer))) w1) as (Hin & _).
    rewrite Hin. unfold w1. cbn [fd_in add_log set_fd_in]. now rewrite Hgot.
  - intros Hs. unfold eeprom_write, w1.
    rewrite (lib_quiet (Fd_read (rw_size left)) w Hs).
    rewrite lib_quiet by exact Hs.
    cbn [log add_call add_log set_fd_in]. rewrite Hgot, Z2Nat.id by lia.
    reflexivity.
Qed.

(** [k] such rounds, with no SIGINT meanwhile. *)
Lemma f2e_whole_rounds (k : nat) :
  forall (fuel : nat) (buffer : list byte) (left : Z) (w : world),
    g_abort w = false ->
    hit w (List.length (calls w)) (List.length (calls w) + 2 * k) = false ->
    0 <= left < 2 ^ SIZE_BITS ->
    (k <= rounds buffer_size left)%nat -> (k <= fuel)%nat ->
    left - left_after left k <= Z.of_nat (List.length (fd_in w)) ->
    (forall i : nat,
       (i < k)%nat ->
       buffer_size <= env w (List.length (calls w) + 2 * i) /\
       0 <= env w (List.length (calls w) + 2 * i + 1)) ->
    exists (buffer' : list byte) (w' : world),
      rw_loop SIZE_BITS fuel eeprom false opt msg buffer left 0 w
      = rw_loop SIZE_BITS (fuel - k) eeprom false opt msg buffer'
                (left_after left k) 0 w' /\
      step any_line w w' (whole_chunks eeprom k left (fd_in w)) /\
      g_abort w' = false /\
      fd_in w' = skipn (Z.to_nat (left - left_after left k)) (fd_in w) /\
      (sigint_at w = None ->
       log w'
       = log w
         ++ map (fun j => progress_line SIZE_BITS (data_size opt)
                            (left_after left (S j)) msg)
                (seq 0 k)).
Proof.
  induction k as [|k IH]; intros fuel buffer left w Ha Hh Hl Hk Hf Hfile Hans.
  - exists buffer, w. rewrite Nat.sub_0_r, left_after_zero by lia.
    rewrite Z.sub_diag. cbn [whole_chunks Z.to_nat skipn].
    split; [reflexivity|]. split; [apply step_refl|].
    split; [exact Ha|]. split; [reflexivity|].
    intros _. cbn [seq map]. now rewrite app_nil_r.
  - destruct fuel as [|fuel]; [lia|].
    assert (Hpos : 0 < left).
    { pose proof (left_after_positive left 0 (S k) ltac:(lia) Hk ltac:(lia)).
      rewrite left_after_zero in H by lia. exact H. }
    destruct (rw_size_range left Hpos) as [Hrw Hrw'].
    destruct (Hans 0%nat ltac:(lia)) as [H0 H1].
    rewrite Nat.mul_0_r, Nat.add_0_r in H0, H1.
    assert (Hc : rw_continues left 0 w = true).
    { unfold rw_continues. rewrite Ha.
      destruct (Z.eqb_spec left 0); [lia | reflexivity]. }
    assert (Hle : left_after left (S k) <= left - rw_size left).
    { rewrite <- (left_after_next left k Hpos). unfold left_after.
      unfold buffer_size. lia. }
    assert (Hmin : rw_size left <= buffer_size)
      by (rewrite rw_size_min; lia).
    destruct (f2e_whole_round fuel buffer left w Hc ltac:(lia) ltac:(lia)
                ltac:(lia) H1)
      as (w1 & Hst & Hin & Heq & Hlog).
    pose proof (step_length _ _ _ _ Hst) as Hlen. cbn [List.length] in Hlen.
    pose proof (step_env _ _ _ _ Hst) as Henv.
    pose proof (step_sigint _ _ _ _ Hst) as Hsig.
    pose proof (step_abort _ _ _ _ Hst) as Hab. cbn [List.length] in Hab.
    replace (2 * S k)%nat with (2 + 2 * k)%nat in Hh by lia.
    rewrite Ha, (hit_first _ _ _ _ Hh) in Hab. cbn [orb] in Hab.
    destruct (IH fuel (blit (firstn (Z.to_nat (rw_size left)) (fd_in w))
                            buffer)
                 (left - rw_size left) w1 Hab)
      as (b2 & w2 & Heq2 & Hst2 & Hab2 & Hin2 & Hlog2).
    + rewrite Hlen. exact (hit_second w w1 _ _ _ Hsig Hh).
    + lia.
    + rewrite (rounds_next buffer_size left ltac:(reflexivity) Hpos) in Hk.
      rewrite <- rw_size_min in Hk. lia.
    + lia.
    + rewrite Hin, length_skipn, left_after_next by exact Hpos. lia.
    + intros i Hi. rewrite Henv, Hlen.
      destruct (Hans (S i) ltac:(lia)) as [Hi0 Hi1].
      replace (List.length (calls w) + 2 + 2 * i)%nat
        with (List.length (calls w) + 2 * S i)%nat by lia.
      split; assumption.
    + exists b2, w2. rewrite Heq, Heq2.
      rewrite left_after_next in * by exact Hpos.
      cbn [Nat.sub]. split; [reflexivity|].
      split; [|split; [exact Hab2|split]].
      * cbn [whole_chunks]. rewrite Hin in Hst2.
        exact (step_trans any_line w w1 w2 [_; _] _ Hst Hst2).
      * rewrite Hin2, Hin, skipn_skipn. f_equal. lia.
      * intros Hs. rewrite Hlog2 by congruence.
        rewrite Hlog by exact Hs. rewrite <- app_assoc. f_equal.
        cbn [seq map app]. f_equal.
        -- f_equal. rewrite <- (left_after_next left 0 Hpos).
           symmetry. apply left_after_zero. lia.
        -- rewrite <- seq_shift, map_map. apply map_ext. intros j.
           now rewrite left_after_next by exact Hpos.
Qed.

End Whole_rounds_to_device.

Lemma seek_fd_in (eeprom : ptr) (opt : eeprom_opt) (w : world)
      (rest : list (option (list byte))) :
  fd_in (snd (eeprom_seek eeprom (skip opt) (set_mallocs rest w)))
  = fd_in w.
Proof.
  unfold eeprom_seek, bind, ret. cbn [fst snd].
  now destruct (lib_files (Eeprom_seek eeprom (skip opt))
                          (set_mallocs rest w)) as (H & _).
Qed.

Lemma left_after_whole (left : Z) (k : nat) :
  Z.of_nat k * buffer_size <= left ->
  left_after left k = left - Z.of_nat k * buffer_size.
Proof. unfold left_after. lia. Qed.

Lemma rounds_above (left : Z) (k : nat) :
  Z.of_nat k * buffer_size < left -> (k < rounds buffer_size left)%nat.
Proof.
  intros H. unfold rounds, buffer_size in *.
  assert (Hq : Z.of_nat k + 1 <= (left + 4096 - 1) / 4096).
  { apply Z.div_le_lower_bound; lia. }
  lia.
Qed.

(** ** The progress lines of a transfer to the file *)

Section Progress_lines.

Variable SIZE_BITS : Z.

Hypothesis Hbits : 0 <= SIZE_BITS.







End Progress_lines.

(** ** The eeprom command without a signal *)

Section Eeprom_command_quiet.

Variable SIZE_BITS : Z.
Variable eeprom : ptr.


End Eeprom_command_quiet.


(** ** Transfers: the stated properties *)

(** C4, as stated, fails: a transfer of 10000 bytes to the file, interrupted
    when the first chunk has been moved, stops with 4096 bytes in the file
    and the flag set, but returns 0, the value a complete transfer
    returns. *)
Lemma abort_returns_success :
  let aborted :=
    rw_file_eeprom 32 7 true (job 10000 0)
                   (bench plenty (Some 3%nat) [] (filled 10000)) in
  let complete :=
    rw_file_eeprom 32 7 true (job 10000 0)
                   (bench plenty None [] (filled 10000)) in
  g_abort (snd aborted) = true /\
  fd_out (snd aborted) = filled 4096 /\
  fd_out (snd complete) = filled 10000 /\
  fst aborted = 0 /\
  fst aborted = fst complete.
Proof. vm_compute. repeat split. Qed.

(** C4, amended.  In a transfer to the file in which SIGINT arrives when
    exactly [k] whole chunks have been moved (of a larger total), the loop
    starts no further chunk (the calls are the seek and [k] pairs of read and
    write), the file has received exactly [k * 4096] bytes more, the flag is
    set, and the function returns 0, as a complete transfer does: there is no
    distinct outcome for an aborted transfer. *)
Theorem transfer_abort_keeps_chunks (SIZE_BITS : Z) (eeprom : ptr)
        (opt : eeprom_opt) (w : world) (junk : list byte)
        (rest : list (option (list byte))) (k : nat) :
  0 <= SIZE_BITS ->
  mallocs w = Some junk :: rest ->
  g_abort w = false ->
  sigint_at w = Some (List.length (calls w) + 1 + 2 * k)%nat ->
  Z.of_nat k * buffer_size < data_size opt < 2 ^ SIZE_BITS ->
  (forall i : nat,
     (i < k)%nat ->
     0 <= env w (List.length (calls w) + 1 + 2 * i) /\
     buffer_size <= env w (List.length (calls w) + 1 + 2 * i + 1)) ->
  let r := rw_file_eeprom SIZE_BITS eeprom true opt w in
  fst r = 0 /\
  g_abort (snd r) = true /\
  List.length (calls (snd r)) = (List.length (calls w) + 1 + 2 * k)%nat /\
  exists moved : list byte,
    fd_out (snd r) = fd_out w ++ moved /\
    Z.of_nat (List.length moved) = Z.of_nat k * buffer_size.
Proof.
  intros Hbits Hm Ha Hs Hl Hans. cbv zeta.
    rewrite (rw_file_eeprom_run SIZE_BITS eeprom opt true w junk rest Hm). cbv zeta.
  pose proof (seek_step eeprom opt w rest) as Hst.
  pose proof (step_length _ _ _ _ Hst) as Hlen. cbn [List.length] in Hlen.
  destruct (e2f_until_abort SIZE_BITS eeprom opt "Reading" Hbits k
              (S (Z.to_nat (data_size opt)))
              (firstn (Z.to_nat buffer_size)
                      (junk ++ repeat x00 (Z.to_nat buffer_size)))
              (data_size opt)
              (snd (eeprom_seek eeprom (skip opt) (set_mallocs rest w))))
    as (Hres & Hab & Hcalls & moved & Hout & Hmoved).
  - apply length_buffer.
  - rewrite (step_abort _ _ _ _ Hst), (step_sigint _ _ _ _ Hst), Ha, Hlen.
    unfold hit. rewrite Hs. cbn [List.length orb].
    destruct k as [|k].
    + destruct (Nat.ltb_spec (List.length (calls w))
                             (List.length (calls w) + 1 + 2 * 0)); [|lia].
      destruct (Nat.leb_spec (List.length (calls w) + 1 + 2 * 0)
                             (List.length (calls w) + 1)); [|lia].
      reflexivity.
    + split.
      * destruct (Nat.leb_spec (List.length (calls w) + 1 + 2 * S k)
                               (List.length (calls w) + 1)); [lia|].
        apply andb_false_r.
      * reflexivity.
  - exact Hl.
  - unfold buffer_size in *. lia.
  - intros i Hi. rewrite (step_env _ _ _ _ Hst), Hlen. now apply Hans.
  - cbn [fst snd]. split; [exact Hres|]. split; [exact Hab|].
    split; [change (calls (add_log (Text "\n") ?x)) with (calls x); lia|].
    exists moved. split.
    + change (fd_out (add_log (Text "\n") ?x)) with (fd_out x).
      now rewrite Hout, (seek_fd_out eeprom opt).
    + rewrite Hmoved. unfold buffer_size. lia.
Qed.

Lemma transfer_abort_keeps_chunks_witness :
  let w := bench plenty (Some 3%nat) [] (filled 10000) in
  let r := rw_file_eeprom 32 7 true (job 10000 0) w in
  fst r = 0 /\
  g_abort (snd r) = true /\
  List.length (calls (snd r)) = (List.length (calls w) + 1 + 2 * 1)%nat /\
  exists moved : list byte,
    fd_out (snd r) = fd_out w ++ moved /\
    Z.of_nat (List.length moved) = Z.of_nat 1 * buffer_size.
Proof.
  apply (transfer_abort_keeps_chunks 32 7 (job 10000 0)
           (bench plenty (Some 3%nat) [] (filled 10000))
           [] [Some []] 1).
  - lia.
  - reflexivity.
  - reflexivity.
  - reflexivity.
  - cbn. lia.
  - intros i Hi. assert (i = 0%nat) as -> by lia.
    split; vm_compute; discriminate.
Defined.

(** C5.  A transfer to the EEPROM of [data_size] bytes, from the call of
    [rw_file_eeprom] on: the buffer is there, no SIGINT arrives before the
    round in question, [k] rounds read their whole chunk of 4096 bytes and
    write it, and the read of the next round delivers [got], fewer bytes
    than asked for.  With zero_padding set and the writes succeeding, the
    function returns 0 and its calls are: the seek, the [k] whole rounds,
    that read, one write of exactly [got], then writes of zero bytes only,
    each of at most 64 bytes; the bytes given to the EEPROM are the first
    [k] * 4096 bytes of the file, [got], and [data_size] minus the bytes
    moved so far zeros, no more and no less.  With zero_padding not set the
    function returns 0 as well and its calls end with the write of
    [got]. *)
Theorem short_read_is_padded (SIZE_BITS : Z) (eeprom : ptr)
        (opt : eeprom_opt) (w : world) (junk : list byte)
        (rest : list (option (list byte))) (k : nat) :
  0 <= SIZE_BITS ->
  mallocs w = Some junk :: rest ->
  g_abort w = false ->
  let start := List.length (calls w) in
  hit w start (start + (1 + 2 * k)) = false ->
  let total := data_size opt in
  let moved := Z.of_nat k * buffer_size in
  moved < total < 2 ^ SIZE_BITS ->
  moved <= Z.of_nat (List.length (fd_in w)) ->
  (forall i : nat,
     (i < k)%nat ->
     buffer_size <= env w (start + 1 + 2 * i) /\
     0 <= env w (start + 1 + 2 * i + 1)) ->
  0 <= env w (start + 1 + 2 * k) ->
  let rwsz := rw_size (total - moved) in
  let got := firstn (Z.to_nat (Z.min (env w (start + 1 + 2 * k)) rwsz))
                    (skipn (Z.to_nat moved) (fd_in w)) in
  Z.of_nat (List.length got) < rwsz ->
  let pad := total - (moved + Z.of_nat (List.length got)) in
  let r := rw_file_eeprom SIZE_BITS eeprom false opt w in
  let until_got :=
    calls w
    ++ Eeprom_seek eeprom (skip opt)
       :: whole_chunks eeprom k total (fd_in w)
    ++ [Fd_read rwsz; Eeprom_write eeprom got] in
  (zero_padding opt <> 0 ->
   all_ok (env w) (start + 1 + 2 * k + 1) (1 + rounds N_ZEROS pad) ->
   fst r = 0 /\
   calls (snd r)
   = until_got
     ++ map (Eeprom_write eeprom) (zero_chunks (Z.to_nat pad) pad) /\
   Forall (fun c => (List.length c <= 64)%nat /\ Forall (eq x00) c)
          (zero_chunks (Z.to_nat pad) pad) /\
   eeprom_written (calls (snd r))
   = eeprom_written (calls w)
     ++ firstn (Z.to_nat moved) (fd_in w) ++ got
     ++ repeat x00 (Z.to_nat pad)) /\
  (zero_padding opt = 0 ->
   0 <= env w (start + 1 + 2 * k + 1) ->
   fst r = 0 /\
   calls (snd r) = until_got /\
   eeprom_written (calls (snd r))
   = eeprom_written (calls w) ++ firstn (Z.to_nat moved) (fd_in w) ++ got).
Proof.
  intros Hbits Hm Ha start Hh total moved Ht Hfile Hans Hread rwsz got
         Hshort pad r until_got.
  assert (Hk : (k < rounds buffer_size total)%nat)
    by (apply rounds_above; exact (proj1 Ht)).
  assert (Hla : left_after total k = total - moved)
    by (apply left_after_whole; fold moved; lia).
  assert (Hmoved : 0 <= moved) by (unfold moved, buffer_size; lia).
  assert (Hkt : (k <= Z.to_nat total)%nat)
    by (unfold moved, buffer_size in *; lia).
  (* the seek *)
  pose proof (seek_step eeprom opt w rest) as Hseek.
  pose proof (seek_fd_in eeprom opt w rest) as Hin1.
  subst r.
  rewrite (rw_file_eeprom_run SIZE_BITS eeprom opt false w junk rest Hm).
  cbv zeta. cbn [fst snd].
  change (calls (add_log (Text "\n") ?x)) with (calls x).
  set (w1 := snd (eeprom_seek eeprom (skip opt) (set_mallocs rest w))) in *.
  set (buffer := firstn _ (junk ++ _)).
  pose proof (step_length _ _ _ _ Hseek) as Hlen1.
  cbn [List.length] in Hlen1. fold start in Hlen1.
  pose proof (step_env _ _ _ _ Hseek) as Henv1.
  pose proof (step_sigint _ _ _ _ Hseek) as Hsig1.
  pose proof (step_abort _ _ _ _ Hseek) as Hab1.
  cbn [List.length] in Hab1. fold start in Hab1.
  rewrite Ha, (hit_first _ _ _ _ Hh) in Hab1. cbn [orb] in Hab1.
  (* the whole rounds *)
  destruct (f2e_whole_rounds SIZE_BITS eeprom opt "Writing" Hbits k
              (S (Z.to_nat total)) buffer total w1 Hab1)
    as (b2 & w2 & Heq & Hst2 & Hab2 & Hin2 & _).
  { rewrite Hlen1. exact (hit_second w w1 _ _ _ Hsig1 Hh). }
  { lia. }
  { lia. }
  { lia. }
  { rewrite Hla, Hin1. lia. }
  { intros i Hi. rewrite Henv1, Hlen1. exact (Hans i Hi). }
  fold total. rewrite Heq, Hla. clear Heq.
  rewrite Hla, Hin1 in Hin2. rewrite Hin1 in Hst2.
  replace (total - (total - moved)) with moved in Hin2 by lia.
  pose proof (step_trans any_line w w1 w2 _ _ Hseek Hst2) as Hst.
  cbn [app] in Hst.
  pose proof (step_length _ _ _ _ Hst2) as Hlen2.
  pose proof (step_env _ _ _ _ Hst2) as Henv2.
  rewrite Henv1 in Henv2.
  assert (Hwc : List.length (whole_chunks eeprom k total (fd_in w))
                = (2 * k)%nat).
  { clear. generalize total, (fd_in w). induction k as [|k IH];
      intros t f; [reflexivity|].
    cbn [whole_chunks List.length]. rewrite IH. lia. }
  rewrite Hwc, Hlen1 in Hlen2.
  replace (S (Z.to_nat total) - k)%nat with (S (Z.to_nat total - k))
    by lia.
  assert (Hc : rw_continues (total - moved) 0 w2 = true).
  { unfold rw_continues. rewrite Hab2.
    destruct (Z.eqb_spec (total - moved) 0); [lia | reflexivity]. }
  assert (Hgot : got
                 = firstn (Z.to_nat (Z.min (env w2 (List.length (calls w2)))
                                           (rw_size (total - moved))))
                          (fd_in w2)).
  { rewrite Henv2, Hlen2, Hin2. reflexivity. }
  assert (Hpad : pad = total - moved - Z.of_nat (List.length got))
    by (unfold pad; lia).
  assert (Hw_app : eeprom_written
                     (calls w
                      ++ Eeprom_seek eeprom (skip opt)
                         :: whole_chunks eeprom k total (fd_in w)
                      ++ [Fd_read rwsz; Eeprom_write eeprom got])
                   = eeprom_written (calls w)
                     ++ firstn (Z.to_nat moved) (fd_in w) ++ got).
  { rewrite eeprom_written_app. f_equal. cbn [eeprom_written].
    rewrite eeprom_written_app, whole_chunks_written by lia.
    rewrite Hla. cbn [eeprom_written]. rewrite app_nil_r.
    now replace (total - (total - moved)) with moved by lia. }
  split.
  - intros Hzp Hok.
    pose proof (all_ok_at _ _ 0%nat _ Hok ltac:(lia)) as Hw.
    rewrite Nat.add_0_r in Hw.
    destruct (f2e_short_round SIZE_BITS eeprom opt Hbits
                (Z.to_nat total - k) "Writing" b2 (total - moved) w2 Hc)
      as (w3 & Hst3 & Hr).
    + lia.
    + rewrite Henv2, Hlen2. exact Hread.
    + rewrite <- Hgot. exact Hshort.
    + rewrite Henv2, Hlen2. exact Hw.
    + rewrite <- Hgot in Hr, Hst3. rewrite <- Hpad in Hr.
      fold rwsz in Hst3.
      destruct (Z.eqb_spec (zero_padding opt) 0); [contradiction|].
      cbn [negb] in Hr. unfold pad_eeprom in Hr.
      assert (Hp0 : 0 <= pad) by (unfold rwsz in Hshort;
        destruct (rw_size_range (total - moved) ltac:(lia)); lia).
      destruct (pad_loop_all SIZE_BITS eeprom opt Hbits (Z.to_nat pad) pad
                  (add_log (Text "\n") w3)) as [Hres Hpl].
      * lia.
      * lia.
      * change (env (add_log (Text "\n") w3)) with (env w3).
        change (calls (add_log (Text "\n") w3)) with (calls w3).
        rewrite (step_env _ _ _ _ Hst3), (step_length _ _ _ _ Hst3).
        cbn [List.length]. rewrite Henv2, Hlen2.
        replace (start + 1 + 2 * k + 2)%nat
          with (start + 1 + 2 * k + 1 + 1)%nat by lia.
        apply all_ok_tail. exact Hok.
      * rewrite Hr. split; [exact Hres|].
        pose proof (step_calls _ _ _ _ Hpl) as Hc1.
        change (calls (add_log (Text "\n") w3)) with (calls w3) in Hc1.
        rewrite (step_calls _ _ _ _ Hst3), (step_calls _ _ _ _ Hst) in Hc1.
        assert (Hcalls : calls (snd (pad_loop SIZE_BITS (Z.to_nat pad)
                                       eeprom
                                       (repeat x00 (Z.to_nat N_ZEROS)) pad
                                       opt (add_log (Text "\n") w3)))
                         = until_got
                           ++ map (Eeprom_write eeprom)
                                  (zero_chunks (Z.to_nat pad) pad)).
        { rewrite Hc1. unfold until_got.
          rewrite <- !app_assoc. cbn [app]. rewrite <- !app_assoc.
          reflexivity. }
        split; [exact Hcalls|]. split; [apply zero_chunks_small|].
        rewrite Hcalls. unfold until_got.
        rewrite eeprom_written_app, Hw_app, eeprom_written_chunks.
        rewrite zero_chunks_concat by lia.
        now rewrite <- !app_assoc.
  - intros Hzp Hw.
    destruct (f2e_short_round SIZE_BITS eeprom opt Hbits
                (Z.to_nat total - k) "Writing" b2 (total - moved) w2 Hc)
      as (w3 & Hst3 & Hr).
    + lia.
    + rewrite Henv2, Hlen2. exact Hread.
    + rewrite <- Hgot. exact Hshort.
    + rewrite Henv2, Hlen2. exact Hw.
    + rewrite <- Hgot in Hr, Hst3. fold rwsz in Hst3.
      rewrite Hzp in Hr. change (negb (0 =? 0)) with false in Hr.
      cbv iota in Hr. rewrite Hr. cbn [fst snd].
      split; [reflexivity|].
      assert (Hcalls : calls w3 = until_got).
      { rewrite (step_calls _ _ _ _ Hst3), (step_calls _ _ _ _ Hst).
        unfold until_got. rewrite <- !app_assoc. reflexivity. }
      split; [exact Hcalls|]. rewrite Hcalls. exact Hw_app.
Qed.

(** A source of 1000 bytes for a job of 2000: 1000 bytes, then 1000 zeros.
    A source of 5000 bytes for a job of 10000: a whole chunk, 904 bytes,
    then 5000 zeros. *)
Lemma short_read_is_padded_witness :
  (let r := rw_file_eeprom 32 7 false (job 2000 1)
                           (bench plenty None (filled 1000) []) in
   fst r = 0 /\
   eeprom_written (calls (snd r)) = filled 1000 ++ blank 1000) /\
  (let r := rw_file_eeprom 32 7 false (job 10000 1)
                           (bench plenty None (filled 5000) []) in
   fst r = 0 /\
   eeprom_written (calls (snd r)) = filled 5000 ++ blank 5000).
Proof.
  split.
  - destruct (short_read_is_padded 32 7 (job 2000 1)
                (bench plenty None (filled 1000) []) [] [Some []] 0)
      as [Hpad _].
    + lia.
    + reflexivity.
    + reflexivity.
    + reflexivity.
    + cbn. lia.
    + cbn. lia.
    + intros i Hi. lia.
    + vm_compute. discriminate.
    + vm_compute. reflexivity.
    + destruct Hpad as (Hres & _ & _ & Hwritten).
      * discriminate.
      * intros j Hj. vm_compute. discriminate.
      * cbv zeta. split; [exact Hres|]. rewrite Hwritten.
        vm_compute. reflexivity.
  - destruct (short_read_is_padded 32 7 (job 10000 1)
                (bench plenty None (filled 5000) []) [] [Some []] 1)
      as [Hpad _].
    + lia.
    + reflexivity.
    + reflexivity.
    + reflexivity.
    + cbn. lia.
    + vm_compute. discriminate.
    + intros i Hi. split; vm_compute; discriminate.
    + vm_compute. discriminate.
    + vm_compute. reflexivity.
    + destruct Hpad as (Hres & _ & _ & Hwritten).
      * discriminate.
      * intros j Hj. vm_compute. discriminate.
      * cbv zeta. split; [exact Hres|]. rewrite Hwritten.
        vm_compute. reflexivity.
Defined.

(** The job of 2000 bytes through the whole function, with and without
    zero_padding. *)
Example source_1000_job_2000 :
  let padded := rw_file_eeprom 32 7 false (job 2000 1)
                               (bench plenty None (filled 1000) []) in
  let plain := rw_file_eeprom 32 7 false (job 2000 0)
                              (bench plenty None (filled 1000) []) in
  fst padded = 0 /\
  eeprom_written (calls (snd padded)) = filled 1000 ++ blank 1000 /\
  fst plain = 0 /\
  eeprom_written (calls (snd plain)) = filled 1000.
Proof. vm_compute. repeat split. Qed.

(** C7, as stated, fails: in a transfer of 8192 bytes to the file, the first
    read delivers 10 bytes of 4096 and the first write takes 5 bytes of 4096,
    neither returning an error.  The loop goes on to the second chunk and the
    transfer returns 0, the file having received 5 + 4096 bytes. *)
Lemma short_counts_are_not_failures :
  let r := rw_file_eeprom 32 7 true (job 8192 0)
                          (bench short_counts None [] (filled 8192)) in
  fst r = 0 /\
  List.length (calls (snd r)) = 5%nat /\
  Z.of_nat (List.length (fd_out (snd r))) = 4101.
Proof. vm_compute. repeat split. Qed.

(** C7, amended.  In a transfer to the file (no SIGINT), a chunk is a failure
    only when its read or its write returns a negative value: the first such
    call ends the loop and the transfer returns -1.  As long as the values
    returned are not negative, whatever the number of bytes they report, the
    chunk counts as moved: all the chunks are run and the transfer
    returns 0. *)
Theorem negative_return_is_the_only_failure (SIZE_BITS : Z) (eeprom : ptr)
        (opt : eeprom_opt) (w : world) (junk : list byte)
        (rest : list (option (list byte))) :
  0 <= SIZE_BITS ->
  mallocs w = Some junk :: rest ->
  g_abort w = false ->
  sigint_at w = None ->
  0 <= data_size opt < 2 ^ SIZE_BITS ->
  let n := rounds buffer_size (data_size opt) in
  let base := (List.length (calls w) + 1)%nat in
  let r := rw_file_eeprom SIZE_BITS eeprom true opt w in
  (all_ok (env w) base (2 * n) ->
   fst r = 0 /\ List.length (calls (snd r)) = (base + 2 * n)%nat) /\
  (forall j : nat,
     (j < 2 * n)%nat -> fails_first (env w) base j ->
     fst r = -1 /\ List.length (calls (snd r)) = (base + j + 1)%nat).
Proof.
  intros Hbits Hm Ha Hs Hl. cbv zeta.
    rewrite (rw_file_eeprom_run SIZE_BITS eeprom opt true w junk rest Hm). cbv zeta.
  pose proof (seek_step eeprom opt w rest) as Hst.
  pose proof (step_length _ _ _ _ Hst) as Hlen. cbn [List.length] in Hlen.
  assert (Ha1 : g_abort (snd (eeprom_seek eeprom (skip opt)
                                          (set_mallocs rest w))) = false).
  { rewrite (step_abort _ _ _ _ Hst), Ha. unfold hit. now rewrite Hs. }
  assert (Hs1 : sigint_at (snd (eeprom_seek eeprom (skip opt)
                                            (set_mallocs rest w))) = None).
  { now rewrite (step_sigint _ _ _ _ Hst). }
  split.
  - intros Hok.
    destruct (e2f_all SIZE_BITS eeprom opt "Reading" Hbits
                (S (Z.to_nat (data_size opt)))
                (firstn (Z.to_nat buffer_size)
                        (junk ++ repeat x00 (Z.to_nat buffer_size)))
                (data_size opt) _ Ha1 Hs1 Hl ltac:(lia))
      as [Hres Hcalls].
    + now rewrite (step_env _ _ _ _ Hst), Hlen.
    + cbn [fst snd]. split; [exact Hres|].
      change (calls (add_log (Text "\n") ?x)) with (calls x). lia.
  - intros j Hj Hff.
    destruct (e2f_fail SIZE_BITS eeprom opt "Reading" Hbits
                (S (Z.to_nat (data_size opt)))
                (firstn (Z.to_nat buffer_size)
                        (junk ++ repeat x00 (Z.to_nat buffer_size)))
                (data_size opt) _ j Ha1 Hs1 Hl ltac:(lia) Hj)
      as [Hres Hcalls].
    + now rewrite (step_env _ _ _ _ Hst), Hlen.
    + cbn [fst snd]. split; [exact Hres|].
      change (calls (add_log (Text "\n") ?x)) with (calls x). lia.
Qed.

Lemma negative_return_is_the_only_failure_witness :
  let w := bench short_counts None [] (filled 8192) in
  let r := rw_file_eeprom 32 7 true (job 8192 0) w in
  fst r = 0 /\ List.length (calls (snd r)) = (1 + 2 * 2)%nat.
Proof.
  destruct (negative_return_is_the_only_failure 32 7 (job 8192 0)
              (bench short_counts None [] (filled 8192)) [] [Some []])
    as [Hall _].
  - lia.
  - reflexivity.
  - reflexivity.
  - reflexivity.
  - cbn. lia.
  - apply Hall. intros j Hj.
    do 4 (destruct j as [|j]; [vm_compute; discriminate|]).
    vm_compute in Hj. lia.
Defined.




(** The multiplication by 100 is made in [size_t]: with 32 bits, half of a
    job of 100000000 bytes is shown as 7 percent; with 16 bits, the whole of
    a job of 1000 bytes is shown as 34 percent. *)
Example percentage_wraps_in_size_t :
  log (snd (log_eeprom_progress 32 100000000 50000000 "Reading"
                                (bench plenty None [] [])))
  = [Progress "Reading" 7 50000000] /\
  log (snd (run_eeprom 16 7 (job 1000 0) "e2f" "n"
                       (bench plenty None [] (filled 1000))))
  = [Progress "Reading" 34 1000; Text "\n"].
Proof. vm_compute. split; reflexivity. Qed.

(** A transfer to the EEPROM shows the bytes read so far: 2500 bytes of a
    job of 10000 are 25 percent. *)
Example source_2500_job_10000 :
  let r := run_eeprom 32 7 (job 10000 0) "f2e" "n"
                      (bench plenty None (filled 2500) []) in
  fst r = 0 /\
  log (snd r) = [Progress "Writing" 25 2500; Text "\n"] /\
  eeprom_written (calls (snd r)) = filled 2500.
Proof. vm_compute. repeat split. Qed.

(** ** The self-test: dumps and comparison *)









(** The bytes of a block from [pos] on are inside it as far as it goes. *)
Lemma read_at_inside (block : list byte) (j : Z) :
  0 <= j < Z.of_nat (List.length block) ->
  read_at block j = Some (nth (Z.to_nat j) block x00).
Proof.
  intros H. unfold read_at. destruct (Z.ltb_spec j 0); [lia|].
  apply nth_error_nth'. lia.
Qed.










(** The comparison: where [first_diff] stops. *)



Lemma first_diff_none (it_r : list byte) :
  forall (it_w : list byte) (start : Z),
    List.length it_r = List.length it_w ->
    first_diff start it_r it_w = None -> it_r = it_w.
Proof.
  induction it_r as [|r it_r IH]; intros it_w start Hlen H.
  - destruct it_w; [reflexivity | discriminate].
  - destruct it_w as [|w it_w]; [discriminate|].
    cbn [first_diff] in H. destruct (Byte.eqb r w) eqn:E; [|discriminate].
    apply byte_dec_bl in E. subst w. f_equal.
    apply (IH it_w (start + 1)); [|exact H].
    cbn in Hlen. lia.
Qed.






(** ** The self-test: from the start to the comparison *)








Lemma lib_pair (c : call) (w : world) :
  lib c w = (env w (List.length (calls w)), snd (lib c w)).
Proof. reflexivity. Qed.




(** ** The self-test: the stated properties *)



(** C6, as stated, also fails on the dump: it does not always cover bytes
    of the buffers.  In a self-test of 4096 bytes with a mismatch at 4000
    the dumps of 256 bytes from 3872 on run past the end of the two buffers,
    which is undefined: the last two lines of each read outside. *)
Example dump_runs_past_the_buffer :
  let r := full_rw_eeprom 7 (job 4096 0)
                          (world_self_test corrupted_at_4000) in
  fst r = -1 /\
  filter is_undefined (log (snd r))
  = repeat (Undefined "read outside the buffer") 4.
Proof. vm_compute. split; reflexivity. Qed.



(** * The other commands: properties *)

(** ** The machine *)

Lemma pbind_eq {A B : Type} (m : P A) (f : A -> P B) (s : machine) :
  pbind m f s = f (fst (m s)) (snd (m s)).
Proof. reflexivity. Qed.

Lemma lift_eq {A : Type} (m : M A) (s : machine) :
  lift m s = (fst (m (base s)), set_base (snd (m (base s))) s).
Proof. reflexivity. Qed.

Lemma PLOG_eq (text : string) (s : machine) :
  PLOG text s = (tt, set_base (add_log (Line text) (base s)) s).
Proof. reflexivity. Qed.

Lemma hw_eq (c : hw_call) (s : machine) :
  hw c s = (hw_env s (List.length (hw_calls s)), add_hw_call c s).
Proof. reflexivity. Qed.

(** ** The settings of the terminal *)

Section Terminal.

Variables ICANON ECHO : Z.

Lemma save_refused (s : machine) :
  g_stdin_termios_state s <> TERM_IN_BLANK ->
  save_stdin_termios s = (-1, s).
Proof.
  intros H. unfold save_stdin_termios, pbind, get_termios_state. cbn.
  destruct (g_stdin_termios_state s); [congruence | reflexivity..].
Qed.

Lemma termios_op_keeps (op : termios_op) (s : machine) :
  g_stdin_termios_state s <> TERM_IN_BLANK ->
  let s' := snd (run_termios_op ICANON ECHO op s) in
  g_stdin_termios_state s' <> TERM_IN_BLANK /\
  g_original_stdin_termios s' = g_original_stdin_termios s.
Proof.
  intros H. destruct op; cbn [run_termios_op].
  - rewrite (save_refused s H). cbn. auto.
  - unfold disable_stdin_buffering, pbind, get_termios_state, tcgetattr,
      tcsetattr, hw_out, hw, put_termios_state, pret. cbn.
    destruct (g_stdin_termios_state s) eqn:E; cbn; try congruence;
      try (split; [rewrite E; discriminate | reflexivity]);
      destruct (hw_env s (List.length (hw_calls s)) <? 0); cbn;
      try (split; [rewrite E; discriminate | reflexivity]);
      match goal with |- context [if ?b then _ else _] => destruct b end; cbn;
      split; try discriminate; reflexivity.
  - unfold restore_stdin_termios, pbind, get_termios_state, tcsetattr, hw,
      put_termios_state, pret. cbn.
    destruct (g_stdin_termios_state s) eqn:E; cbn; try congruence;
      try (split; [rewrite E; discriminate | reflexivity]);
      destruct (hw_env s (List.length (hw_calls s)) <? 0); cbn;
      split; try (rewrite E); try discriminate; reflexivity.
Qed.

(** X1.  Once the settings of the terminal have been saved (the state is
    no longer BLANK), no sequence of calls of [save_stdin_termios],
    [disable_stdin_buffering] and [restore_stdin_termios] brings the state
    back to BLANK or changes the saved settings, and a further
    [save_stdin_termios] is refused with -1 without any library call. *)
Theorem saved_settings_are_kept (ops : list termios_op) (s : machine) :
  g_stdin_termios_state s <> TERM_IN_BLANK ->
  let s' := run_termios_ops ICANON ECHO ops s in
  g_stdin_termios_state s' <> TERM_IN_BLANK /\
  g_original_stdin_termios s' = g_original_stdin_termios s /\
  save_stdin_termios s' = (-1, s').
Proof.
  revert s. induction ops as [|op ops IH]; intros s H; cbn zeta.
  - cbn. split; [exact H|]. split; [reflexivity|]. exact (save_refused s H).
  - cbn [run_termios_ops].
    destruct (termios_op_keeps op s H) as [H1 H2]. cbv zeta in H1, H2.
    destruct (IH _ H1) as (Ha & Hb & Hc). cbv zeta in Ha, Hb, Hc.
    split; [exact Ha|]. split; [|exact Hc].
    rewrite Hb. exact H2.
Qed.

(** X2.  While the settings have not been saved, the terminal is never
    written: if the state is BLANK before and after a sequence of calls of
    the three functions, the only library calls made are the [tcgetattr] of
    the saves that failed. *)
Theorem terminal_untouched_while_blank (ops : list termios_op)
        (s : machine) :
  g_stdin_termios_state s = TERM_IN_BLANK ->
  g_stdin_termios_state (run_termios_ops ICANON ECHO ops s)
  = TERM_IN_BLANK ->
  exists k : nat,
    (k <= List.length ops)%nat /\
    hw_calls (run_termios_ops ICANON ECHO ops s)
    = hw_calls s ++ repeat Tcgetattr k.
Proof.
  revert s. induction ops as [|op ops IH]; intros s H Hend.
  - exists 0%nat. cbn. split; [lia|]. now rewrite app_nil_r.
  - cbn [run_termios_ops] in *.
    destruct op; cbn [run_termios_op] in *.
    + (* save *)
      unfold save_stdin_termios, pbind, get_termios_state, tcgetattr, hw_out,
        put_termios_state, pret in *. cbn in *. rewrite H in *. cbn in *.
      destruct (hw_env s (List.length (hw_calls s)) <? 0) eqn:E; cbn in *.
      * destruct (IH (add_hw_call Tcgetattr s) H Hend) as (k & Hk & Hc).
        exists (S k). split; [cbn; lia|].
        rewrite Hc. cbn. now rewrite <- app_assoc.
      * exfalso.
        match type of Hend with
        | g_stdin_termios_state (run_termios_ops _ _ _ ?s1) = _ =>
            assert (Hs : g_stdin_termios_state s1 <> TERM_IN_BLANK)
              by (cbn; discriminate);
            destruct (saved_settings_are_kept ops s1 Hs) as [Hn _]
        end.
        cbv zeta in Hn. congruence.
    + (* disable *)
      unfold disable_stdin_buffering, pbind, get_termios_state, pret in *.
      cbn in *. rewrite H in *. cbn in *.
      destruct (IH _ H Hend) as (k & Hk & Hc).
      exists k. split; [cbn; lia | exact Hc].
    + (* restore *)
      unfold restore_stdin_termios, pbind, get_termios_state, pret in *.
      cbn in *. rewrite H in *. cbn in *.
      destruct (IH _ H Hend) as (k & Hk & Hc).
      exists k. split; [cbn; lia | exact Hc].
Qed.

(** X3.  Switching the buffering of the terminal off and restoring it, from
    the state SAVED.  Either [tcgetattr] fails and the terminal is not
    written at all, or it is written twice: first with the settings just
    read, changed only in [c_lflag], where exactly the bits of [ICANON] and
    [ECHO] are cleared, then with the saved settings; the second write is
    made also when the first one failed.  The state is SAVED again when that
    second write succeeds. *)
Theorem disable_then_restore (s : machine) :
  g_stdin_termios_state s = TERM_IN_SAVED ->
  let n := List.length (hw_calls s) in
  let current := termios_of (hw_data s n) in
  let edited := unbuffered ICANON ECHO current in
  let r1 := disable_stdin_buffering ICANON ECHO s in
  let r2 := restore_stdin_termios (snd r1) in
  (c_iflag edited = c_iflag current /\ c_oflag edited = c_oflag current /\
   c_cflag edited = c_cflag current /\ c_cc edited = c_cc current /\
   forall i : Z,
     0 <= i ->
     Z.testbit (c_lflag edited) i
     = Z.testbit (c_lflag current) i
       && negb (Z.testbit ICANON i || Z.testbit ECHO i)) /\
  if hw_env s n <? 0 then
    fst r1 = -1 /\ fst r2 = 0 /\
    hw_calls (snd r2) = hw_calls s ++ [Tcgetattr] /\
    g_stdin_termios_state (snd r2) = TERM_IN_SAVED
  else
    fst r1 = (if hw_env s (S n) <? 0 then -1 else 0) /\
    fst r2 = (if hw_env s (S (S n)) <? 0 then -1 else 0) /\
    hw_calls (snd r2)
    = hw_calls s
      ++ [Tcgetattr; Tcsetattr edited;
          Tcsetattr (g_original_stdin_termios s)] /\
    g_stdin_termios_state (snd r2)
    = (if hw_env s (S (S n)) <? 0
       then if hw_env s (S n) <? 0 then TERM_IN_ERROR else TERM_IN_EDITED
       else TERM_IN_SAVED).
Proof.
  intros H n current edited r1 r2. split.
  - repeat (split; [reflexivity|]).
    intros i Hi. unfold edited, unbuffered. cbn [c_lflag].
    rewrite Z.land_spec, Z.lnot_spec, Z.lor_spec by exact Hi. reflexivity.
  - subst r1 r2.
    assert (N1 : (n + 1 = S n)%nat) by lia.
    assert (N2 : (S n + 1 = S (S n))%nat) by lia.
    unfold disable_stdin_buffering, restore_stdin_termios, pbind,
      get_termios_state, tcgetattr, tcsetattr, hw_out, hw, put_termios_state,
      pret.
    cbn. rewrite H. cbn. fold n.
    destruct (hw_env s n <? 0) eqn:E0;
      destruct (hw_env s (S n) <? 0) eqn:E1;
      destruct (hw_env s (S (S n)) <? 0) eqn:E2;
      repeat (cbn; rewrite ?length_app, ?H; cbn [List.length]; fold n;
              rewrite ?N1, ?N2, ?E0, ?E1, ?E2);
      cbn; rewrite <- ?app_assoc; cbn; repeat split; exact H.
Qed.

End Terminal.

(** A terminal whose settings were saved: after a disable, a refused save
    and a restore, the saved settings are the same and a save is refused. *)
Lemma saved_settings_are_kept_witness :
  let s := desk_saved (mk_termios 1 2 3 10 []) (fun _ => 0)
                      (fun _ => [1; 2; 3; 15]) in
  let s' := run_termios_ops 2 8 [Op_disable; Op_save; Op_restore] s in
  g_stdin_termios_state s <> TERM_IN_BLANK /\
  g_original_stdin_termios s' = mk_termios 1 2 3 10 [] /\
  fst (save_stdin_termios s') = -1.
Proof.
  cbv zeta.
  assert (H0 : g_stdin_termios_state
                 (desk_saved (mk_termios 1 2 3 10 []) (fun _ => 0)
                             (fun _ => [1; 2; 3; 15])) <> TERM_IN_BLANK)
    by (cbn; discriminate).
  destruct (saved_settings_are_kept 2 8 [Op_disable; Op_save; Op_restore]
              _ H0) as (_ & Hb & Hc).
  cbv zeta in Hb, Hc. split; [exact H0|]. split; [exact Hb|].
  rewrite Hc. reflexivity.
Defined.

(** A terminal that cannot be read: two saves fail, the disable and the
    restore in between do nothing. *)
Lemma terminal_untouched_while_blank_witness :
  let s := desk plenty (fun _ => -1) (fun _ => []) None in
  let ops := [Op_save; Op_disable; Op_restore; Op_save] in
  g_stdin_termios_state s = TERM_IN_BLANK /\
  g_stdin_termios_state (run_termios_ops 2 8 ops s) = TERM_IN_BLANK /\
  exists k : nat,
    (k <= 4)%nat /\
    hw_calls (run_termios_ops 2 8 ops s) = repeat Tcgetattr k.
Proof.
  cbv zeta.
  assert (H1 : g_stdin_termios_state
                 (run_termios_ops 2 8
                    [Op_save; Op_disable; Op_restore; Op_save]
                    (desk plenty (fun _ => -1) (fun _ => []) None))
               = TERM_IN_BLANK) by reflexivity.
  split; [reflexivity|]. split; [exact H1|].
  exact (terminal_untouched_while_blank 2 8
           [Op_save; Op_disable; Op_restore; Op_save]
           (desk plenty (fun _ => -1) (fun _ => []) None) eq_refl H1).
Defined.

(** With ICANON = 2 and ECHO = 8, a terminal whose flags are 15 is written
    with the flags 5 and then with the saved settings. *)
Lemma disable_then_restore_witness :
  let s := desk_saved (mk_termios 1 2 3 10 []) (fun _ => 0)
                      (fun _ => [1; 2; 3; 15]) in
  g_stdin_termios_state s = TERM_IN_SAVED /\
  hw_calls (snd (restore_stdin_termios
                   (snd (disable_stdin_buffering 2 8 s))))
  = [ Tcgetattr; Tcsetattr (mk_termios 1 2 3 5 []);
      Tcsetattr (mk_termios 1 2 3 10 []) ].
Proof.
  cbv zeta. split; [reflexivity|].
  pose proof (disable_then_restore 2 8
                (desk_saved (mk_termios 1 2 3 10 []) (fun _ => 0)
                            (fun _ => [1; 2; 3; 15])) eq_refl) as H.
  cbv zeta in H. destruct H as [_ H].
  change (hw_env (desk_saved (mk_termios 1 2 3 10 []) (fun _ => 0)
                             (fun _ => [1; 2; 3; 15])) _ <? 0)
    with false in H.
  destruct H as (_ & _ & H & _). exact H.
Defined.

(** ** Library calls made *)

Lemma made_refl (ok : hw_call -> Prop) (s : machine) : made ok s s.
Proof. exists []. split; [now rewrite app_nil_r | constructor]. Qed.

Lemma made_trans (ok : hw_call -> Prop) (s1 s2 s3 : machine) :
  made ok s1 s2 -> made ok s2 s3 -> made ok s1 s3.
Proof.
  intros (c1 & H1 & F1) (c2 & H2 & F2). exists (c1 ++ c2). split.
  - rewrite H2, H1. now rewrite app_assoc.
  - apply Forall_app. now split.
Qed.

Lemma made_same (ok : hw_call -> Prop) (s s' : machine) :
  hw_calls s' = hw_calls s -> made ok s s'.
Proof. intros H. exists []. split; [now rewrite app_nil_r | constructor]. Qed.

Lemma made_hw (ok : hw_call -> Prop) (c : hw_call) (s : machine) :
  ok c -> made ok s (snd (hw c s)).
Proof. intros H. exists [c]. split; [reflexivity | now constructor]. Qed.

Lemma made_hw_out (ok : hw_call -> Prop) (c : hw_call) (s : machine) :
  ok c -> made ok s (snd (hw_out c s)).
Proof. intros H. exists [c]. split; [reflexivity | now constructor]. Qed.

Lemma made_lift {A : Type} (ok : hw_call -> Prop) (m : M A) (s : machine) :
  made ok s (snd (lift m s)).
Proof. now apply made_same. Qed.

Lemma made_pret {A : Type} (ok : hw_call -> Prop) (a : A) (s : machine) :
  made ok s (snd (pret a s)).
Proof. apply made_refl. Qed.

Lemma made_bind {A B : Type} (ok : hw_call -> Prop) (m : P A) (f : A -> P B)
      (s : machine) :
  made ok s (snd (m s)) ->
  (forall (a : A) (s1 : machine), made ok s1 (snd (f a s1))) ->
  made ok s (snd (pbind m f s)).
Proof.
  intros H1 H2. rewrite pbind_eq. eapply made_trans; [exact H1 | apply H2].
Qed.

Lemma made_weaken (ok ok' : hw_call -> Prop) (s s' : machine) :
  (forall c : hw_call, ok c -> ok' c) -> made ok s s' -> made ok' s s'.
Proof.
  intros H (cs & Hc & F). exists cs. split; [exact Hc|].
  revert F. apply Forall_impl. exact H.
Qed.

(** What the code of the power and EEPROM parts leaves alone in the
    machine. *)
Lemma lift_frame {A : Type} (m : M A) (s : machine) :
  let s' := snd (lift m s) in
  rest_ctx s' = rest_ctx s /\ hw_calls s' = hw_calls s /\
  hw_env s' = hw_env s /\ hw_data s' = hw_data s /\
  g_stdin_termios_state s' = g_stdin_termios_state s /\
  g_opt s' = g_opt s /\ g_i2c_addr s' = g_i2c_addr s /\
  stdout s' = stdout s.
Proof. cbn. repeat split. Qed.

(** ** The options of the EEPROM command *)

Lemma strsep_cut_length (delim s t r : string) :
  strsep_cut s delim = (t, Some r) ->
  String.length s = S (String.length t + String.length r).
Proof.
  revert t r. induction s as [|c s IH]; intros t r H; cbn in H.
  - discriminate.
  - destruct (is_delim c delim).
    + injection H as <- <-. reflexivity.
    + destruct (strsep_cut s delim) as [t' r'] eqn:E. cbn in H.
      injection H as Ht Hr. subst t r'. cbn. f_equal. now apply IH.
Qed.

Lemma strsep_cut_app (delim a rest : string) (c : ascii) :
  is_delim c delim = true ->
  strsep_cut (String.append a (String c rest)) delim
  = (fst (strsep_cut a delim),
     match snd (strsep_cut a delim) with
     | None => Some rest
     | Some r => Some (String.append r (String c rest))
     end).
Proof.
  intros Hc. induction a as [|x a IH]; cbn.
  - now rewrite Hc.
  - destruct (is_delim x delim); [reflexivity|].
    rewrite IH. cbn. destruct (snd (strsep_cut a delim)); reflexivity.
Qed.

Lemma strsep_cut_plain (delim s : string) :
  (forall c : ascii, is_delim c delim = true -> is_delim c ", =" = true) ->
  plain s -> strsep_cut s delim = (s, None).
Proof.
  intros Hd. induction s as [|c s IH]; intros H; cbn.
  - reflexivity.
  - destruct H as [Hc Hs]. destruct (is_delim c delim) eqn:E.
    + apply Hd in E. congruence.
    + now rewrite (IH Hs).
Qed.

Section Options.

Variable SIZE_BITS : Z.
Variable strtoul : string -> Z * Z.
Variable PLHW_NO_I2C_ADDR : Z.

Let option_ := eeprom_option SIZE_BITS strtoul PLHW_NO_I2C_ADDR.
Let loop := parse_loop SIZE_BITS strtoul PLHW_NO_I2C_ADDR.
Let parse := parse_eeprom_opt SIZE_BITS strtoul PLHW_NO_I2C_ADDR.

(** What one option does: it is accepted or rejected, looks at most one key
    up, and leaves the devices and the rest of the machine alone. *)
Lemma eeprom_option_frame (key : string) (opt : option string)
      (eopt : eeprom_opt) (s : machine) :
  let r := option_ key opt eopt s in
  (fst (fst r) = 0 \/ fst (fst r) = -1) /\
  made (is_lookup (config (rest_ctx s))) s (snd r) /\
  calls (base (snd r)) = calls (base s) /\
  mallocs (base (snd r)) = mallocs (base s) /\
  rest_ctx (snd r) = rest_ctx s.
Proof.
  unfold option_, eeprom_option.
  set (v := strsep opt "=").
  destruct (fst v) as [text|];
    repeat (cbn;
            match goal with
            | |- context [if ?b then _ else _] => destruct b eqn:?
            end);
    cbn.
  all: split; [auto|]; split;
    [ first [ now apply made_same
            | exists [Plconfig_get_i2c_addr (config (rest_ctx s)) text];
              split; [reflexivity|];
              constructor; [eexists; reflexivity | constructor] ]
    | repeat split ].
Qed.

(** An empty option is rejected, with one line. *)
Lemma eeprom_option_empty (eopt : eeprom_opt) (s : machine) :
  option_ EmptyString None eopt s
  = ((-1, eopt), snd (PLOG "invalid option name: " s)).
Proof. reflexivity. Qed.

(** [free(opt_str)] at [exit_now] keeps the value returned; it is undefined
    when [opt_str] is not NULL. *)
Lemma exit_now_value {A : Type} (opt_str : option string) (r : A)
      (s : machine) :
  fst (pbind (free_opt_str opt_str) (fun _ => pret r) s) = r.
Proof. destruct opt_str; reflexivity. Qed.

Lemma exit_now_frame {A : Type} (opt_str : option string) (r : A)
      (s : machine) :
  let s' := snd (pbind (free_opt_str opt_str) (fun _ => pret r) s) in
  hw_calls s' = hw_calls s /\ calls (base s') = calls (base s) /\
  rest_ctx s' = rest_ctx s.
Proof. destruct opt_str; repeat split. Qed.

Lemma exit_now_inside {A : Type} (rest : string) (r : A) (s : machine) :
  log (base (snd (pbind (free_opt_str (Some rest)) (fun _ => pret r) s)))
  = log (base s) ++ [Undefined "free of a pointer inside the block"].
Proof. reflexivity. Qed.

Lemma exit_now_null {A : Type} (r : A) (s : machine) :
  snd (pbind (free_opt_str None) (fun _ => pret r) s) = s.
Proof. reflexivity. Qed.

(** A round of the loop on a text that is there. *)
Lemma parse_loop_round (fuel : nat) (text : string) (eopt : eeprom_opt)
      (s : machine) :
  loop (S fuel) (Some text) eopt s
  = let t := strsep_cut text ", " in
    let k := strsep_cut (fst t) "=" in
    let r := option_ (fst k) (snd k) eopt s in
    if fst (fst r) =? 0 then loop fuel (snd t) (snd (fst r)) (snd r)
    else pbind (free_opt_str (snd t)) (fun _ => pret (fst r)) (snd r).
Proof.
  unfold loop. cbn [parse_loop strsep fst snd]. rewrite pbind_eq.
  cbv zeta. fold option_.
  destruct (fst (fst (option_ _ _ eopt s)) =? 0); reflexivity.
Qed.

Lemma parse_loop_end (fuel : nat) (eopt : eeprom_opt) (s : machine) :
  loop fuel None eopt s = ((0, eopt), s).
Proof. destruct fuel; reflexivity. Qed.

Lemma parse_loop_frame (fuel : nat) :
  forall (text : string) (eopt : eeprom_opt) (s : machine),
    let r := loop fuel (Some text) eopt s in
    made (is_lookup (config (rest_ctx s))) s (snd r) /\
    calls (base (snd r)) = calls (base s) /\
    rest_ctx (snd r) = rest_ctx s.
Proof.
  induction fuel as [|fuel IH]; intros text eopt s; cbn zeta.
  - unfold loop. cbn. split; [now apply made_same|]. split; reflexivity.
  - rewrite parse_loop_round. cbv zeta.
    set (t := strsep_cut text ", ").
    set (k := strsep_cut (fst t) "=").
    destruct (eeprom_option_frame (fst k) (snd k) eopt s)
      as (_ & Hm & Hc & _ & Hr).
    cbv zeta in Hm, Hc, Hr.
    set (r := option_ (fst k) (snd k) eopt s) in *.
    destruct (fst (fst r) =? 0).
    + destruct (snd t) as [more|].
      * destruct (IH more (snd (fst r)) (snd r)) as (Hm2 & Hc2 & Hr2).
        cbv zeta in Hm2, Hc2, Hr2. rewrite Hr in Hm2.
        split; [eapply made_trans; eassumption|].
        split; congruence.
      * rewrite parse_loop_end. cbn [snd].
        split; [exact Hm|]. split; assumption.
    + destruct (exit_now_frame (snd t) (fst r) (snd r)) as (Hh & Hb & Hx).
      cbv zeta in Hh, Hb, Hx. split.
      * eapply made_trans; [exact Hm | now apply made_same].
      * split; congruence.
Qed.

Lemma parse_loop_starts_empty (fuel : nat) (b : string) (eopt : eeprom_opt)
      (s : machine) :
  starts_empty b -> fst (fst (loop (S fuel) (Some b) eopt s)) = -1.
Proof.
  intros [-> | (c & b' & Hc & ->)]; rewrite parse_loop_round;
    cbn [strsep_cut fst snd].
  - cbv zeta. cbn [strsep_cut fst snd]. rewrite eeprom_option_empty.
    reflexivity.
  - unfold separator in Hc. rewrite Hc. cbv zeta. cbn [strsep_cut fst snd].
    rewrite eeprom_option_empty. reflexivity.
Qed.

(** A text with an empty option after a separator is rejected, whatever the
    options before it. *)
Lemma parse_loop_empty_later (fuel : nat) :
  forall (a b : string) (c : ascii) (eopt : eeprom_opt) (s : machine),
    separator c -> starts_empty b ->
    (String.length a + 2 <= fuel)%nat ->
    fst (fst (loop fuel (Some (String.append a (String c b))) eopt s)) = -1.
Proof.
  induction fuel as [|fuel IH]; intros a b c eopt s H1 H2 Hf; [lia|].
  rewrite parse_loop_round. cbv zeta.
  rewrite (strsep_cut_app ", " a b c H1). cbn [fst snd].
  set (k := strsep_cut (fst (strsep_cut a ", ")) "=").
  set (r := option_ (fst k) (snd k) eopt s).
  destruct (eeprom_option_frame (fst k) (snd k) eopt s) as (Hres & _).
  cbv zeta in Hres. fold r in Hres.
  destruct (fst (fst r) =? 0) eqn:E.
  - destruct (strsep_cut a ", ") as [t [more|]] eqn:Ea; cbn [snd].
    + (* a holds a separator of its own: go on with what follows it *)
      apply IH; [assumption..|].
      apply strsep_cut_length in Ea. lia.
    + (* the options before the separator were accepted: the empty one is
         next *)
      destruct fuel as [|fuel]; [lia|].
      now apply parse_loop_starts_empty.
  - rewrite exit_now_value. apply Z.eqb_neq in E.
    destruct Hres as [Hres|Hres]; [contradiction | exact Hres].
Qed.

(** After a separator at the start of the text the rest is still there when
    the empty option is rejected: [exit_now] frees a pointer inside the
    block. *)
Lemma parse_loop_starts_inside (fuel : nat) (c : ascii) (b : string)
      (eopt : eeprom_opt) (s : machine) :
  separator c ->
  log (base (snd (loop (S fuel) (Some (String c b)) eopt s)))
  = log (base s)
    ++ [Line "invalid option name: ";
        Undefined "free of a pointer inside the block"].
Proof.
  intros Hc. rewrite parse_loop_round. cbn [strsep_cut fst snd].
  unfold separator in Hc. rewrite Hc. cbv zeta. cbn [strsep_cut fst snd].
  rewrite eeprom_option_empty. cbn [fst snd Z.eqb].
  rewrite exit_now_inside. cbn [snd PLOG lift LOG base set_base log add_log].
  rewrite <- app_assoc. reflexivity.
Qed.

(** Two separators in a row: whichever option is rejected, the rest of the
    text is still there. *)
Lemma parse_loop_empty_inside (fuel : nat) :
  forall (a b : string) (c c' : ascii) (eopt : eeprom_opt) (s : machine),
    separator c -> separator c' ->
    (String.length a + 2 <= fuel)%nat ->
    In (Undefined "free of a pointer inside the block")
       (log (base (snd (loop fuel
                          (Some (String.append a (String c (String c' b))))
                          eopt s)))).
Proof.
  induction fuel as [|fuel IH]; intros a b c c' eopt s H1 H2 Hf; [lia|].
  rewrite parse_loop_round. cbv zeta.
  rewrite (strsep_cut_app ", " a (String c' b) c H1). cbn [fst snd].
  set (k := strsep_cut (fst (strsep_cut a ", ")) "=").
  set (r := option_ (fst k) (snd k) eopt s).
  destruct (fst (fst r) =? 0) eqn:E.
  - destruct (strsep_cut a ", ") as [t [more|]] eqn:Ea; cbn [snd].
    + apply IH; [assumption..|].
      apply strsep_cut_length in Ea. lia.
    + destruct fuel as [|fuel]; [lia|].
      rewrite parse_loop_starts_inside by exact H2.
      apply in_or_app. right. right. left. reflexivity.
  - destruct (snd (strsep_cut a ", ")) as [more|];
      rewrite exit_now_inside; apply in_or_app; right; left; reflexivity.
Qed.

Lemma parse_eeprom_opt_eq (text : string) (eopt : eeprom_opt) (s : machine)
      (junk : list byte) (rest : list (option (list byte))) :
  g_opt s = Some text ->
  mallocs (base s) = Some junk :: rest ->
  parse eopt s
  = loop (S (String.length text)) (Some text) eopt
         (set_base (set_mallocs rest (base s)) s).
Proof.
  intros Hg Hm. unfold parse, parse_eeprom_opt.
  rewrite pbind_eq. cbn [fst snd]. rewrite Hg.
  rewrite pbind_eq, lift_eq. unfold malloc. rewrite Hm. reflexivity.
Qed.

Lemma length_append (a b : string) :
  String.length (String.append a b)
  = (String.length a + String.length b)%nat.
Proof. induction a as [|x a IH]; cbn; [reflexivity | now rewrite IH]. Qed.

(** X4.  Options are separated by one comma or one blank.  A text in which
    an option is empty (the text is empty, begins or ends with a separator,
    or has two separators in a row, as a comma followed by a blank) is
    never accepted: [parse_eeprom_opt] comes to [exit_now] with -1.  For
    the empty text that is all: one line about the option name, and -1 is
    returned.  When an option follows the empty one (the text begins with a
    separator, or has two separators in a row) the function does not end
    well: whichever option is rejected, [strsep] has left [opt_str] inside
    the block, and the [free] at [exit_now] is undefined, which the log
    marks. *)
Theorem empty_options_are_rejected (text : string) (eopt : eeprom_opt)
        (s : machine) (junk : list byte)
        (rest : list (option (list byte))) :
  has_empty_option text ->
  g_opt s = Some text ->
  mallocs (base s) = Some junk :: rest ->
  let r := parse_eeprom_opt SIZE_BITS strtoul PLHW_NO_I2C_ADDR eopt s in
  fst (fst r) = -1 /\
  (text = EmptyString ->
   snd (fst r) = eopt /\
   log (base (snd r)) = log (base s) ++ [Line "invalid option name: "]) /\
  (option_after_empty text ->
   In (Undefined "free of a pointer inside the block")
      (log (base (snd r)))).
Proof.
  intros He Hg Hm. cbv zeta. fold parse.
  rewrite (parse_eeprom_opt_eq text eopt s junk rest Hg Hm).
  split; [|split].
  - destruct He as [b Hb | a c b Hc Hb].
    + now apply parse_loop_starts_empty.
    + apply parse_loop_empty_later; [assumption..|].
      rewrite length_append. cbn [String.length]. lia.
  - intros ->. split; reflexivity.
  - intros [c b Hc | a c c' b Hc Hc'].
    + rewrite parse_loop_starts_inside by exact Hc.
      apply in_or_app. right. right. left. reflexivity.
    + apply parse_loop_empty_inside; [assumption..|].
      rewrite length_append. cbn [String.length]. lia.
Qed.

(** X5.  [parse_eeprom_opt] does not touch a device: the only library
    calls it makes look addresses up in the configuration, and the devices
    of the power and EEPROM parts get no call. *)
Theorem parse_eeprom_opt_only_looks_up (eopt : eeprom_opt) (s : machine) :
  let r := parse_eeprom_opt SIZE_BITS strtoul PLHW_NO_I2C_ADDR eopt s in
  made (is_lookup (config (rest_ctx s))) s (snd r) /\
  calls (base (snd r)) = calls (base s).
Proof.
  cbn zeta. unfold parse_eeprom_opt. rewrite pbind_eq. cbn [fst snd].
  destruct (g_opt s) as [text|].
  - rewrite pbind_eq, lift_eq. cbn [fst snd].
    assert (Hc : calls (snd (malloc (Z.of_nat (String.length text) + 1)
                                    (base s))) = calls (base s)).
    { unfold malloc. destruct (mallocs (base s)) as [|[j|] l]; reflexivity. }
    destruct (fst (malloc (Z.of_nat (String.length text) + 1) (base s))).
    + destruct (parse_loop_frame (S (String.length text)) text eopt
                  (set_base (snd (malloc (Z.of_nat (String.length text) + 1)
                                         (base s))) s))
        as (Hm & Hb & _).
      cbv zeta in Hm, Hb. unfold loop in Hm, Hb. split.
      * eapply made_trans; [|exact Hm]. now apply made_same.
      * rewrite Hb. exact Hc.
    + cbn. split; [now apply made_same | exact Hc].
  - cbn. split; [now apply made_same | reflexivity].
Qed.

End Options.

(** The empty text is rejected with one line; in the text
    [data_size=100, zero_padding], with a blank after the comma, and in the
    text [,skip=4] an option follows the empty one. *)
Lemma empty_options_are_rejected_witness :
  (let r := parse_eeprom_opt 64 strtoul_dec (-1)
              (mk_eeprom_opt (-1) 0 0 0 0 0)
              (desk plenty plenty (fun _ => []) (Some "")) in
   fst (fst r) = -1 /\
   log (base (snd r)) = [Line "invalid option name: "]) /\
  (let r := parse_eeprom_opt 64 strtoul_dec (-1)
              (mk_eeprom_opt (-1) 0 0 0 0 0)
              (desk plenty plenty (fun _ => [])
                    (Some "data_size=100, zero_padding")) in
   fst (fst r) = -1 /\
   In (Undefined "free of a pointer inside the block")
      (log (base (snd r)))) /\
  (let r := parse_eeprom_opt 64 strtoul_dec (-1)
              (mk_eeprom_opt (-1) 0 0 0 0 0)
              (desk plenty plenty (fun _ => []) (Some ",skip=4")) in
   fst (fst r) = -1 /\
   In (Undefined "free of a pointer inside the block")
      (log (base (snd r)))).
Proof.
  split; [|split].
  - destruct (empty_options_are_rejected 64 strtoul_dec (-1) ""
                (mk_eeprom_opt (-1) 0 0 0 0 0)
                (desk plenty plenty (fun _ => []) (Some ""))
                [] [Some []])
      as (Hres & Hclean & _).
    + apply empty_first. left. reflexivity.
    + reflexivity.
    + reflexivity.
    + cbv zeta. split; [exact Hres|]. exact (proj2 (Hclean eq_refl)).
  - destruct (empty_options_are_rejected 64 strtoul_dec (-1)
                "data_size=100, zero_padding"
                (mk_eeprom_opt (-1) 0 0 0 0 0)
                (desk plenty plenty (fun _ => [])
                      (Some "data_size=100, zero_padding"))
                [] [Some []])
      as (Hres & _ & Hinside).
    + apply (empty_later "data_size=100" "," " zero_padding").
      * reflexivity.
      * right. exists " "%char, "zero_padding". split; reflexivity.
    + reflexivity.
    + reflexivity.
    + cbv zeta. split; [exact Hres|]. apply Hinside.
      apply (empty_between "data_size=100" "," " " "zero_padding");
        reflexivity.
  - destruct (empty_options_are_rejected 64 strtoul_dec (-1) ",skip=4"
                (mk_eeprom_opt (-1) 0 0 0 0 0)
                (desk plenty plenty (fun _ => []) (Some ",skip=4"))
                [] [Some []])
      as (Hres & _ & Hinside).
    + apply empty_first. right. exists ","%char, "skip=4".
      split; reflexivity.
    + reflexivity.
    + reflexivity.
    + cbv zeta. split; [exact Hres|]. apply Hinside.
      apply (empty_at_start "," "skip=4"). reflexivity.
Defined.

(** A rejected option that ends the text leaves [opt_str] NULL, and the
    run ends well: the text [skip=4,] with nothing after the comma, and the
    text [colour=red]. *)
Example last_option_rejected :
  let run (text : string) :=
    parse_eeprom_opt 64 strtoul_dec (-1) (mk_eeprom_opt (-1) 0 0 0 0 0)
                     (desk plenty plenty (fun _ => []) (Some text)) in
  fst (fst (run "skip=4,")) = -1 /\
  log (base (snd (run "skip=4,")))
  = [Line "skip: 4"; Line "invalid option name: "] /\
  fst (fst (run "colour=red")) = -1 /\
  log (base (snd (run "colour=red")))
  = [Line "invalid option name: colour"].
Proof. vm_compute. repeat split. Qed.

(** ** Runs described by the calls they have made *)

Lemma after_refl (s : machine) : after s [] s.
Proof. unfold after. now rewrite app_nil_r. Qed.

Lemma after_trans (s1 s2 s3 : machine) (c1 c2 : list hw_call) :
  after s1 c1 s2 -> after s2 c2 s3 -> after s1 (c1 ++ c2) s3.
Proof.
  intros (H1 & E1 & D1) (H2 & E2 & D2). unfold after.
  rewrite H2, H1, E2, E1, D2, D1. now rewrite app_assoc.
Qed.

Lemma after_same (s s' : machine) :
  hw_calls s' = hw_calls s -> hw_env s' = hw_env s ->
  hw_data s' = hw_data s -> after s [] s'.
Proof. intros H E D. unfold after. now rewrite app_nil_r. Qed.

Lemma after_lift {A : Type} (m : M A) (s : machine) :
  after s [] (snd (lift m s)).
Proof. now apply after_same. Qed.

Lemma after_hw (c : hw_call) (s : machine) : after s [c] (snd (hw c s)).
Proof. repeat split. Qed.

Lemma after_hw_out (c : hw_call) (s : machine) :
  after s [c] (snd (hw_out c s)).
Proof. repeat split. Qed.

Lemma after_length (s s' : machine) (cs : list hw_call) :
  after s cs s' ->
  List.length (hw_calls s') = (List.length (hw_calls s) + List.length cs)%nat.
Proof. intros (H & _). rewrite H. apply length_app. Qed.

Lemma after_env (s0 s : machine) (cs : list hw_call) (k : nat) :
  after s0 cs s ->
  hw_env s (List.length (hw_calls s) + k)
  = hw_env s0 (List.length (hw_calls s0) + (List.length cs + k)).
Proof.
  intros (H & E & _). rewrite E, H, length_app. now rewrite Nat.add_assoc.
Qed.

Lemma after_made (ok : hw_call -> Prop) (s s' : machine)
      (cs : list hw_call) :
  after s cs s' -> Forall ok cs -> made ok s s'.
Proof. intros (H & _) F. now exists cs. Qed.

Lemma made_bind_fst {A B : Type} (ok : hw_call -> Prop) (m : P A)
      (f : A -> P B) (s : machine) :
  made ok s (snd (m s)) ->
  made ok (snd (m s)) (snd (f (fst (m s)) (snd (m s)))) ->
  made ok s (snd (pbind m f s)).
Proof. intros H1 H2. rewrite pbind_eq. eapply made_trans; eassumption. Qed.

Lemma after_hw_value (s0 st : machine) (cs : list hw_call) (c : hw_call) :
  after s0 cs st ->
  fst (hw c st) = hw_env s0 (List.length (hw_calls s0) + List.length cs).
Proof.
  intros A. rewrite hw_eq. cbn [fst].
  rewrite <- (Nat.add_0_r (List.length (hw_calls st))).
  rewrite (after_env s0 st cs 0 A). now rewrite Nat.add_0_r.
Qed.

Lemma after_step_hw (s0 st : machine) (cs : list hw_call) (c : hw_call) :
  after s0 cs st -> after s0 (cs ++ [c]) (snd (hw c st)).
Proof. intros A. eapply after_trans; [exact A | apply after_hw]. Qed.

Lemma after_step_log (s0 st : machine) (cs : list hw_call) (text : string) :
  after s0 cs st -> after s0 cs (snd (PLOG text st)).
Proof.
  intros A. rewrite <- (app_nil_r cs).
  eapply after_trans; [exact A | now apply after_same].
Qed.

(** One step along a run kept in the hypothesis [E], from the state that
    the hypothesis of [after] describes. *)
Ltac walk E :=
  match goal with
  | A : after ?s0 ?cs ?st |- _ =>
      match type of E with
      | context [pbind (hw ?c) ?k st] =>
          rewrite (pbind_eq (hw c) k st), ?(after_hw_value s0 st cs c A) in E;
          cbv beta in E;
          apply (after_step_hw s0 st cs c) in A;
          cbn [app List.length] in A, E;
          let st' := fresh "st" in
          set (st' := snd (hw c st)) in *; clearbody st'
      | context [pbind (PLOG ?t) ?k st] =>
          rewrite (pbind_eq (PLOG t) k st) in E;
          cbv beta in E;
          apply (after_step_log s0 st cs t) in A;
          let st' := fresh "st" in
          set (st' := snd (PLOG t st)) in *; clearbody st'
      end
  end.

(** ** The EEPROM command, whole *)

Ltac made_step :=
  cbv beta;
  match goal with
  | |- made _ ?s ?s => apply made_refl
  | |- made _ _ (snd (pret _ _)) => apply made_pret
  | |- made _ _ (snd (lift _ _)) => apply made_lift
  | |- made _ _ (snd (PLOG _ _)) => apply made_lift
  | |- made _ _ (snd (printf _ _)) => now apply made_same
  | |- made _ _ (snd (assert_failed _ _)) => now apply made_same
  | |- made _ _ (snd (get_rest_ctx _)) => apply made_refl
  | |- made _ _ (snd (put_rest_ctx _ _)) => now apply made_same
  | |- made _ _ (snd (get_termios_state _)) => apply made_refl
  | |- made _ _ (snd (put_termios_state _ _)) => now apply made_same
  | |- made _ _ (snd (pbind _ _ _)) => apply made_bind; [ | intros ]
  | |- made _ _ (snd (hw _ _)) => apply made_hw
  | |- made _ _ (snd (hw_out _ _)) => apply made_hw_out
  | |- made _ _ (snd ((if ?b then _ else _) _)) => destruct b eqn:?
  | |- made _ _ (snd (match ?x with _ => _ end _)) => destruct x eqn:?
  | |- made _ _ (snd ((fun _ => (_, _)) _)) => now apply made_same
  | |- made _ _ (snd (_, _)) => now apply made_same
  end.

Lemma add_hw_call_calls (c : hw_call) (s : machine) :
  hw_calls (add_hw_call c s) = hw_calls s ++ [c].
Proof. reflexivity. Qed.

Section Eeprom_whole.

Variable SIZE_BITS : Z.
Variable strtoul : string -> Z * Z.
Variable PLHW_NO_I2C_ADDR : Z.
Variables ICANON ECHO : Z.





Let parse := parse_eeprom_opt SIZE_BITS strtoul PLHW_NO_I2C_ADDR.

(** The one option [addr=key]. *)
Lemma option_addr (key : string) (eopt : eeprom_opt) (s : machine) :
  plain key ->
  let found := hw_env s (List.length (hw_calls s)) in
  eeprom_option SIZE_BITS strtoul PLHW_NO_I2C_ADDR "addr" (Some key) eopt s
  = ((0, with_i2c_addr found eopt),
     set_base
       (add_log
          (Line (if negb (found =? PLHW_NO_I2C_ADDR)
                 then String.append "I2C address ("
                        (String.append key
                           (String.append "): 0x" (fmt_02X found)))
                 else String.append "failed to find I2C address in config: "
                                    key))
          (base s))
       (add_hw_call (Plconfig_get_i2c_addr (config (rest_ctx s)) key) s)).
Proof.
  intros Hp found.
  assert (Hv : strsep_cut key "=" = (key, None)).
  { apply strsep_cut_plain; [|exact Hp].
    intros c. cbn. rewrite !orb_false_r.
    intros ->%Ascii.eqb_eq. reflexivity. }
  unfold eeprom_option. cbn [strsep fst snd].
  rewrite Hv. cbn [fst snd String.eqb Ascii.eqb Bool.eqb andb].
  unfold plconfig_get_i2c_addr, get_rest_ctx, hw, PLOG, lift, pbind, pret.
  cbn [fst snd]. fold found.
  destruct (negb (found =? PLHW_NO_I2C_ADDR)); reflexivity.
Qed.

Lemma parse_addr (key : string) (eopt : eeprom_opt) (s : machine)
      (junk : list byte) (rest : list (option (list byte))) :
  plain key ->
  g_opt s = Some (String.append "addr=" key) ->
  mallocs (base s) = Some junk :: rest ->
  let r := parse eopt s in
  fst r = (0, with_i2c_addr (hw_env s (List.length (hw_calls s))) eopt) /\
  hw_calls (snd r)
  = hw_calls s ++ [Plconfig_get_i2c_addr (config (rest_ctx s)) key] /\
  rest_ctx (snd r) = rest_ctx s /\
  g_i2c_addr (snd r) = g_i2c_addr s /\
  hw_env (snd r) = hw_env s.
Proof.
  intros Hp Hg Hm. cbv zeta. unfold parse.
  rewrite (parse_eeprom_opt_eq SIZE_BITS strtoul PLHW_NO_I2C_ADDR
             _ eopt s junk rest Hg Hm).
  assert (Hc : strsep_cut key ", " = (key, None)).
  { apply strsep_cut_plain; [|exact Hp].
    intros c. cbn. rewrite !orb_false_r.
    intros H. apply orb_true_iff in H.
    destruct H as [H|H]; apply Ascii.eqb_eq in H; subst c; reflexivity. }
  cbn [String.length String.append parse_loop strsep strsep_cut is_delim].
  cbn [Ascii.eqb Bool.eqb orb fst snd]. rewrite Hc. cbn [fst snd].
  cbn [strsep_cut is_delim Ascii.eqb Bool.eqb orb fst snd].
  rewrite pbind_eq.
  rewrite (option_addr key eopt _ Hp). cbn. repeat split.
Qed.

(** X8.  The address of the EEPROM.  With the option [addr=key], the key
    is looked up in the configuration, and [eeprom_init] is given the
    address found; when the configuration has none (the answer is
    [PLHW_NO_I2C_ADDR]), this is no error and [eeprom_init] is given the
    address of the option -a. *)
Theorem eeprom_address_falls_back (key eeprom_mode cmd_str : string)
        (more : list string) (s : machine) (junk : list byte)
        (rest : list (option (list byte))) :
  plain key ->
  g_opt s = Some (String.append "addr=" key) ->
  mallocs (base s) = Some junk :: rest ->
  eeprom (rest_ctx s) = NULL ->
  let found := hw_env s (List.length (hw_calls s)) in
  let addr := if found =? PLHW_NO_I2C_ADDR then g_i2c_addr s else found in
  exists tail : list hw_call,
    hw_calls (snd (run_eeprom_cmd SIZE_BITS strtoul PLHW_NO_I2C_ADDR
                                  ICANON ECHO
                                  (eeprom_mode :: cmd_str :: more) s))
    = hw_calls s
      ++ [ Plconfig_get_i2c_addr (config (rest_ctx s)) key;
           Eeprom_init addr eeprom_mode ]
      ++ tail.
Proof.
  intros Hp Hg Hm He found addr.
  destruct (parse_addr key (mk_eeprom_opt PLHW_NO_I2C_ADDR 0 0 0 0 0) s
              junk rest Hp Hg Hm) as (Hr & Hc & Hx & Ha & Hv).
  cbv zeta in Hr, Hc, Hx, Ha, Hv. fold found in Hr.
  unfold run_eeprom_cmd.
  rewrite pbind_eq. cbn [fst snd]. rewrite Hg.
  rewrite pbind_eq. fold parse. rewrite Hr. cbn [fst snd Z.eqb negb].
  set (s2 := snd (parse (mk_eeprom_opt PLHW_NO_I2C_ADDR 0 0 0 0 0) s)) in *.
  rewrite pbind_eq. cbn [fst snd with_i2c_addr i2c_addr].
  replace (if negb (found =? PLHW_NO_I2C_ADDR) then found else g_i2c_addr s2)
    with addr
    by (unfold addr; rewrite Ha; destruct (found =? PLHW_NO_I2C_ADDR);
        reflexivity).
  rewrite pbind_eq. unfold get_rest_ctx at 1. cbn [fst snd].
  rewrite Hx, He. change (NULL =? NULL) with true. cbv iota.
  rewrite pbind_eq.
  match goal with
  | |- exists tail, hw_calls (snd (_ _ ?st)) = _ => set (opened := st)
  end.
  assert (Ho : hw_calls opened
               = hw_calls s2 ++ [Eeprom_init addr eeprom_mode])
    by reflexivity.
  match goal with
  | |- exists tail, hw_calls (snd (?k ?a opened)) = _ =>
      assert (Hk : made any_call opened (snd (k a opened)))
  end.
  { cbv beta.
    unfold transfer_file, ask_full_rw, disable_stdin_buffering,
      restore_stdin_termios, tcgetattr, tcsetattr.
    repeat made_step; exact I. }
  destruct Hk as (tail & Ht & _). exists tail. rewrite Ht, Ho, Hc.
  now rewrite <- !app_assoc.
Qed.

End Eeprom_whole.


(** The key [vcom] is not in the configuration (the answer is -1, taken for
    [PLHW_NO_I2C_ADDR]): the EEPROM is opened at the address 80 of the
    option -a. *)
Lemma eeprom_address_falls_back_witness :
  exists tail : list hw_call,
    hw_calls (snd (run_eeprom_cmd 64 strtoul_dec (-1) 2 8
                     ["24c01"; "e2f"]
                     (desk plenty (fun _ => -1) (fun _ => [])
                           (Some "addr=vcom"))))
    = [Plconfig_get_i2c_addr 5 "vcom"; Eeprom_init 80 "24c01"] ++ tail.
Proof.
  apply (eeprom_address_falls_back 64 strtoul_dec (-1) 2 8
           "vcom" "24c01" "e2f" []
           (desk plenty (fun _ => -1) (fun _ => []) (Some "addr=vcom"))
           [] [Some []]).
  - cbn. repeat split.
  - reflexivity.
  - reflexivity.
  - reflexivity.
Defined.

(** ** The generic switch utility and the dispatcher *)

Lemma switch_scan_found (n : string) (pre post : list switch_id)
      (sw : switch_id) :
  Forall (other_switch n) pre ->
  sw_name sw = None \/ switch_named n sw = true ->
  switch_scan n (pre ++ sw :: post) = Some sw.
Proof.
  intros Hpre Hsw. induction Hpre as [|e pre [He1 He2] _ IH]; cbn.
  - unfold switch_named in Hsw. destruct (sw_name sw) as [m|]; [|reflexivity].
    destruct Hsw as [Hsw|Hsw]; [discriminate|]. now rewrite Hsw.
  - unfold switch_named in He2. destruct (sw_name e) as [m|]; [|contradiction].
    now rewrite He2.
Qed.

(** X9.  A switch that is not in the table.  For a table that ends with the
    entry of NULL name and has no entry called [name], [switch_on_off]
    returns -1 and does nothing else: neither function of the device is
    called and nothing is logged. *)
Theorem switch_on_off_unknown_name (entries : list switch_id)
        (last : switch_id) (ctx : ptr) (name : string)
        (on_off : option string) (get_sw : ptr -> Z -> P Z)
        (set_sw : ptr -> Z -> Z -> P Z) (s : machine) :
  Forall (other_switch name) entries ->
  sw_name last = None ->
  switch_on_off (entries ++ [last]) ctx name on_off get_sw set_sw s
  = (-1, s).
Proof.
  intros He Hl. unfold switch_on_off.
  rewrite (switch_scan_found name entries [] last He (or_introl Hl)).
  now rewrite Hl.
Qed.

(** X10.  A switch of the table.  The entry used is the first one called
    [name].  Without a value the state of the switch is read with the id of
    that entry, a negative answer is returned as it is, another one is
    logged and 0 returned.  With the value "on" the switch is set to 1 and
    with "off" to 0, and the result is that of the device; with any other
    value the device is not called, a line is logged and -1 returned. *)
Theorem switch_on_off_first_match (pre post : list switch_id)
        (sw : switch_id) (ctx : ptr) (name : string)
        (get_sw : ptr -> Z -> P Z) (set_sw : ptr -> Z -> Z -> P Z)
        (s : machine) :
  Forall (other_switch name) pre ->
  sw_name sw = Some name ->
  let tbl := pre ++ sw :: post in
  let read := get_sw ctx (sw_id sw) s in
  switch_on_off tbl ctx name None get_sw set_sw s
  = (if fst read <? 0 then read
     else (0, logged (String.append name
                        (String.append ": " (on_off_text (fst read))))
                     (snd read))) /\
  switch_on_off tbl ctx name (Some "on") get_sw set_sw s
  = set_sw ctx (sw_id sw) 1 s /\
  switch_on_off tbl ctx name (Some "off") get_sw set_sw s
  = set_sw ctx (sw_id sw) 0 s /\
  forall text : string,
    text <> "on" -> text <> "off" ->
    switch_on_off tbl ctx name (Some text) get_sw set_sw s
    = (-1, logged (String.append "invalid value: "
                     (String.append text ", expected [on off]")) s).
Proof.
  intros Hpre Hsw tbl read. subst tbl.
  assert (Hscan : switch_scan name (pre ++ sw :: post) = Some sw).
  { apply switch_scan_found; [exact Hpre|]. right.
    unfold switch_named. rewrite Hsw. apply String.eqb_refl. }
  unfold switch_on_off. rewrite Hscan, Hsw.
  split; [|split; [|split]].
  - rewrite pbind_eq. fold read. destruct (fst read <? 0).
    + now destruct read.
    + reflexivity.
  - reflexivity.
  - reflexivity.
  - intros text H1 H2. unfold get_on_off_opt.
    apply String.eqb_neq in H1, H2. rewrite H1, H2. reflexivity.
Qed.

Lemma cmd_scan_found (n : string) (pre post : list command) (c : command) :
  Forall (other_command n) pre ->
  cmd c = None \/ command_named n c = true ->
  cmd_scan n (pre ++ c :: post) = Some c.
Proof.
  intros Hpre Hc. induction Hpre as [|e pre [He1 He2] _ IH]; cbn.
  - unfold command_named in Hc. destruct (cmd c) as [m|]; [|reflexivity].
    destruct Hc as [Hc|Hc]; [discriminate|]. now rewrite Hc.
  - unfold command_named in He2. destruct (cmd e) as [m|]; [|contradiction].
    now rewrite He2.
Qed.

(** X11.  A command that is not in the table.  For a table that ends with
    the entry of NULL name and has no entry called [cmd_str], [run_cmd] runs
    no command: it logs a line, prints the whole help and returns -1. *)
Theorem run_cmd_unknown_command (entries : list command) (last : command)
        (cmd_str : string) (cmd_argv : list string) (s : machine) :
  Forall (other_command cmd_str) entries ->
  cmd last = None ->
  let commands := entries ++ [last] in
  run_cmd commands (cmd_str :: cmd_argv) s
  = (-1, snd (print_help commands None (logged "invalid arguments" s))).
Proof.
  intros He Hl commands. subst commands. unfold run_cmd.
  rewrite (cmd_scan_found cmd_str entries [] last He (or_introl Hl)).
  now rewrite Hl.
Qed.

(** X12.  A command of the table.  The function run is that of the first
    entry called [cmd_str], with the arguments that follow the name; its
    result is returned as it is, after a line has been logged when it is
    negative. *)
Theorem run_cmd_runs_first_match (pre post : list command) (c : command)
        (f : list string -> P Z) (cmd_str : string)
        (cmd_argv : list string) (s : machine) :
  Forall (other_command cmd_str) pre ->
  cmd c = Some cmd_str ->
  run c = Some f ->
  let r := f cmd_argv s in
  run_cmd (pre ++ c :: post) (cmd_str :: cmd_argv) s
  = (fst r, if fst r <? 0 then logged "command failed" (snd r) else snd r).
Proof.
  intros Hpre Hc Hf r.
  assert (Hscan : cmd_scan cmd_str (pre ++ c :: post) = Some c).
  { apply cmd_scan_found; [exact Hpre|]. right.
    unfold command_named. rewrite Hc. apply String.eqb_refl. }
  unfold run_cmd. rewrite Hscan, Hc, Hf.
  rewrite !pbind_eq. fold r. destruct (fst r <? 0); reflexivity.
Qed.

(** The switch [gate] is not in the table. *)
Lemma switch_on_off_unknown_name_witness :
  switch_on_off some_switches 9 "gate" (Some "on") rail_get rail_set
                (desk plenty plenty (fun _ => []) None)
  = (-1, desk plenty plenty (fun _ => []) None).
Proof.
  apply (switch_on_off_unknown_name
           [mk_switch_id (Some "vee") 1; mk_switch_id (Some "vpos") 2]
           (mk_switch_id None (-1))).
  - repeat constructor; discriminate.
  - reflexivity.
Defined.

(** The switch [vpos] is the second entry; its id is 2. *)
Lemma switch_on_off_first_match_witness :
  hw_calls (snd (switch_on_off some_switches 9 "vpos" (Some "off")
                               rail_get rail_set
                               (desk plenty plenty (fun _ => []) None)))
  = [Tps65185_set_en 9 2 0].
Proof.
  destruct (switch_on_off_first_match
              [mk_switch_id (Some "vee") 1] [mk_switch_id None (-1)]
              (mk_switch_id (Some "vpos") 2) 9 "vpos" rail_get rail_set
              (desk plenty plenty (fun _ => []) None))
    as (_ & _ & Hoff & _).
  - repeat constructor; discriminate.
  - reflexivity.
  - cbv zeta in Hoff.
    change (switch_on_off some_switches 9 "vpos" (Some "off") rail_get
              rail_set (desk plenty plenty (fun _ => []) None)
            = rail_set 9 2 0 (desk plenty plenty (fun _ => []) None))
      in Hoff.
    rewrite Hoff. reflexivity.
Defined.

(** The command [adc] is not in the table. *)
Lemma run_cmd_unknown_command_witness :
  fst (run_cmd some_commands ["adc"; "vdd"]
               (desk plenty plenty (fun _ => []) None))
  = -1.
Proof.
  assert (Hpre : Forall (other_command "adc")
            [ mk_command (Some "pbtn") (Some "  buttons\n")
                         (Some (fun _ => run_pbtn));
              mk_command (Some "dac") (Some "  channels\n")
                         (Some (fun argv => lift (run_dac atoi_dec argv))) ])
    by (repeat constructor; discriminate).
  pose proof (run_cmd_unknown_command _ (mk_command None None None) "adc"
                ["vdd"] (desk plenty plenty (fun _ => []) None) Hpre eq_refl)
    as H.
  cbv zeta in H.
  exact (f_equal fst H).
Defined.

(** The command [dac] with the channel C fails: the line is logged after
    that of [run_dac]. *)
Lemma run_cmd_runs_first_match_witness :
  let r := run_cmd some_commands ["dac"; "C"; "on"]
                   (desk plenty plenty (fun _ => []) None) in
  fst r = -1 /\
  log (base (snd r))
  = [Line "invalid channel identifier (A or B)"; Line "command failed"].
Proof.
  cbv zeta.
  assert (Hpre : Forall (other_command "dac")
            [ mk_command (Some "pbtn") (Some "  buttons\n")
                         (Some (fun _ => run_pbtn)) ])
    by (repeat constructor; discriminate).
  pose proof (run_cmd_runs_first_match _ [mk_command None None None]
                (mk_command (Some "dac") (Some "  channels\n")
                   (Some (fun argv => lift (run_dac atoi_dec argv))))
                (fun argv => lift (run_dac atoi_dec argv)) "dac" ["C"; "on"]
                (desk plenty plenty (fun _ => []) None) Hpre eq_refl eq_refl)
    as H.
  cbv zeta in H.
  split; [exact (f_equal fst H) | exact (f_equal (fun r => log (base (snd r))) H)].
Defined.

(** ** DAC and push buttons *)

Lemma LOG_calls (text : string) (w : world) :
  calls (snd (LOG text w)) = calls w.
Proof. reflexivity. Qed.


(** X14.  The button test.  With the handle there, [run_pbtn] always makes
    the same seven calls: it gives the library the abort callback, waits
    five times (button 7 on, button 7 off, button 9 on, all off, any on) and
    takes the callback back.  A wait that fails does not stop it; the
    result is -1 when one of the five waits has answered a negative value
    and 0 otherwise. *)
Theorem run_pbtn_waits_for_all (s : machine) :
  pbtn (rest_ctx s) <> NULL ->
  let p := pbtn (rest_ctx s) in
  let n := List.length (hw_calls s) in
  let r := run_pbtn s in
  hw_calls (snd r)
  = hw_calls s
    ++ [ Pbtn_set_abort_cb p true;
         Pbtn_wait p PBTN_7 1; Pbtn_wait p PBTN_7 0; Pbtn_wait p PBTN_9 1;
         Pbtn_wait p PBTN_ALL 0; Pbtn_wait_any p PBTN_ALL 1;
         Pbtn_set_abort_cb p false ] /\
  fst r
  = (if forallb (fun j => 0 <=? hw_env s (n + j)) [1; 2; 3; 4; 5]%nat
     then 0 else -1).
Proof.
  intros Hp p n r.
  assert (E : r = run_pbtn s) by reflexivity. clearbody r.
  apply Z.eqb_neq in Hp.
  unfold run_pbtn in E.
  rewrite pbind_eq in E. unfold get_rest_ctx at 1 in E. cbn [fst snd] in E.
  rewrite Hp in E. cbv iota in E.
  rewrite pbind_eq in E. cbn [fst snd pret] in E.
  rewrite pbind_eq in E. unfold get_rest_ctx in E. cbn [fst snd] in E.
  rewrite Hp in E. cbv iota zeta in E. fold p in E.
  pose proof (after_refl s) as A.
  do 18 walk E.
  cbn [pret] in E. subst r. cbn [fst snd].
  destruct A as (A & _). fold n.
  split; [exact A|].
  cbn [forallb].
  rewrite !(Z.leb_antisym _ 0).
  destruct (hw_env s (n + 1) <? 0), (hw_env s (n + 2) <? 0),
    (hw_env s (n + 3) <? 0), (hw_env s (n + 4) <? 0),
    (hw_env s (n + 5) <? 0); reflexivity.
Qed.

(** The second wait (button 7 off) fails: the others are made all the same
    and the result is -1. *)
Lemma run_pbtn_waits_for_all_witness :
  let r := run_pbtn (desk_open (fun n => if Nat.eqb n 2 then -1 else 1)
                               (fun _ => [])) in
  fst r = -1 /\ List.length (hw_calls (snd r)) = 7%nat.
Proof.
  cbv zeta.
  destruct (run_pbtn_waits_for_all
              (desk_open (fun n => if Nat.eqb n 2 then -1 else 1)
                         (fun _ => []))
              ltac:(discriminate)) as [Hc Hr].
  split.
  - rewrite Hr. reflexivity.
  - rewrite Hc. reflexivity.
Defined.

(** ** TPS65185 *)

Section Tps65185_properties.

Variable atoi : string -> Z.
Variables STROBE1 STROBE2 STROBE3 STROBE4 : Z.

Let seq_ := run_tps65185_seq atoi STROBE1 STROBE2 STROBE3 STROBE4.
Let item := dump_tps65185_seq_item STROBE1 STROBE2 STROBE3 STROBE4.

Lemma strobes_loop_valid (args rest : list string) (s : machine) :
  Forall strobe_number (map atoi args) ->
  strobes_loop atoi (List.length args) (args ++ rest) s
  = ((Some (map (fun a => atoi a - 1) args), rest), s).
Proof.
  induction args as [|a args IH]; intros H; cbn [List.length app map].
  - reflexivity.
  - inversion H as [|x l Hx Hl]; subst. unfold strobe_number in Hx.
    cbn [strobes_loop].
    replace ((atoi a <? 1) || (atoi a >? 4)) with false
      by (symmetry; apply orb_false_iff; split; lia).
    rewrite pbind_eq, (IH Hl). reflexivity.
Qed.

Lemma delays_loop_valid (args rest : list string) (s : machine) :
  Forall strobe_delay (map atoi args) ->
  delays_loop atoi (List.length args) (args ++ rest) s
  = ((Some (map (fun a => Z.quot (atoi a) 3 - 1) args), rest), s).
Proof.
  induction args as [|a args IH]; intros H; cbn [List.length app map].
  - reflexivity.
  - inversion H as [|x l Hx Hl]; subst. unfold strobe_delay in Hx.
    cbn [delays_loop].
    replace ((atoi a <? 3) || (atoi a >? 12)
             || negb (Z.rem (atoi a) 3 =? 0)) with false
      by (destruct Hx as [-> | [-> | [-> | ->]]]; reflexivity).
    rewrite pbind_eq, (IH Hl). reflexivity.
Qed.

(** What the loops store is in the range of the enumerations, and they make
    no call. *)
Lemma strobes_loop_range (n : nat) :
  forall (it : list string) (s : machine) (l : list Z),
    fst (fst (strobes_loop atoi n it s)) = Some l ->
    Forall (fun x => 0 <= x <= 3) l /\ List.length l = n.
Proof.
  induction n as [|n IH]; intros it s l; cbn [strobes_loop].
  - cbn. intros [= <-]. split; [constructor | reflexivity].
  - destruct it as [|a it]; [cbn; discriminate|].
    destruct ((atoi a <? 1) || (atoi a >? 4)) eqn:E; [cbn; discriminate|].
    rewrite pbind_eq. cbn [fst snd pret].
    destruct (fst (fst (strobes_loop atoi n it s))) as [l'|] eqn:El;
      [|cbn; discriminate].
    cbn. intros [= <-]. destruct (IH it s l' El) as [Hf Hn].
    apply orb_false_iff in E. split.
    + constructor; [lia | exact Hf].
    + cbn. now rewrite Hn.
Qed.

Lemma delays_loop_range (n : nat) :
  forall (it : list string) (s : machine) (l : list Z),
    fst (fst (delays_loop atoi n it s)) = Some l ->
    Forall (fun x => 0 <= x <= 3) l /\ List.length l = n.
Proof.
  induction n as [|n IH]; intros it s l; cbn [delays_loop].
  - cbn. intros [= <-]. split; [constructor | reflexivity].
  - destruct it as [|a it]; [cbn; discriminate|].
    destruct ((atoi a <? 3) || (atoi a >? 12)
              || negb (Z.rem (atoi a) 3 =? 0)) eqn:E; [cbn; discriminate|].
    rewrite pbind_eq. cbn [fst snd pret].
    destruct (fst (fst (delays_loop atoi n it s))) as [l'|] eqn:El;
      [|cbn; discriminate].
    cbn. intros [= <-]. destruct (IH it s l' El) as [Hf Hn].
    apply orb_false_iff in E. destruct E as [E _].
    apply orb_false_iff in E. split.
    + constructor; [|exact Hf].
      assert (3 <= atoi a <= 12) by lia.
      pose proof (Z.quot_le_mono 3 (atoi a) 3 ltac:(lia) ltac:(lia)).
      pose proof (Z.quot_le_mono (atoi a) 12 3 ltac:(lia) ltac:(lia)).
      change (Z.quot 3 3) with 1 in *. change (Z.quot 12 3) with 4 in *.
      lia.
    + cbn. now rewrite Hn.
Qed.

Lemma strobes_loop_quiet (n : nat) (ok : hw_call -> Prop) :
  forall (it : list string) (s : machine),
    made ok s (snd (strobes_loop atoi n it s)).
Proof.
  induction n as [|n IH]; intros it s; cbn [strobes_loop].
  - apply made_refl.
  - destruct it as [|a it]; [repeat made_step|].
    destruct ((atoi a <? 1) || (atoi a >? 4)); [repeat made_step|].
    apply made_bind; [apply IH | intros; apply made_refl].
Qed.

Lemma delays_loop_quiet (n : nat) (ok : hw_call -> Prop) :
  forall (it : list string) (s : machine),
    made ok s (snd (delays_loop atoi n it s)).
Proof.
  induction n as [|n IH]; intros it s; cbn [delays_loop].
  - apply made_refl.
  - destruct it as [|a it]; [repeat made_step|].
    destruct ((atoi a <? 3) || (atoi a >? 12)
              || negb (Z.rem (atoi a) 3 =? 0)); [repeat made_step|].
    apply made_bind; [apply IH | intros; apply made_refl].
Qed.

Section Round_trip.

(** The enumerators count from 0, as the code that stores [value - 1] in a
    strobe takes them to. *)
Hypothesis enumerators :
  STROBE1 = 0 /\ STROBE2 = 1 /\ STROBE3 = 2 /\ STROBE4 = 3.

Lemma dump_item_line (name : string) (v : Z) (seq : tps65185_seq)
      (s : machine) :
  strobe_number v ->
  item name (v - 1) seq s
  = (tt, set_base
           (add_log
              (seq_line name v
                 ((nth (Z.to_nat (v - 1))
                       [strobe1 seq; strobe2 seq; strobe3 seq; strobe4 seq]
                       0 + 1) * 3))
              (base s)) s).
Proof.
  intros Hv. destruct enumerators as (-> & -> & -> & ->).
  unfold strobe_number in Hv.
  assert (Hc : v = 1 \/ v = 2 \/ v = 3 \/ v = 4) by lia.
  destruct Hc as [-> | [-> | [-> | ->]]]; reflexivity.
Qed.

Lemma delay_back (d : Z) : strobe_delay d -> (Z.quot d 3 - 1 + 1) * 3 = d.
Proof. intros [-> | [-> | [-> | ->]]]; reflexivity. Qed.

(** X15.  A power sequence written and read back.  For strobe numbers from 1
    to 4 and delays of 3, 6, 9 or 12 ms, the command [seq up] or [seq down]
    with the eight numbers makes one call of [tps65185_set_seq]; when the
    device later gives that sequence back, the command without the numbers
    logs, for each of the four rails, the strobe number that was typed and
    the delay that was typed for that strobe. *)
Theorem tps65185_seq_round_trip (p : ptr) (up_str : string)
        (a1 a2 a3 a4 a5 a6 a7 a8 : string) (s s' : machine) :
  up_str = "up" \/ up_str = "down" ->
  Forall strobe_number (map atoi [a1; a2; a3; a4]) ->
  Forall strobe_delay (map atoi [a5; a6; a7; a8]) ->
  let up := if String.eqb up_str "up" then 1 else 0 in
  let delay_of (a : string) :=
    nth (Z.to_nat (atoi a - 1)) (map atoi [a5; a6; a7; a8]) 0 in
  let seq :=
    mk_tps65185_seq (atoi a1 - 1) (atoi a2 - 1) (atoi a3 - 1) (atoi a4 - 1)
                    (Z.quot (atoi a5) 3 - 1) (Z.quot (atoi a6) 3 - 1)
                    (Z.quot (atoi a7) 3 - 1) (Z.quot (atoi a8) 3 - 1) in
  run_tps65185_seq atoi STROBE1 STROBE2 STROBE3 STROBE4 p
                   [up_str; a1; a2; a3; a4; a5; a6; a7; a8] s
  = hw (Tps65185_set_seq p seq up) s /\
  (hw_env s' (List.length (hw_calls s')) = 0 ->
   hw_data s' (List.length (hw_calls s')) = data_of_seq seq ->
   let r := run_tps65185_seq atoi STROBE1 STROBE2 STROBE3 STROBE4 p
                             [up_str] s' in
   fst r = 0 /\
   hw_calls (snd r) = hw_calls s' ++ [Tps65185_get_seq p up] /\
   log (base (snd r))
   = log (base s')
     ++ [ seq_line "VDDH" (atoi a1) (delay_of a1);
          seq_line "VPOS" (atoi a2) (delay_of a2);
          seq_line "VEE" (atoi a3) (delay_of a3);
          seq_line "VNEG" (atoi a4) (delay_of a4) ]).
Proof.
  intros Hup Hv Hd up delay_of seq. subst seq.
  assert (Hu : (if String.eqb up_str "up" then Some 1
                else if String.eqb up_str "down" then Some 0 else None)
               = Some up).
  { unfold up. destruct Hup as [-> | ->]; reflexivity. }
  split.
  - unfold run_tps65185_seq. rewrite Hu.
    cbn [List.length Z.of_nat Pos.of_succ_nat Pos.succ Z.eqb Pos.eqb negb].
    rewrite pbind_eq.
    pose proof (strobes_loop_valid [a1; a2; a3; a4] [a5; a6; a7; a8] s Hv)
      as Hs.
    cbn [List.length app] in Hs. rewrite Hs.
    cbn [fst snd]. rewrite pbind_eq.
    pose proof (delays_loop_valid [a5; a6; a7; a8] [] s Hd) as Hl.
    cbn [List.length app] in Hl. rewrite Hl. reflexivity.
  - intros He Hdata r. subst r.
    unfold run_tps65185_seq. rewrite Hu.
    unfold hw_out, dump_tps65185_seq.
    rewrite !pbind_eq. cbn [fst snd]. rewrite He, Hdata.
    cbn [Z.eqb negb]. rewrite !pbind_eq.
    inversion Hv as [|v1 l1 Hv1 Hl1]; subst.
    inversion Hl1 as [|v2 l2 Hv2 Hl2]; subst.
    inversion Hl2 as [|v3 l3 Hv3 Hl3]; subst.
    inversion Hl3 as [|v4 l4 Hv4 Hl4]; subst.
    cbn [seq_of_data data_of_seq map app nth vddh vpos vee vneg].
    fold item.
    rewrite (dump_item_line _ _ _ _ Hv1). cbn [fst snd].
    rewrite (dump_item_line _ _ _ _ Hv2). cbn [fst snd].
    rewrite (dump_item_line _ _ _ _ Hv3). cbn [fst snd].
    rewrite (dump_item_line _ _ _ _ Hv4). cbn [fst snd].
    unfold pret. cbn [fst snd strobe1 strobe2 strobe3 strobe4].
    split; [reflexivity|]. split; [reflexivity|].
    cbn [base set_base log add_log]. rewrite <- !app_assoc. cbn [app].
    inversion Hd as [|d1 m1 Hd1 Hm1]; subst.
    inversion Hm1 as [|d2 m2 Hd2 Hm2]; subst.
    inversion Hm2 as [|d3 m3 Hd3 Hm3]; subst.
    inversion Hm3 as [|d4 m4 Hd4 Hm4]; subst.
    assert (Hback : forall v : Z,
               strobe_number v ->
               (nth (Z.to_nat (v - 1))
                    [Z.quot (atoi a5) 3 - 1; Z.quot (atoi a6) 3 - 1;
                     Z.quot (atoi a7) 3 - 1; Z.quot (atoi a8) 3 - 1] 0 + 1)
               * 3
               = nth (Z.to_nat (v - 1))
                     [atoi a5; atoi a6; atoi a7; atoi a8] 0).
    { intros v Hn. unfold strobe_number in Hn.
      assert (Hc : v = 1 \/ v = 2 \/ v = 3 \/ v = 4) by lia.
      destruct Hc as [-> | [-> | [-> | ->]]]; cbn [Z.sub Z.add Z.opp Z.to_nat
        Pos.to_nat Pos.iter_op Nat.add nth Z.pos_sub Pos.pred_double];
        now apply delay_back. }
    unfold delay_of. cbn [map].
    rewrite <- !Hback by assumption. reflexivity.
Qed.

End Round_trip.

Lemma get_on_off_opt_range (text : string) :
  (get_on_off_opt text <? 0) = false ->
  get_on_off_opt text = 0 \/ get_on_off_opt text = 1.
Proof.
  unfold get_on_off_opt.
  destruct (String.eqb text "on"); [auto|].
  destruct (String.eqb text "off"); [auto|]. discriminate.
Qed.

Lemma en_scan_found (en_str : string) (names : list string) :
  forall k : Z,
    0 <= k ->
    let id := en_scan en_str names k in
    k <= id <= k + Z.of_nat (List.length names) /\
    (id <> k + Z.of_nat (List.length names) ->
     nth_error names (Z.to_nat (id - k)) = Some en_str).
Proof.
  induction names as [|n names IH]; intros k Hk; cbn [en_scan List.length].
  - cbn. split; [lia|]. intros H. lia.
  - destruct (String.eqb en_str n) eqn:E.
    + cbn zeta. split; [lia|]. intros _.
      replace (k - k) with 0 by lia. apply String.eqb_eq in E. now subst.
    + destruct (IH (k + 1) ltac:(lia)) as [H1 H2]. cbv zeta in H1, H2.
      cbn zeta. split; [lia|]. intros Hne.
      replace (Z.to_nat (en_scan en_str names (k + 1) - k))
        with (S (Z.to_nat (en_scan en_str names (k + 1) - (k + 1))))
        by lia.
      cbn [nth_error]. apply H2. lia.
Qed.

Lemma dump_tps65185_en_reads (names : list string) (ok : hw_call -> Prop)
      (p : ptr) :
  (forall id : Z, ok (Tps65185_get_en p id)) ->
  forall (en_id : Z) (s : machine),
    made ok s (snd (dump_tps65185_en names p en_id s)).
Proof.
  intros Hok. induction names as [|n names IH]; intros en_id s;
    cbn [dump_tps65185_en].
  - apply made_refl.
  - apply made_bind; [apply made_hw; apply Hok|]. intros en s1.
    destruct (en <? 0); [apply made_refl|].
    apply made_bind; [apply made_lift | intros; apply IH].
Qed.

Lemma dump_tps65185_seq_quiet (ok : hw_call -> Prop) (seq : tps65185_seq)
      (s : machine) :
  made ok s (snd (dump_tps65185_seq STROBE1 STROBE2 STROBE3 STROBE4 seq s)).
Proof.
  unfold dump_tps65185_seq, dump_tps65185_seq_item. repeat made_step.
Qed.

(** X16.  What [run_tps65185] gives the TPS65185.  Whatever the arguments,
    a call of a run either reads, or writes a value in the range of the
    device that comes from the arguments: a VCOM value from 0 to 511,
    strobes and delays from 0 to 3, a power mode, or 0 or 1 for the power
    rail whose name was given. *)
Theorem run_tps65185_writes_in_range (argv : list string) (s : machine) :
  made (tps65185_call_ok atoi argv) s
       (snd (run_tps65185 atoi STROBE1 STROBE2 STROBE3 STROBE4 argv s)).
Proof.
  unfold run_tps65185.
  apply made_bind.
  { unfold require_tps65185. repeat made_step; exact I. }
  intros p s1. destruct (p =? NULL); [apply made_refl|].
  destruct argv as [|cmd_str more].
  { (* the state of the device *)
    unfold dump_tps65185_state.
    apply made_bind; [apply made_hw_out; exact I | intros info s2].
    apply made_bind; [apply made_lift | intros _ s3].
    apply made_bind; [apply made_hw_out; exact I | intros v s4].
    destruct (negb (fst v =? 0)); [repeat made_step|].
    apply made_bind; [apply made_lift | intros _ s5].
    apply made_bind; [apply made_hw_out; exact I | intros u s6].
    destruct (negb (fst u =? 0)); [apply made_refl|].
    apply made_bind; [apply made_lift | intros _ s7].
    apply made_bind; [apply dump_tps65185_seq_quiet | intros _ s8].
    apply made_bind; [apply made_hw_out; exact I | intros d s9].
    destruct (negb (fst d =? 0)); [apply made_refl|].
    apply made_bind; [apply made_lift | intros _ s10].
    apply made_bind; [apply dump_tps65185_seq_quiet | intros _ s11].
    apply made_bind; [apply made_lift | intros _ s12].
    apply dump_tps65185_en_reads. intros id. exact I. }
  destruct (String.eqb cmd_str "vcom").
  { (* vcom *)
    unfold run_tps65185_vcom. destruct more as [|arg more].
    - repeat made_step; exact I.
    - destruct ((atoi arg <? 0) || (atoi arg >? 511)) eqn:E;
        [repeat made_step|].
      apply orb_false_iff in E. destruct E as [E1 E2].
      apply made_bind; [apply made_lift | intros _ s2].
      apply made_hw. cbn.
      rewrite Z.mod_small by (change (2 ^ 16) with 65536; lia).
      split; [lia | reflexivity]. }
  destruct (String.eqb cmd_str "seq").
  { (* seq *)
    unfold run_tps65185_seq. destruct more as [|up_down_str it];
      [repeat made_step|].
    destruct (String.eqb up_down_str "up") eqn:Eup;
      [|destruct (String.eqb up_down_str "down") eqn:Edown;
        [|repeat made_step]].
    all: destruct it as [|a it];
      [ apply made_bind; [apply made_hw_out; exact I | intros r s2];
        destruct (negb (fst r =? 0)); [apply made_refl|];
        apply made_bind; [apply dump_tps65185_seq_quiet
                         | intros; apply made_refl] |].
    all: match goal with
         | |- context [if ?b then _ else _] => destruct b
         end; [repeat made_step|].
    all: rewrite pbind_eq;
      eapply made_trans; [apply strobes_loop_quiet|];
      destruct (fst (fst (strobes_loop atoi 4 (a :: it) s1)))
        as [strobes|] eqn:Es; [|apply made_refl];
      destruct (strobes_loop_range 4 _ _ _ Es) as [Fs Ls];
      rewrite pbind_eq;
      eapply made_trans; [apply delays_loop_quiet|];
      match goal with
      | |- context [delays_loop atoi 4 ?i ?st] =>
          destruct (fst (fst (delays_loop atoi 4 i st)))
            as [delays|] eqn:Ed; [|apply made_refl];
          destruct (delays_loop_range 4 _ _ _ Ed) as [Fd Ld]
      end;
      apply made_hw;
      (split; [|auto]);
      do 4 (destruct strobes as [|? strobes]; [discriminate|]);
      destruct strobes; [|discriminate];
      do 4 (destruct delays as [|? delays]; [discriminate|]);
      destruct delays; [|discriminate];
      unfold data_of_seq, seq_of_data; cbn [app nth vddh vpos vee vneg
        strobe1 strobe2 strobe3 strobe4];
      change (Forall (fun x => 0 <= x <= 3)
                     ([z; z0; z1; z2] ++ [z3; z4; z5; z6]));
      apply Forall_app; split; assumption. }
  destruct (String.eqb cmd_str "active"); [apply made_hw; exact I|].
  destruct (String.eqb cmd_str "standby"); [apply made_hw; exact I|].
  destruct (String.eqb cmd_str "en"); [|repeat made_step].
  (* en *)
  unfold run_tps65185_en. destruct more as [|en_str more];
    [repeat made_step|].
  destruct (en_scan_found en_str tps65185_en_id_str 0 ltac:(lia))
    as [Hr Hf].
  cbv zeta in Hr, Hf.
  change (Z.of_nat (List.length tps65185_en_id_str)) with 6 in Hr, Hf.
  set (id := en_scan en_str tps65185_en_id_str 0) in *.
  destruct (id =? 6) eqn:E6; [repeat made_step|].
  apply Z.eqb_neq in E6.
  destruct more as [|arg more]; [repeat made_step; exact I|].
  destruct (get_on_off_opt arg <? 0) eqn:Eon; [apply made_refl|].
  apply made_hw. cbn [tps65185_call_ok nth_error].
  split; [lia|]. split.
  - rewrite <- (Hf ltac:(lia)). now rewrite Z.sub_0_r.
  - now apply get_on_off_opt_range.
Qed.

End Tps65185_properties.

(** The sequence [seq up 2 1 4 3 3 6 9 12], written and read back. *)
Lemma tps65185_seq_round_trip_witness :
  let back := desk_open (fun _ => 0) (fun _ => [1; 0; 3; 2; 0; 1; 2; 3]) in
  hw_calls (snd (run_tps65185_seq atoi_dec 0 1 2 3 6
                   ["up"; "2"; "1"; "4"; "3"; "3"; "6"; "9"; "12"]
                   (desk_open (fun _ => 0) (fun _ => []))))
  = [Tps65185_set_seq 6 (mk_tps65185_seq 1 0 3 2 0 1 2 3) 1] /\
  log (base (snd (run_tps65185_seq atoi_dec 0 1 2 3 6 ["up"] back)))
  = [ Line " VDDH: STROBE2 (6 ms)"; Line " VPOS: STROBE1 (3 ms)";
      Line "  VEE: STROBE4 (12 ms)"; Line " VNEG: STROBE3 (9 ms)" ].
Proof.
  cbv zeta.
  assert (Hv : Forall strobe_number (map atoi_dec ["2"; "1"; "4"; "3"])).
  { repeat (apply Forall_cons; [split; vm_compute; discriminate|]).
    apply Forall_nil. }
  assert (Hd : Forall strobe_delay (map atoi_dec ["3"; "6"; "9"; "12"])).
  { apply Forall_cons; [left; reflexivity|].
    apply Forall_cons; [right; left; reflexivity|].
    apply Forall_cons; [right; right; left; reflexivity|].
    apply Forall_cons; [right; right; right; reflexivity|].
    apply Forall_nil. }
  destruct (tps65185_seq_round_trip atoi_dec 0 1 2 3
              (conj eq_refl (conj eq_refl (conj eq_refl eq_refl)))
              6 "up" "2" "1" "4" "3" "3" "6" "9" "12"
              (desk_open (fun _ => 0) (fun _ => []))
              (desk_open (fun _ => 0) (fun _ => [1; 0; 3; 2; 0; 1; 2; 3]))
              (or_introl eq_refl) Hv Hd) as [Hset Hget].
  split.
  - rewrite Hset. reflexivity.
  - destruct (Hget eq_refl eq_refl) as (_ & _ & Hlog).
    rewrite Hlog. reflexivity.
Defined.

(** ** MAX17135 *)

Section Max17135_properties.

Variable atoi : string -> Z.
Variable char_is_signed : bool.
Variables FAULT_NONE FAULT_FBPG FAULT_HVINP FAULT_HVINN : Z.
Variables FAULT_FBNG FAULT_HVINPSC FAULT_HVINNSC FAULT_OT : Z.
Variable float : Type.
Variable convert_temperature : ptr -> Z -> float.
Variable fmt_1f : float -> string.
Variable args_left_to_right : bool.

Lemma read_timings_firstn (n : nat) :
  forall (args : list string) (s : machine),
    read_timings atoi n args s = read_timings atoi n (firstn n args) s.
Proof.
  induction n as [|n IH]; intros args s; [reflexivity|].
  destruct args as [|a args]; [reflexivity|].
  cbn [firstn read_timings].
  destruct ((atoi a <? 0) || (atoi a >? 255)); [reflexivity|].
  rewrite !pbind_eq. now rewrite IH.
Qed.

(** X17.  More than eight timings.  When [timings] is given more than eight
    values, the ninth and the following ones are not used and not even
    checked: but for the warning logged first, the run is that of the first
    eight values alone. *)
Theorem timings_beyond_eight_are_ignored (p : ptr) (argv : list string)
        (s : machine) :
  (8 < List.length argv)%nat ->
  set_max17135_timings atoi char_is_signed p argv s
  = set_max17135_timings atoi char_is_signed p (firstn 8 argv)
      (logged "warning: only using the 8 first timings" s).
Proof.
  intros Hlen.
  do 9 (destruct argv as [|? argv]; [cbn in Hlen; lia|]).
  unfold set_max17135_timings.
  cbn [firstn List.length].
  change (Z.of_nat MAX17135_NB_TIMINGS) with 8.
  replace (Z.of_nat (S (S (S (S (S (S (S (S (S (List.length argv))))))))))
             =? 1) with false by (symmetry; apply Z.eqb_neq; lia).
  replace (Z.of_nat (S (S (S (S (S (S (S (S (S (List.length argv))))))))))
             >? 8) with true by (symmetry; apply Z.gtb_lt; lia).
  change (Z.of_nat 8 =? 1) with false.
  change (Z.of_nat 8 >? 8) with false.
  cbv iota.
  change (fmt_d 8) with "8".
  change (Z.of_nat 8) with 8.
  repeat (progress (rewrite ?pbind_eq, ?PLOG_eq; cbv beta;
                    cbn [fst snd pret])).
  change (Z.to_nat 8) with 8%nat.
  rewrite (read_timings_firstn 8 (_ :: _)). cbn [firstn].
  reflexivity.
Qed.

(** X18.  One value.  [timings] with one argument first looks the argument
    up as the name of a power sequence: for a number from 0 to 255 this logs
    that no such sequence was found, and then the number is written as the
    only timing. *)
Theorem single_timing_is_looked_up_first (p : ptr) (arg : string)
        (s : machine) :
  arg <> "seq0" ->
  0 <= atoi arg <= 255 ->
  set_max17135_timings atoi char_is_signed p [arg] s
  = (let stat := hw_env s (List.length (hw_calls s)) in
     let s' := add_hw_call (Max17135_set_timings p [atoi arg] 1)
                           (noted (Seq_not_found arg) s) in
     if stat =? 0 then (0, s')
     else (stat, logged "failed to write the timings" s')).
Proof.
  intros Hname Hrange.
  assert (E : String.eqb arg "seq0" = false) by now apply String.eqb_neq.
  assert (R : (atoi arg <? 0) || (atoi arg >? 255) = false).
  { apply orb_false_iff. rewrite Z.gtb_ltb.
    split; apply Z.ltb_ge; lia. }
  assert (C : to_char (atoi arg) = atoi arg).
  { unfold to_char. apply Z.mod_small. lia. }
  unfold set_max17135_timings.
  cbn [List.length]. change (Z.of_nat 1 =? 1) with true.
  change (Z.of_nat 1 >? Z.of_nat MAX17135_NB_TIMINGS) with false.
  cbv iota.
  rewrite pbind_eq.
  unfold get_power_seq, get_power_seq_in, seqs, seq_scan, name, bind, ret,
    emit.
  rewrite E. unfold lift at 1 2. cbn [fst snd].
  rewrite pbind_eq. rewrite (pbind_eq (pret _)). cbn [fst snd pret].
  change (Z.to_nat (Z.of_nat 1)) with 1%nat.
  cbn [read_timings]. rewrite R.
  rewrite !pbind_eq. cbn [fst snd pret option_map]. rewrite C.
  rewrite pbind_eq, hw_eq. cbn [fst snd lift hw_env hw_calls set_base].
  change (Z.of_nat 1) with 1.
  destruct (hw_env s (List.length (hw_calls s)) =? 0); reflexivity.
Qed.

(** The loops over the timings make no call, and what they store are
    bytes. *)
Lemma log_timings_after (n : nat) :
  forall (i : Z) (t : list Z) (s : machine),
    after s [] (snd (log_timings char_is_signed n i t s)).
Proof.
  induction n as [|n IH]; intros i t s; cbn [log_timings].
  - apply after_refl.
  - rewrite pbind_eq.
    change (@nil hw_call) with (@nil hw_call ++ []).
    eapply after_trans; [|apply IH]. now apply after_same.
Qed.

Lemma print_timings_quiet (ok : hw_call -> Prop) (n : nat) :
  forall (i : Z) (t : list Z) (s : machine),
    made ok s (snd (print_timings char_is_signed n i t s)).
Proof.
  induction n as [|n IH]; intros i t s; cbn [print_timings].
  - apply made_refl.
  - apply made_bind; [now apply made_same | intros _ s1; apply IH].
Qed.

Lemma to_char_byte (z : Z) : 0 <= to_char z <= 255.
Proof. unfold to_char. pose proof (Z.mod_pos_bound z 256). lia. Qed.

Lemma copy_timings_bytes (ok : hw_call -> Prop) (n : nat) :
  forall (i : Z) (src : list Z) (s : machine),
    made ok s (snd (copy_timings char_is_signed n i src s)) /\
    Forall (fun t => 0 <= t <= 255)
           (fst (copy_timings char_is_signed n i src s)) /\
    List.length (fst (copy_timings char_is_signed n i src s)) = n.
Proof.
  induction n as [|n IH]; intros i src s; cbn [copy_timings].
  - repeat split; [apply made_refl | constructor].
  - rewrite !pbind_eq. cbn [fst snd pret].
    destruct (IH (i + 1) src (snd (PLOG
       (fmt_d i ++ ": " ++ fmt_d (char_value char_is_signed
                                     (nth (Z.to_nat i) src 0))) s)))
      as (Hm & Hf & Hl).
    repeat split.
    + eapply made_trans; [|exact Hm]. now apply made_same.
    + constructor; [apply to_char_byte | exact Hf].
    + cbn [List.length]. now rewrite Hl.
Qed.

Lemma read_timings_bytes (ok : hw_call -> Prop) (n : nat) :
  forall (args : list string) (s : machine),
    made ok s (snd (read_timings atoi n args s)) /\
    forall l : list Z,
      fst (read_timings atoi n args s) = Some l ->
      Forall (fun t => 0 <= t <= 255) l /\ List.length l = n.
Proof.
  induction n as [|n IH]; intros args s; cbn [read_timings].
  - split; [apply made_refl|]. cbn. intros l [= <-].
    split; [constructor | reflexivity].
  - destruct args as [|a args].
    { split; [repeat made_step|]. cbn. discriminate. }
    destruct ((atoi a <? 0) || (atoi a >? 255)).
    { split; [repeat made_step|]. cbn. discriminate. }
    rewrite !pbind_eq. cbn [fst snd pret].
    destruct (IH args s) as (Hm & Hl). split; [exact Hm|].
    intros l. destruct (fst (read_timings atoi n args s)) as [l'|];
      [|cbn; discriminate].
    cbn. intros [= <-]. destruct (Hl l' eq_refl) as (Hf & Hn). split.
    + constructor; [apply to_char_byte | exact Hf].
    + cbn [List.length]. now rewrite Hn.
Qed.

(** What one part of the dump asks the device, and what it returns. *)
Lemma dump_max17135_en_after (p : ptr) (id : max17135_en_id) (s : machine) :
  after s [Max17135_get_en p id] (snd (dump_max17135_en p id s)) /\
  fst (dump_max17135_en p id s)
  = if hw_env s (List.length (hw_calls s)) <? 0 then -1 else 0.
Proof.
  unfold dump_max17135_en. rewrite pbind_eq, hw_eq. cbn [fst snd].
  destruct (hw_env s (List.length (hw_calls s)) <? 0);
    rewrite pbind_eq, PLOG_eq; cbn [fst snd pret]; repeat split.
Qed.

Lemma dump_max17135_timings_after (p : ptr) (s : machine) :
  after s [Max17135_get_timings p 8]
        (snd (dump_max17135_timings char_is_signed p s)) /\
  fst (dump_max17135_timings char_is_signed p s)
  = hw_env s (List.length (hw_calls s)).
Proof.
  unfold dump_max17135_timings. rewrite !pbind_eq. cbn [fst snd pret].
  split; [|reflexivity].
  change [Max17135_get_timings p 8]
    with ([Max17135_get_timings p 8] ++ []).
  eapply after_trans; [apply after_hw_out|].
  match goal with
  | |- context [if ?b then _ else _] => destruct b
  end; [now apply after_same | apply log_timings_after].
Qed.

Lemma dump_max17135_vcom_after (p : ptr) (s : machine) :
  after s [Max17135_get_vcom p]
        (snd (dump_max17135_vcom char_is_signed p s)) /\
  fst (dump_max17135_vcom char_is_signed p s)
  = if hw_env s (List.length (hw_calls s)) <? 0 then -1 else 0.
Proof.
  unfold dump_max17135_vcom. rewrite pbind_eq. cbn [fst snd hw_out].
  destruct (hw_env s (List.length (hw_calls s)) <? 0);
    rewrite pbind_eq, PLOG_eq; cbn [fst snd pret]; repeat split.
Qed.

Lemma dump_max17135_temperature_after (p : ptr) (s : machine) :
  let n := List.length (hw_calls s) in
  after s
        ([Max17135_get_temp_sensor_en p;
          Max17135_get_temperature p MAX17135_TEMP_INT]
         ++ (if hw_env s (n + 1) <? 0 then []
             else [Max17135_get_temperature p MAX17135_TEMP_EXT]))
        (snd (dump_max17135_temperature float convert_temperature fmt_1f
                                        p s)) /\
  fst (dump_max17135_temperature float convert_temperature fmt_1f p s)
  = if (hw_env s n <? 0) || (hw_env s (n + 1) <? 0)
       || (hw_env s (n + 2) <? 0)
    then -1 else 0.
Proof.
  intros n. unfold dump_max17135_temperature.
  assert (N1 : List.length (hw_calls s ++ [Max17135_get_temp_sensor_en p])
               = (n + 1)%nat) by (rewrite length_app; reflexivity).
  assert (N2 : List.length
                 ((hw_calls s ++ [Max17135_get_temp_sensor_en p])
                    ++ [Max17135_get_temperature p MAX17135_TEMP_INT])
               = (n + 2)%nat)
    by (rewrite !length_app; cbn [List.length]; unfold n; lia).
  rewrite pbind_eq, hw_eq. cbn [fst snd]. fold n.
  destruct (hw_env s n <? 0);
    repeat (rewrite ?pbind_eq, ?PLOG_eq;
            cbn [fst snd pret hw_out hw_env hw_calls hw_data add_hw_call
                 set_base];
            rewrite ?N1, ?N2);
    (destruct (hw_env s (n + 1) <? 0);
     [ rewrite pbind_eq, PLOG_eq; cbn [fst snd pret orb]; repeat split;
       cbn [hw_calls set_base add_hw_call app];
       rewrite <- ?app_assoc; reflexivity
     | repeat (rewrite ?pbind_eq, ?PLOG_eq;
               cbn [fst snd pret hw_out hw_env hw_calls hw_data add_hw_call
                    set_base orb];
               rewrite ?N1, ?N2);
       destruct (hw_env s (n + 2) <? 0);
       repeat (rewrite ?pbind_eq, ?PLOG_eq;
               cbn [fst snd pret hw_out hw_env hw_calls hw_data add_hw_call
                    set_base orb]);
       repeat split; cbn [hw_calls set_base add_hw_call app];
       rewrite <- ?app_assoc; reflexivity ]).
Qed.

(** The whole dump: what it asks the device, and what it returns. *)
Lemma dump_max17135_state_after (p : ptr) (s : machine) :
  let n := List.length (hw_calls s) in
  let a := fun j : nat => hw_env s (n + j) in
  let r := dump_max17135_state char_is_signed float convert_temperature
                               fmt_1f args_left_to_right p s in
  after s
        ((if args_left_to_right
          then [Max17135_get_prod_id p; Max17135_get_prod_rev p]
          else [Max17135_get_prod_rev p; Max17135_get_prod_id p])
         ++ [ Max17135_get_en p MAX17135_EN_EN;
              Max17135_get_en p MAX17135_EN_CEN;
              Max17135_get_en p MAX17135_EN_CEN2;
              Max17135_get_timings p 8;
              Max17135_get_vcom p;
              Max17135_get_temp_sensor_en p;
              Max17135_get_temperature p MAX17135_TEMP_INT ]
         ++ (if a 8%nat <? 0 then []
             else [Max17135_get_temperature p MAX17135_TEMP_EXT]))
        (snd r) /\
  fst r = if forallb (fun j => 0 <=? a j) (seq 2 8) then 0 else -1.
Proof.
  cbv beta zeta. unfold dump_max17135_state. rewrite pbind_eq.
  (* the two calls of the first line, in either order *)
  match goal with
  | |- context [snd (?f s)] => set (m := f)
  end.
  set (cs0 := if args_left_to_right
              then [Max17135_get_prod_id p; Max17135_get_prod_rev p]
              else [Max17135_get_prod_rev p; Max17135_get_prod_id p]).
  assert (A2 : after s cs0 (snd (m s))).
  { unfold m, cs0, after. destruct args_left_to_right; cbn;
      rewrite <- app_assoc; repeat split. }
  assert (Hlen : List.length cs0 = 2%nat)
    by (unfold cs0; destruct args_left_to_right; reflexivity).
  set (ids := fst (m s)). set (s2 := snd (m s)) in *.
  clearbody ids s2 cs0. clear m.
  destruct cs0 as [|c1 [|c2 [|? ?]]]; try discriminate Hlen. clear Hlen.
  (* the rest of the dump *)
  rewrite pbind_eq.
  match goal with
  | |- context [snd (PLOG ?t s2)] =>
      pose proof (after_trans _ _ _ _ _ A2 (after_lift (LOG t) s2)) as A3;
      change (snd (lift (LOG t) s2)) with (snd (PLOG t s2)) in A3;
      set (s3 := snd (PLOG t s2)) in *; clearbody s3
  end.
  rewrite pbind_eq.
  destruct (dump_max17135_en_after p MAX17135_EN_EN s3) as [B4 F4].
  rewrite F4. pose proof (after_env _ _ _ 0 A3) as E4.
  rewrite Nat.add_0_r in E4. rewrite E4.
  pose proof (after_trans _ _ _ _ _ A3 B4) as A4.
  set (s4 := snd (dump_max17135_en p MAX17135_EN_EN s3)) in *. clearbody s4.
  rewrite pbind_eq.
  destruct (dump_max17135_en_after p MAX17135_EN_CEN s4) as [B5 F5].
  rewrite F5. pose proof (after_env _ _ _ 0 A4) as E5.
  rewrite Nat.add_0_r in E5. rewrite E5.
  pose proof (after_trans _ _ _ _ _ A4 B5) as A5.
  set (s5 := snd (dump_max17135_en p MAX17135_EN_CEN s4)) in *. clearbody s5.
  rewrite pbind_eq.
  destruct (dump_max17135_en_after p MAX17135_EN_CEN2 s5) as [B6 F6].
  rewrite F6. pose proof (after_env _ _ _ 0 A5) as E6.
  rewrite Nat.add_0_r in E6. rewrite E6.
  pose proof (after_trans _ _ _ _ _ A5 B6) as A6.
  set (s6 := snd (dump_max17135_en p MAX17135_EN_CEN2 s5)) in *.
  clearbody s6.
  rewrite pbind_eq.
  destruct (dump_max17135_timings_after p s6) as [B7 F7].
  rewrite F7. pose proof (after_env _ _ _ 0 A6) as E7.
  rewrite Nat.add_0_r in E7. rewrite E7.
  pose proof (after_trans _ _ _ _ _ A6 B7) as A7.
  set (s7 := snd (dump_max17135_timings char_is_signed p s6)) in *.
  clearbody s7.
  rewrite pbind_eq.
  destruct (dump_max17135_vcom_after p s7) as [B8 F8].
  rewrite F8. pose proof (after_env _ _ _ 0 A7) as E8.
  rewrite Nat.add_0_r in E8. rewrite E8.
  pose proof (after_trans _ _ _ _ _ A7 B8) as A8.
  set (s8 := snd (dump_max17135_vcom char_is_signed p s7)) in *.
  clearbody s8.
  rewrite pbind_eq.
  destruct (dump_max17135_temperature_after p s8) as [B9 F9].
  cbv zeta in B9, F9. rewrite F9.
  pose proof (after_env _ _ _ 0 A8) as E9.
  pose proof (after_env _ _ _ 1 A8) as E10.
  pose proof (after_env _ _ _ 2 A8) as E11.
  rewrite Nat.add_0_r in E9. rewrite E9, E10, E11 in *.
  pose proof (after_trans _ _ _ _ _ A8 B9) as A9.
  set (s9 := snd (dump_max17135_temperature float convert_temperature
                                            fmt_1f p s8)) in *.
  clearbody s9.
  cbn [List.length app Nat.add] in *.
  split.
  - exact A9.
  - cbn [fst pret seq forallb]. rewrite !(Z.leb_antisym _ 0).
    set (n := List.length (hw_calls s)).
    destruct (hw_env s (n + 2) <? 0), (hw_env s (n + 3) <? 0),
      (hw_env s (n + 4) <? 0), (hw_env s (n + 5) <? 0),
      (hw_env s (n + 6) <? 0), (hw_env s (n + 7) <? 0),
      (hw_env s (n + 8) <? 0), (hw_env s (n + 9) <? 0); reflexivity.
Qed.

(** X19.  The state of the MAX17135.  The dump asks the device for
    everything and goes on after a failure.  The identifier and the
    revision come first, in the order the compiler has chosen for the
    arguments of the line they are logged on; then the three power rails,
    the timings, VCOM, the state of the temperature sensor and the internal
    temperature are always read, in this order, and the external
    temperature when the internal one was read.  The result is 0 when every
    answer from the third on is not negative, and -1 otherwise. *)
Theorem dump_max17135_state_reads_everything (p : ptr) (s : machine) :
  let n := List.length (hw_calls s) in
  let a := fun j : nat => hw_env s (n + j) in
  let r := dump_max17135_state char_is_signed float convert_temperature
                               fmt_1f args_left_to_right p s in
  hw_calls (snd r)
  = hw_calls s
    ++ (if args_left_to_right
        then [Max17135_get_prod_id p; Max17135_get_prod_rev p]
        else [Max17135_get_prod_rev p; Max17135_get_prod_id p])
    ++ [ Max17135_get_en p MAX17135_EN_EN;
         Max17135_get_en p MAX17135_EN_CEN;
         Max17135_get_en p MAX17135_EN_CEN2;
         Max17135_get_timings p 8;
         Max17135_get_vcom p;
         Max17135_get_temp_sensor_en p;
         Max17135_get_temperature p MAX17135_TEMP_INT ]
    ++ (if a 8%nat <? 0 then []
        else [Max17135_get_temperature p MAX17135_TEMP_EXT]) /\
  fst r = if forallb (fun j => 0 <=? a j) (seq 2 8) then 0 else -1.
Proof.
  destruct (dump_max17135_state_after p s) as ((H & _) & F).
  split; [exact H | exact F].
Qed.

Lemma dump_max17135_state_made (argv : list string) (p : ptr)
      (s : machine) :
  made (max17135_call_ok atoi argv) s
       (snd (dump_max17135_state char_is_signed float convert_temperature
                                 fmt_1f args_left_to_right p s)).
Proof.
  destruct (dump_max17135_state_after p s) as (A & _).
  eapply after_made; [exact A|].
  apply Forall_app. split;
    [destruct args_left_to_right; repeat constructor|].
  apply Forall_app. split; [repeat constructor|].
  match goal with
  | |- context [if ?b then _ else _] => destruct b
  end; repeat constructor.
Qed.

Lemma set_max17135_timing_made (cmd_str : string) (more : list string)
      (p : ptr) (s : machine) :
  made (max17135_call_ok atoi (cmd_str :: more)) s
       (snd (set_max17135_timing atoi p more s)).
Proof.
  unfold set_max17135_timing.
  destruct more as [|arg0 [|arg1 more]]; [repeat made_step.. |].
  destruct ((atoi arg0 <? 0) || (atoi arg0 >=? Z.of_nat MAX17135_NB_TIMINGS))
    eqn:E0; [repeat made_step|].
  destruct ((atoi arg1 <? 0) || (atoi arg1 >? 255)) eqn:E1;
    [repeat made_step|].
  apply made_bind; [apply made_lift | intros _ s1].
  apply made_hw. cbn [max17135_call_ok nth_error option_map].
  apply orb_false_iff in E0, E1. destruct E0 as [E0 E0'], E1 as [E1 E1'].
  apply Z.ltb_ge in E0, E1. rewrite Z.geb_leb in E0'. rewrite Z.gtb_ltb in E1'.
  apply Z.leb_gt in E0'. apply Z.ltb_ge in E1'.
  assert (N : Z.of_nat MAX17135_NB_TIMINGS = 8) by reflexivity.
  rewrite N in E0'. repeat split; lia.
Qed.

Lemma sequence_timings_bytes (ok : hw_call -> Prop) (intro : P unit)
      (n : nat) (src : list Z) (nb : Z) (s : machine) :
  made ok s (snd (intro s)) ->
  let m := pbind intro (fun _ =>
             pbind (copy_timings char_is_signed n 0 src)
                   (fun timings => pret (Some (timings, nb)))) in
  made ok s (snd (m s)) /\
  exists l : list Z,
    fst (m s) = Some (l, nb) /\
    Forall (fun t => 0 <= t <= 255) l /\
    List.length l = n.
Proof.
  intros Hi m. subst m.
  destruct (copy_timings_bytes ok n 0 src (snd (intro s)))
    as (Hm & Hf & Hl).
  split.
  - apply made_bind_fst; [exact Hi|].
    apply made_bind_fst; [exact Hm | apply made_refl].
  - exists (fst (copy_timings char_is_signed n 0 src (snd (intro s)))).
    split; [reflexivity | split; [exact Hf | exact Hl]].
Qed.

Lemma counted_timings_bytes (ok : hw_call -> Prop) (count : P Z)
      (args : list string) (s : machine) :
  made ok s (snd (count s)) ->
  let m := pbind count (fun n_timings =>
             pbind (read_timings atoi (Z.to_nat n_timings) args)
                   (fun timings =>
                      pret (option_map (fun l : list Z => (l, n_timings))
                                       timings))) in
  made ok s (snd (m s)) /\
  forall tn : list Z * Z,
    fst (m s) = Some tn ->
    snd tn = fst (count s) /\
    Forall (fun t => 0 <= t <= 255) (fst tn) /\
    List.length (fst tn) = Z.to_nat (fst (count s)).
Proof.
  intros Hc m. subst m.
  destruct (read_timings_bytes ok (Z.to_nat (fst (count s))) args
                               (snd (count s))) as (Hm & Hr).
  split.
  - apply made_bind_fst; [exact Hc|].
    apply made_bind_fst; [exact Hm | apply made_refl].
  - intros tn. rewrite !pbind_eq. cbn [fst pret].
    destruct (fst (read_timings atoi (Z.to_nat (fst (count s))) args
                                (snd (count s)))) as [l|];
      [|cbn; discriminate].
    cbn [option_map]. intros [= <-]. cbn [fst snd].
    destruct (Hr l eq_refl) as (Hf & Hl). repeat split; assumption.
Qed.

Lemma write_timings_made (ok : hw_call -> Prop) (p : ptr)
      (t : option (list Z * Z)) (s : machine) :
  (forall tn, t = Some tn -> ok (Max17135_set_timings p (fst tn) (snd tn))) ->
  made ok s
       (snd (match t with
             | None => pret (-1)
             | Some tn =>
                 pbind (hw (Max17135_set_timings p (fst tn) (snd tn)))
                       (fun stat =>
                          if negb (stat =? 0)
                          then pbind (PLOG "failed to write the timings")
                                     (fun _ => pret stat)
                          else pret 0)
             end s)).
Proof.
  intros H. destruct t as [tn|]; [|apply made_refl].
  apply made_bind; [apply made_hw, H; reflexivity | intros; repeat made_step].
Qed.

Lemma set_max17135_timings_made (cmd_str : string) (more : list string)
      (p : ptr) (s1 : machine) :
  made (max17135_call_ok atoi (cmd_str :: more)) s1
       (snd (set_max17135_timings atoi char_is_signed p more s1)).
Proof.
  unfold set_max17135_timings.
  destruct more as [|arg0 more].
  { repeat first [made_step | exact I | apply print_timings_quiet]. }
  set (args := arg0 :: more).
  assert (Hargs : (1 <= List.length args)%nat) by (cbn; lia).
  clearbody args.
  assert (N : Z.of_nat MAX17135_NB_TIMINGS = 8) by reflexivity.
  apply made_bind; [repeat made_step | intros seq s2].
  destruct seq as [seq|].
  - (* the timings of a sequence *)
    match goal with
    | |- made ?ok _ (snd (pbind (pbind ?intro _) _ _)) =>
        assert (Hi : made ok s2 (snd (intro s2))) by repeat made_step;
        destruct (sequence_timings_bytes ok intro MAX17135_NB_TIMINGS
                    (timing seq) (Z.of_nat MAX17135_NB_TIMINGS) s2 Hi)
          as (Hm & l & Hl & Hf & Hn)
    end.
    apply made_bind_fst; [exact Hm|].
    apply write_timings_made. intros tn Ht.
    rewrite Hl in Ht. injection Ht as <-.
    cbn [max17135_call_ok fst snd]. rewrite Hn.
    repeat split; [apply Nat.le_refl | exact Hf].
  - (* the timings of the arguments *)
    match goal with
    | |- made ?ok _ (snd (pbind (pbind ?count _) _ _)) =>
        assert (Hc : made ok s2 (snd (count s2))) by repeat made_step;
        assert (Hv : fst (count s2)
                     = if Z.of_nat (List.length args)
                          >? Z.of_nat MAX17135_NB_TIMINGS
                       then Z.of_nat MAX17135_NB_TIMINGS
                       else Z.of_nat (List.length args))
          by (destruct (Z.of_nat (List.length args)
                          >? Z.of_nat MAX17135_NB_TIMINGS); reflexivity);
        destruct (counted_timings_bytes ok count args s2 Hc) as (Hm & Hr)
    end.
    apply made_bind_fst; [exact Hm|].
    apply write_timings_made. intros tn Ht.
    destruct (Hr tn Ht) as (Hs & Hf & Hl).
    cbn [max17135_call_ok]. rewrite Hs, Hl, Hv, N.
    destruct (Z.of_nat (List.length args) >? 8) eqn:Eg.
    + repeat split; [apply Nat.le_refl | exact Hf].
    + rewrite Z.gtb_ltb in Eg. apply Z.ltb_ge in Eg.
      rewrite Nat2Z.id.
      repeat split; [lia | exact Hf].
Qed.

Lemma set_max17135_vcom_made (cmd_str : string) (more : list string)
      (p : ptr) (s : machine) :
  made (max17135_call_ok atoi (cmd_str :: more)) s
       (snd (set_max17135_vcom atoi char_is_signed p more s)).
Proof.
  unfold set_max17135_vcom.
  destruct more as [|arg more]; [repeat first [made_step | exact I]|].
  destruct ((atoi arg <? 0) || (atoi arg >? 255)) eqn:E;
    [repeat made_step|].
  apply made_bind; [apply made_lift | intros _ s1].
  apply made_hw. cbn [max17135_call_ok nth_error option_map].
  apply orb_false_iff in E. destruct E as [E E'].
  apply Z.ltb_ge in E. rewrite Z.gtb_ltb in E'. apply Z.ltb_ge in E'.
  assert (C : to_char (atoi arg) = atoi arg)
    by (unfold to_char; apply Z.mod_small; lia).
  rewrite C. repeat split; lia.
Qed.

Lemma get_max17135_fault_made (argv : list string) (p : ptr) (s : machine) :
  made (max17135_call_ok atoi argv) s
       (snd (get_max17135_fault FAULT_NONE FAULT_FBPG FAULT_HVINP FAULT_HVINN
                                FAULT_FBNG FAULT_HVINPSC FAULT_HVINNSC
                                FAULT_OT p s)).
Proof.
  unfold get_max17135_fault.
  apply made_bind; [apply made_hw; exact I | intros fault s1].
  destruct (fault <? 0); [repeat made_step|].
  match goal with
  | |- made _ _ (snd (match ?x with _ => _ end _)) => destruct x
  end; repeat made_step.
Qed.

(** X20.  What the command writes.  Whatever the arguments and the answers
    of the device, [run_max17135] writes only values the device has: 0 or
    1 to the power rail named, a timing from 0 to 255 for a number from 0
    to 7, at most eight bytes as timings with their count, a VCOM value
    from 0 to 255. *)
Theorem run_max17135_writes_in_range (argv : list string) (s : machine) :
  made (max17135_call_ok atoi argv) s
       (snd (run_max17135 atoi char_is_signed FAULT_NONE FAULT_FBPG
               FAULT_HVINP FAULT_HVINN FAULT_FBNG FAULT_HVINPSC
               FAULT_HVINNSC FAULT_OT float convert_temperature fmt_1f
               args_left_to_right argv s)).
Proof.
  unfold run_max17135.
  apply made_bind; [apply made_lift | intros p s1].
  destruct (p =? NULL); [apply made_refl|].
  destruct argv as [|cmd_str more]; [apply dump_max17135_state_made|].
  destruct (String.eqb cmd_str "timing") eqn:E1;
    [apply set_max17135_timing_made|].
  destruct (String.eqb cmd_str "timings") eqn:E2;
    [apply set_max17135_timings_made|].
  destruct (String.eqb cmd_str "vcom") eqn:E3;
    [apply set_max17135_vcom_made|].
  destruct (String.eqb cmd_str "fault") eqn:E4;
    [apply get_max17135_fault_made|].
  destruct more as [|arg1 [|? ?]]; [repeat made_step| |repeat made_step].
  pose proof (get_on_off_opt_range arg1) as Hon.
  destruct (get_on_off_opt arg1 <? 0) eqn:E5; [repeat made_step|].
  specialize (Hon eq_refl).
  destruct (String.eqb cmd_str "en") eqn:E6.
  { apply String.eqb_eq in E6. subst cmd_str.
    apply made_hw. split; [reflexivity | exact Hon]. }
  destruct (String.eqb cmd_str "cen") eqn:E7.
  { apply String.eqb_eq in E7. subst cmd_str.
    apply made_hw. split; [reflexivity | exact Hon]. }
  destruct (String.eqb cmd_str "cen2") eqn:E8.
  { apply String.eqb_eq in E8. subst cmd_str.
    apply made_hw. split; [reflexivity | exact Hon]. }
  repeat made_step.
Qed.

End Max17135_properties.

Lemma timings_beyond_eight_are_ignored_witness :
  hw_calls
    (snd (set_max17135_timings atoi_dec true 5
            ["1"; "2"; "3"; "4"; "5"; "6"; "7"; "8"; "900"]
            (desk_open (fun _ => 0) (fun _ => []))))
  = [Max17135_set_timings 5 [1; 2; 3; 4; 5; 6; 7; 8] 8].
Proof.
  rewrite (timings_beyond_eight_are_ignored atoi_dec true 5
             ["1"; "2"; "3"; "4"; "5"; "6"; "7"; "8"; "900"]
             (desk_open (fun _ => 0) (fun _ => [])));
    [reflexivity | cbn; lia].
Defined.

Lemma single_timing_is_looked_up_first_witness :
  let r := set_max17135_timings atoi_dec true 5 ["20"]
             (desk_open (fun _ => 0) (fun _ => [])) in
  fst r = 0 /\
  hw_calls (snd r) = [Max17135_set_timings 5 [20] 1] /\
  log (base (snd r)) = [Seq_not_found "20"].
Proof.
  cbv zeta.
  rewrite (single_timing_is_looked_up_first atoi_dec true 5 "20"
             (desk_open (fun _ => 0) (fun _ => [])));
    [ repeat split | discriminate | vm_compute; split; discriminate ].
Defined.

(** ** The help texts *)

Lemma help_scan_found (h : string) (pre post : list command) (c : command) :
  Forall (other_command h) pre ->
  cmd c = Some h ->
  help_scan h (pre ++ c :: post) = Some (Some c).
Proof.
  intros Hpre Hc. induction Hpre as [|e pre [He1 He2] _ IH]; cbn.
  - rewrite Hc. now rewrite String.eqb_refl.
  - unfold command_named in He2. destruct (cmd e) as [m|]; [|contradiction].
    now rewrite He2.
Qed.

Lemma help_scan_none (h : string) (entries : list command) (last : command) :
  Forall (other_command h) entries ->
  cmd last = None ->
  help_scan h (entries ++ [last]) = Some None.
Proof.
  intros He Hl. induction He as [|e entries [He1 He2] _ IH]; cbn.
  - now rewrite Hl.
  - unfold command_named in He2. destruct (cmd e) as [m|]; [|contradiction].
    now rewrite He2.
Qed.

(** X21.  The help of one command.  When the table has an entry called
    [h], [print_help] prints the name and the text of the first such entry,
    and nothing else: neither the usage nor another command. *)
Theorem print_help_of_one_command (pre post : list command) (c : command)
        (h text : string) (s : machine) :
  Forall (other_command h) pre ->
  cmd c = Some h ->
  help c = Some text ->
  print_help (pre ++ c :: post) (Some h) s
  = (tt, add_stdout (String.append "Command: "
                       (String.append h (String.append "\n" text))) s).
Proof.
  intros Hpre Hc Ht. unfold print_help.
  rewrite (help_scan_found h pre post c Hpre Hc).
  rewrite Hc. unfold print_command. rewrite Ht.
  assert (E : String.append text "" = text).
  { clear Ht. induction text as [|a text IH]; cbn;
      [reflexivity | now rewrite IH]. }
  rewrite E. reflexivity.
Qed.

(** X22.  The help of a command that does not exist.  For a table that ends
    with the entry of NULL name and has no entry called [h], [print_help]
    does what it does without a name: it prints the usage and every
    command. *)
Theorem print_help_unknown_is_full (entries : list command) (last : command)
        (h : string) (s : machine) :
  Forall (other_command h) entries ->
  cmd last = None ->
  print_help (entries ++ [last]) (Some h) s
  = print_help (entries ++ [last]) None s.
Proof.
  intros He Hl. unfold print_help.
  now rewrite (help_scan_none h entries last He Hl).
Qed.

(** ** The handles and the arguments of [power] *)

Lemma require_cpld_again (w : world) :
  cpld (the_ctx w) <> NULL -> require_cpld w = (cpld (the_ctx w), w).
Proof.
  intros H. apply Z.eqb_neq in H.
  unfold require_cpld, bind, get_ctx, put_ctx, ret. cbn [fst snd].
  now rewrite H.
Qed.

Lemma require_max17135_again (w : world) :
  max17135 (the_ctx w) <> NULL ->
  require_max17135 w = (max17135 (the_ctx w), w).
Proof.
  intros H. apply Z.eqb_neq in H.
  unfold require_max17135, bind, get_ctx, put_ctx, ret. cbn [fst snd].
  now rewrite H.
Qed.

Lemma require_dac_again (w : world) :
  dac (the_ctx w) <> NULL -> require_dac w = (dac (the_ctx w), w).
Proof.
  intros H. apply Z.eqb_neq in H.
  unfold require_dac, bind, get_ctx, put_ctx, ret. cbn [fst snd].
  now rewrite H.
Qed.

(** X23.  A device is opened once.  When [require_cpld], [require_max17135]
    or [require_dac] has returned a handle that is not NULL, asking again
    returns the same handle and does nothing: no call is made and the world
    is as it was. *)
Theorem handles_are_opened_once (w : world) :
  (fst (require_cpld w) <> NULL ->
   require_cpld (snd (require_cpld w)) = require_cpld w) /\
  (fst (require_max17135 w) <> NULL ->
   require_max17135 (snd (require_max17135 w)) = require_max17135 w) /\
  (fst (require_dac w) <> NULL ->
   require_dac (snd (require_dac w)) = require_dac w).
Proof.
  repeat split; intros H.
  - destruct (require_cpld_spec w) as (_ & _ & Hp & _).
    rewrite Hp in H. rewrite (require_cpld_again _ H), <- Hp.
    now destruct (require_cpld w).
  - destruct (require_max17135_spec w) as (_ & _ & Hp & _).
    rewrite Hp in H. rewrite (require_max17135_again _ H), <- Hp.
    now destruct (require_max17135 w).
  - destruct (require_dac_spec w) as (_ & _ & Hp & _).
    rewrite Hp in H. rewrite (require_dac_again _ H), <- Hp.
    now destruct (require_dac w).
Qed.

(** X24.  Wrong arguments of [power].  Without argument, with a first
    argument that is neither on nor off, or with a second argument that is
    not the name of a sequence, [run_power] returns -1 and touches no
    device: no call is made, not even to open one. *)
Theorem run_power_wrong_arguments (atoi : string -> Z)
        (argv : list string) (w : world) :
  argv = [] \/
  (exists a rest, argv = a :: rest /\ a <> "on" /\ a <> "off") \/
  (exists a n more, argv = a :: n :: more /\ n <> "seq0") ->
  fst (run_power atoi argv w) = -1 /\
  calls (snd (run_power atoi argv w)) = calls w /\
  the_ctx (snd (run_power atoi argv w)) = the_ctx w.
Proof.
  intros [-> | [(a & rest & -> & Hon & Hoff) | (a & n & more & -> & Hn)]].
  - repeat split.
  - unfold run_power, get_on_off_opt.
    apply String.eqb_neq in Hon, Hoff. rewrite Hon, Hoff.
    repeat split.
  - unfold run_power.
    destruct (get_on_off_opt a <? 0); [repeat split|].
    apply String.eqb_neq in Hn.
    unfold bind at 1.
    unfold get_power_seq, get_power_seq_in, seqs, seq_scan, name, bind, ret,
      emit.
    rewrite Hn. cbn [fst snd]. repeat split.
Qed.

Lemma print_help_of_one_command_witness :
  stdout (snd (print_help some_commands (Some "dac")
                          (desk plenty plenty (fun _ => []) None)))
  = ["Command: dac\n  channels\n"].
Proof.
  assert (Hpre : Forall (other_command "dac")
            [ mk_command (Some "pbtn") (Some "  buttons\n")
                         (Some (fun _ => run_pbtn)) ])
    by (repeat constructor; discriminate).
  pose proof (print_help_of_one_command _
                [mk_command None None None]
                (mk_command (Some "dac") (Some "  channels\n")
                   (Some (fun argv => lift (run_dac atoi_dec argv))))
                "dac" "  channels\n"
                (desk plenty plenty (fun _ => []) None) Hpre eq_refl eq_refl)
    as H.
  exact (f_equal (fun r => stdout (snd r)) H).
Defined.

Lemma print_help_unknown_is_full_witness :
  stdout (snd (print_help some_commands (Some "adc")
                          (desk plenty plenty (fun _ => []) None)))
  = [usage; "Command: pbtn\n  buttons\n\n"; "Command: dac\n  channels\n\n"].
Proof.
  assert (Hpre : Forall (other_command "adc")
            [ mk_command (Some "pbtn") (Some "  buttons\n")
                         (Some (fun _ => run_pbtn));
              mk_command (Some "dac") (Some "  channels\n")
                         (Some (fun argv => lift (run_dac atoi_dec argv))) ])
    by (repeat constructor; discriminate).
  pose proof (print_help_unknown_is_full _ (mk_command None None None) "adc"
                (desk plenty plenty (fun _ => []) None) Hpre eq_refl)
    as H.
  exact (f_equal (fun r => stdout (snd r)) H).
Defined.

Lemma handles_are_opened_once_witness :
  require_cpld (snd (require_cpld (boot plenty)))
  = (1000000, snd (require_cpld (boot plenty))).
Proof.
  destruct (handles_are_opened_once (boot plenty)) as (H & _).
  rewrite H; [reflexivity | discriminate].
Defined.

Lemma run_power_wrong_arguments_witness :
  fst (run_power atoi_dec ["on"; "seq1"; "100"] (boot plenty)) = -1 /\
  calls (snd (run_power atoi_dec ["on"; "seq1"; "100"] (boot plenty))) = [].
Proof.
  destruct (run_power_wrong_arguments atoi_dec ["on"; "seq1"; "100"]
              (boot plenty)) as (H1 & H2 & _).
  - right. right. exists "on", "seq1", ["100"]. split; [reflexivity|].
    discriminate.
  - split; [exact H1 | exact H2].
Defined.
